(** * fluxcli: the FLUX image-generation client (src/cli/fluxcli.py)

    A shallow embedding of the Python module [fluxcli.py] and the
    properties proved about it.

    - Python values are the inductive [pyval]; a [dict] with string keys
      is a [gmap string pyval]; a Python [float] is an IEEE-754 binary64
      number, computed with the Standard Library's [SpecFloat]; the
      rounding errors are bounded over the rationals ([QArith]).
    - Everything the module does to the outside (HTTP calls through
      [requests], lines printed on [sys.stderr], [time.sleep], files) is
      recorded in an explicit [world]; a method is a function
      [world -> outcome A * world], where an [outcome] is a returned value
      or a raised exception.
    - What belongs to libraries outside the module (Pillow's codecs and
      rasteriser, [base64], [json], [os.path], libm's [pow]) is taken as
      an interface ([Class Pillow], [Class PyLib]); the theorems hold for
      every implementation of it. *)

From Stdlib Require Import ZArith String Ascii List Lia Bool SpecFloat.
From Stdlib Require Import QArith Qabs Qpower Lqa.
From stdpp Require Import base option gmap strings list pretty.

#[local] Set Warnings "-register-all".
Local Open Scope string_scope.
Local Open Scope list_scope.
Local Open Scope Z_scope.

(** ** Python values *)

Inductive pyval :=
| VNone
| VBool (b : bool)
| VInt (n : Z)
| VFloat (f : spec_float)
| VStr (s : string)
| VList (l : list pyval)
| VDict (d : gmap string pyval).

(** Truth value of an object, as [if x:] / [not x] / [x or y] use it. *)
Definition truthy (v : pyval) : bool :=
  match v with
  | VNone => false
  | VBool b => b
  | VInt n => negb (n =? 0)
  | VFloat (S754_zero _) => false
  | VFloat _ => true
  | VStr s => negb (String.eqb s "")
  | VList l => match l with [] => false | _ => true end
  | VDict d => negb (bool_decide (d = ∅))
  end.

(** [v == 'literal'] for a string literal on the right. *)
Definition py_eq_str (v : pyval) (s : string) : bool :=
  match v with
  | VStr t => String.eqb t s
  | _ => false
  end.

(** [Optional[int]] and [Optional[str]] arguments as Python objects. *)
Definition of_opt_int (o : option Z) : pyval :=
  match o with Some n => VInt n | None => VNone end.

Definition of_opt_str (o : option string) : pyval :=
  match o with Some s => VStr s | None => VNone end.

(** ** Exceptions and outcomes *)

Inductive exn :=
| ValueError (msg : string)
| KeyError (key : string)
| AttributeError (attr : string)
| ZeroDivisionError
| OverflowError
| MemoryError
| FileNotFoundError (path : string)
| PermissionError (path : string)
| RequestException (url : string)
| ImageError (what : string)
| SystemExit (code : Z).

(** [except Exception] catches everything but [SystemExit]. *)
Definition is_Exception (e : exn) : bool :=
  match e with SystemExit _ => false | _ => true end.

(** [except requests.exceptions.RequestException]. *)
Definition is_RequestException (e : exn) : bool :=
  match e with RequestException _ => true | _ => false end.

(** [except IOError]: [OSError] and its subclasses; [RequestException]
    derives from [IOError] too. *)
Definition is_IOError (e : exn) : bool :=
  match e with
  | FileNotFoundError _ | PermissionError _ | RequestException _ => true
  | _ => false
  end.

(** An f-string keeps its literal text and the interpolated objects apart:
    [f"Task failed: {e}"] is [[Lit "Task failed: "; Interp e]]. *)
Inductive piece :=
| Lit (s : string)
| Interp (v : pyval)
| InterpExn (e : exn).

Definition line := list piece.

Inductive outcome (A : Type) :=
| Ok (a : A)
| Raise (e : exn).
Arguments Ok {A} a.
Arguments Raise {A} e.

#[global] Instance outcome_ret : MRet outcome := λ A a, Ok a.
#[global] Instance outcome_bind : MBind outcome := λ A B f m,
  match m with
  | Ok a => f a
  | Raise e => Raise e
  end.

(** ** The world outside the module

    The provider answers every request with a JSON object; only the
    download of the final image may fail. A [requests.post] or
    [requests.get] that raises (no connection, a body that is not JSON)
    is outside the model: the theorems are about the runs whose requests
    are answered. *)

Record http_response := HttpResponse {
  content_type : option string;
  content : list Byte.byte;
}.

Inductive http_call :=
| HttpPost (url : string) (json : gmap string pyval) (headers : gmap string string)
| HttpGet (url : string) (params : gmap string pyval)
| HttpDownload (url : string).

Record world := World {
  (** JSON body the provider answers to a [POST url] with a given payload *)
  post_reply : string → gmap string pyval → gmap string pyval;
  (** JSON bodies the provider will answer to the coming status queries *)
  status_script : nat → gmap string pyval;
  (** what a download of a URL gives; [None]: the request fails *)
  downloads : string → option http_response;
  (** process environment *)
  environ : gmap string string;
  (** whether a file can be created at a path *)
  writable : string → bool;
  (** the files, each under its path as the program writes it: a path
      stands for the file it names and two paths for two files (another
      spelling of the same file, ['./x'] for ['x'], is outside the model) *)
  files : gmap string (list Byte.byte);
  http_log : list http_call;
  stderr : list line;
  slept : Z;
}.

Definition with_status_script (f : nat → gmap string pyval) (w : world) : world :=
  World (post_reply w) f (downloads w) (environ w) (writable w) (files w)
        (http_log w) (stderr w) (slept w).

Definition with_files (fs : gmap string (list Byte.byte)) (w : world) : world :=
  World (post_reply w) (status_script w) (downloads w) (environ w) (writable w) fs
        (http_log w) (stderr w) (slept w).

Definition with_http_log (l : list http_call) (w : world) : world :=
  World (post_reply w) (status_script w) (downloads w) (environ w) (writable w) (files w)
        l (stderr w) (slept w).

Definition with_stderr (l : list line) (w : world) : world :=
  World (post_reply w) (status_script w) (downloads w) (environ w) (writable w) (files w)
        (http_log w) l (slept w).

Definition with_slept (t : Z) (w : world) : world :=
  World (post_reply w) (status_script w) (downloads w) (environ w) (writable w) (files w)
        (http_log w) (stderr w) t.

(** A computation: runs in a world, returns or raises, leaves a world. *)
Definition Run (A : Type) : Type := world → outcome A * world.

#[global] Instance Run_ret : MRet Run := λ A a w, (Ok a, w).
#[global] Instance Run_bind : MBind Run := λ A B f m w,
  match m w with
  | (Ok a, w') => f a w'
  | (Raise e, w') => (Raise e, w')
  end.

Definition raise {A : Type} (e : exn) : Run A := λ w, (Raise e, w).

Definition lift {A : Type} (o : outcome A) : Run A := λ w, (o, w).

(** [try: body / except <class> as e: handler e], for the exceptions that
    [catches] accepts; the others propagate. *)
Definition try_except {A : Type} (body : Run A) (catches : exn → bool)
    (handler : exn → Run A) : Run A := λ w,
  match body w with
  | (Ok a, w') => (Ok a, w')
  | (Raise e, w') => if catches e then handler e w' else (Raise e, w')
  end.

(** [print(..., file=sys.stderr)] *)
Definition print_stderr (l : line) : Run unit := λ w,
  (Ok tt, with_stderr (stderr w ++ [l]) w).

(** [time.sleep(seconds)] *)
Definition time_sleep (seconds : Z) : Run unit := λ w,
  (Ok tt, with_slept (slept w + seconds) w).

(** [requests.post(url, json=..., headers=...).json()] *)
Definition requests_post (url : string) (json : gmap string pyval)
    (headers : gmap string string) : Run (gmap string pyval) := λ w,
  (Ok (post_reply w url json),
   with_http_log (http_log w ++ [HttpPost url json headers]) w).

(** [requests.get(url, params=...).json()]: the provider's next answer. *)
Definition requests_get (url : string) (params : gmap string pyval)
    : Run (gmap string pyval) := λ w,
  (Ok (status_script w 0%nat),
   with_status_script (λ i, status_script w (S i))
     (with_http_log (http_log w ++ [HttpGet url params]) w)).

(** [d[key]] *)
Definition getitem (d : gmap string pyval) (key : string) : Run pyval :=
  match d !! key with
  | Some v => mret v
  | None => raise (KeyError key)
  end.

(** ** class FluxAPI *)

Record FluxAPI := {
  api_key : string;
  base_url : string;
  headers : gmap string string;
}.

Definition missing_key : string :=
  "API key must be provided or set in BFL_API_KEY environment variable".

(** [FluxAPI.__init__] *)
Definition FluxAPI_init (key : option string) : Run FluxAPI := λ w,
  let api_key :=
    match key with
    | Some k => if String.eqb k "" then environ w !! "BFL_API_KEY" else Some k
    | None => environ w !! "BFL_API_KEY"
    end in
  match api_key with
  | Some k =>
      if String.eqb k "" then
        (Raise (ValueError missing_key), w)
      else
        (Ok {| api_key := k; base_url := "https://api.bfl.ml";
               headers := {[ "X-Key" := k ]} |}, w)
  | None =>
      (Raise (ValueError missing_key), w)
  end.

(** *** FluxAPI.get_task_result *)

Definition max_attempts : Z := 30.

Definition attempt_line (attempt : Z) : line :=
  [Lit "Processing image... (attempt "; Interp (VInt (attempt + 1)); Lit "/";
   Interp (VInt max_attempts); Lit ")"].

Definition task_failed_line (result : gmap string pyval) : line :=
  [Lit "Task failed: "; Interp (default (VStr "Unknown error") (result !! "error"))].

Definition timeout_line : line := [Lit "Timeout waiting for result"].

(** The [while attempt < max_attempts] loop. [remaining] is the loop's
    variant [max_attempts - attempt]: the guard holds exactly when it is
    not zero, and the body's [attempt += 1] decreases it by one. *)
Fixpoint poll_loop (self : FluxAPI) (task_id : pyval) (silent : bool)
    (remaining : nat) (attempt : Z) : Run (option (gmap string pyval)) :=
  match remaining with
  | O =>
      print_stderr timeout_line;;
      mret None
  | S remaining' =>
      (if silent then mret tt else print_stderr (attempt_line attempt));;
      result ← requests_get (base_url self +:+ "/v1/get_result") {[ "id" := task_id ]};
      status ← getitem result "status";
      if py_eq_str status "Ready" then
        mret (Some result)
      else if py_eq_str status "failed" then
        print_stderr (task_failed_line result);;
        mret None
      else
        time_sleep 2;;
        poll_loop self task_id silent remaining' (attempt + 1)
  end.

Definition get_task_result (self : FluxAPI) (task_id : pyval) (silent : bool)
    : Run (option (gmap string pyval)) :=
  let attempt := 0 in
  print_stderr [Lit "Processing image..."];;
  poll_loop self task_id silent (Z.to_nat (max_attempts - attempt)) attempt.

(** The tail shared by the four generation methods:
    [if result and result.get('result', {}).get('sample'):
       return result['result']['sample']
     return None] *)
Definition sample_url (result : option (gmap string pyval)) : Run pyval :=
  match result with
  | Some r =>
      if truthy (VDict r) then
        match default (VDict ∅) (r !! "result") with
        | VDict inner =>
            let sample := default VNone (inner !! "sample") in
            if truthy sample then mret sample else mret VNone
        | _ => raise (AttributeError "get")
        end
      else mret VNone
  | None => mret VNone
  end.

(** Also shared: read the job identifier of the provider's reply, poll,
    and extract the sample URL. [what] is the text of the message printed
    when the reply has no identifier. *)
Definition await_sample (self : FluxAPI) (reply : gmap string pyval) (what : line)
    : Run pyval :=
  let task_id := default VNone (reply !! "id") in
  if negb (truthy task_id) then
    print_stderr what;;
    mret VNone
  else
    result ← get_task_result self task_id false;
    sample_url result.

(** *** FluxAPI.generate_image *)

Definition model_endpoints : gmap string string :=
  list_to_map
    [("flux.1.1-pro", "/v1/flux-pro-1.1");
     ("flux.1-pro", "/v1/flux-pro");
     ("flux.1-dev", "/v1/flux-dev");
     ("flux.1.1-ultra", "/v1/flux-pro-1.1-ultra")].

(** [n or d] for an [Optional[int]] *)
Definition or_int (o : option Z) (d : Z) : Z :=
  match o with
  | Some n => if n =? 0 then d else n
  | None => d
  end.

(** Lines 97-112: the dimensions sent to the provider. *)
Definition generate_dimensions (width height : option Z) (aspect_ratio : option string)
    : option Z * option Z :=
  if truthy (of_opt_str aspect_ratio) then
    if py_eq_str (of_opt_str aspect_ratio) "1:1" then (Some 1024, Some 1024)
    else if py_eq_str (of_opt_str aspect_ratio) "4:3" then (Some 1024, Some 768)
    else if py_eq_str (of_opt_str aspect_ratio) "3:4" then (Some 768, Some 1024)
    else if py_eq_str (of_opt_str aspect_ratio) "16:9" then (Some 1024, Some 576)
    else if py_eq_str (of_opt_str aspect_ratio) "9:16" then (Some 576, Some 1024)
    else (width, height)
  else
    (Some (or_int width 1024), Some (or_int height 768)).

(** Lines 114-119: the payload. *)
Definition generate_payload (prompt : string) (width height : option Z)
    (aspect_ratio : option string) : gmap string pyval :=
  let '(width, height) := generate_dimensions width height aspect_ratio in
  <[ "prompt" := VStr prompt ]>
  (<[ "width" := of_opt_int width ]>
  (<[ "height" := of_opt_int height ]>
  (<[ "aspect_ratio" :=
        if truthy (of_opt_str aspect_ratio) then of_opt_str aspect_ratio else VNone ]> ∅))).

Definition generate_image (self : FluxAPI) (prompt : string) (model : string)
    (width height : option Z) (aspect_ratio : option string) : Run pyval :=
  let endpoint := model_endpoints !! model in
  if negb (truthy (of_opt_str endpoint)) then
    raise (ValueError ("Unknown model: " +:+ model))
  else
    let payload := generate_payload prompt width height aspect_ratio in
    reply ← requests_post (base_url self +:+ default "" endpoint) payload (headers self);
    await_sample self reply [Lit "Failed to start generation task"].

(** ** Floating point

    A Python [float] is a binary64 number; [*], [-] and [/] are the
    correctly rounded IEEE operations. *)

Definition float_of_int (n : Z) : spec_float := binary_normalize 53 1024 n 0 false.

(** A decimal literal [num/den] with [den] a power of ten, such as
    [0.65 = 65/100]: the double nearest to the quotient. *)
Definition float_lit (num den : Z) : spec_float :=
  SFdiv 53 1024 (float_of_int num) (float_of_int den).

(** [n * x] for an [int] and a [float]: the integer is converted first,
    to the nearest double, and an integer too large for a double raises
    [OverflowError]. *)
Definition int_mul_float (n : Z) (x : spec_float) : outcome spec_float :=
  match float_of_int n with
  | S754_infinity _ => Raise OverflowError
  | f => Ok (SFmul 53 1024 f x)
  end.

(** [a / b] for two [int]s: the double nearest to the quotient (the
    operands are converted exactly below [2^53]). *)
Definition int_truediv (a b : Z) : outcome spec_float :=
  if b =? 0 then Raise ZeroDivisionError
  else Ok (SFdiv 53 1024 (float_of_int a) (float_of_int b)).

(** [n / x] for an [int] and a [float] *)
Definition int_div_float (n : Z) (x : spec_float) : outcome spec_float :=
  match x with
  | S754_zero _ => Raise ZeroDivisionError
  | _ => Ok (SFdiv 53 1024 (float_of_int n) x)
  end.

(** [int(x)]: truncation towards zero *)
Definition int_of_float (x : spec_float) : outcome Z :=
  match x with
  | S754_zero _ => Ok 0
  | S754_finite s m e =>
      let a := if 0 <=? e then Z.pos m * 2 ^ e else Z.pos m / 2 ^ (- e) in
      Ok (if s then - a else a)
  | S754_infinity _ => Raise OverflowError
  | S754_nan => Raise (ValueError "cannot convert float NaN to integer")
  end.

(** *** The numbers behind the floats

    The rational a finite float stands for, and what it takes to bound
    the error of a rounding. *)

Definition F2Q (x : spec_float) : Q :=
  match x with
  | S754_finite s m e => (inject_Z (if s then Z.neg m else Z.pos m) * 2 ^ e)%Q
  | _ => 0%Q
  end.

(** A positive normal number, with its exponent between two bounds. *)
Definition normal (lo hi : Z) (x : spec_float) : Prop :=
  ∃ m e, x = S754_finite false m e ∧ 2 ^ 52 ≤ Z.pos m < 2 ^ 53 ∧ lo ≤ e ≤ hi.

(** Within one part in [2 ^ 53] of a non-negative number: the error of a
    rounding to nearest. *)
Definition close (a x : Q) : Prop :=
  ((1 - (1 # 9007199254740992)) * x <= a ∧ a <= (1 + (1 # 9007199254740992)) * x)%Q.

(** What the rescaling needs of [x ** 0.5]: a positive number whose
    square is [x] to within one part in [2 ^ 50]. The C libraries'
    [pow] is accurate to about one unit in the last place, which is a
    part in [2 ^ 52] of the root. *)
Definition sqrt_accurate (x s : spec_float) : Prop :=
  (∃ m e, s = S754_finite false m e) ∧
  ((1 - (1 # 1125899906842624)) * F2Q x <= F2Q s * F2Q s
   ∧ F2Q s * F2Q s <= (1 + (1 # 1125899906842624)) * F2Q x)%Q.

(** The position of a remainder [R] in a division by [D]: what
    [new_location] and the shifts of [shr] keep of the bits they drop. *)
Definition loc_of (R D : Z) : location :=
  if R =? 0 then loc_Exact else loc_Inexact (2 * R ?= D).

(** A shift record that stands for the quotient [N / D]. *)
Definition describes (N D : Z) (mrs : shr_record) : Prop :=
  shr_m mrs = N / D ∧ loc_of_shr_record mrs = loc_of (N mod D) D.

(** ** Pillow

    An image in memory: its mode, its size and its pixels, one value per
    band. [Image.new] and the painting of [ImageDraw] are written out;
    which pixels a shape covers, and the codecs, are Pillow's business. *)

Record Image := {
  mode : string;
  size : Z * Z;
  getpixel : Z → Z → list Z;
}.

(** The codecs answer with a value or with the text of the exception they
    raise ([UnidentifiedImageError], [OSError], ...), which is always an
    [Exception]. *)
Class Pillow := {
  (** [Image.open(BytesIO(data))] and the decoding of the file *)
  Image_open : list Byte.byte → string + Image;
  (** [img.convert(mode)] *)
  Image_convert : Image → string → string + Image;
  (** [img.save(buffer, format=..., quality=...)], the bytes written *)
  Image_save : Image → string → option Z → string + list Byte.byte;
  (** what a file holds once an [img.save(path)] has opened it and its
      encoder has failed, from what it held before ([None]: no file):
      Pillow closes the file, and removes it or not *)
  Image_save_leaves : Image → string → option (list Byte.byte)
                      → option (list Byte.byte);
  (** whether the core finds the memory for an image of that mode and
      size *)
  Image_allocates : string → Z * Z → bool;
  (** the pixels that [draw.rectangle(xy)], [draw.ellipse(xy)] and
      [draw.polygon(points)] paint *)
  rectangle_covers : list pyval → Z → Z → bool;
  ellipse_covers : list pyval → Z → Z → bool;
  polygon_covers : list (pyval * pyval) → Z → Z → bool;
}.

Definition pillow {A : Type} (r : string + A) : outcome A :=
  match r with
  | inl what => Raise (ImageError what)
  | inr a => Ok a
  end.

(** The rest of the standard library and of the platform. *)
Class PyLib := {
  b64encode : list Byte.byte → string;
  json_dumps : gmap string pyval → string;
  os_path_splitext : string → string * string;
  os_path_abspath : string → string;
  os_path_dirname : string → string;
  (** [x ** y] on floats, which CPython hands to the C library *)
  libm_pow : spec_float → spec_float → spec_float;
}.

(** [Image.new(mode, size, color)] for a single-band mode: the size is
    checked, handed to the core as two C [int]s, and the storage
    allocated. *)
Definition Image_new `{Pillow} (mode : string) (size : Z * Z) (color : Z)
    : outcome Image :=
  if (size.1 <? 0) || (size.2 <? 0) then
    Raise (ValueError "Width and height must be >= 0")
  else if (2 ^ 31 <=? size.1) || (2 ^ 31 <=? size.2) then
    Raise OverflowError
  else if Image_allocates mode size then
    Ok {| mode := mode; size := size; getpixel := λ _ _, [color] |}
  else
    Raise MemoryError.

(** Painting a shape with a solid ink: the covered pixels take the fill
    value, the others keep theirs. *)
Definition paint (covers : Z → Z → bool) (fill : Z) (im : Image) : Image :=
  {| mode := mode im;
     size := size im;
     getpixel := λ x y, if covers x y then [fill] else getpixel im x y |}.

(** ** Files *)

Definition read_file (path : string) : Run (list Byte.byte) := λ w,
  match files w !! path with
  | Some data => (Ok data, w)
  | None => (Raise (FileNotFoundError path), w)
  end.

Definition write_file (path : string) (data : list Byte.byte) : Run unit := λ w,
  if writable w path then (Ok tt, with_files (<[ path := data ]> (files w)) w)
  else (Raise (PermissionError path), w).

Definition os_remove (path : string) : Run unit := λ w,
  match files w !! path with
  | Some _ => (Ok tt, with_files (delete path (files w)) w)
  | None => (Raise (FileNotFoundError path), w)
  end.

(** [os.makedirs(path, exist_ok=True)]; directories are not tracked. *)
Definition os_makedirs (path : string) : Run unit := λ w,
  if writable w path then (Ok tt, w) else (Raise (PermissionError path), w).

(** [requests.get(url, stream=True)] then [raise_for_status()] *)
Definition requests_download (url : string) : Run http_response := λ w,
  let w' := with_http_log (http_log w ++ [HttpDownload url]) w in
  match downloads w url with
  | Some r => (Ok r, w')
  | None => (Raise (RequestException url), w')
  end.

(** ** Strings *)

Definition ascii_lower (c : ascii) : ascii :=
  let n := nat_of_ascii c in
  if ((65 <=? n) && (n <=? 90))%nat then ascii_of_nat (n + 32) else c.

(** [s.lower()], on ASCII letters *)
Fixpoint str_lower (s : string) : string :=
  match s with
  | EmptyString => EmptyString
  | String c rest => String (ascii_lower c) (str_lower rest)
  end.

(** [(sep in s, s.split(sep)[-1])] *)
Fixpoint split_last (sep : ascii) (s : string) : bool * string :=
  match s with
  | EmptyString => (false, EmptyString)
  | String c rest =>
      let '(seen, segment) := split_last sep rest in
      if seen then (true, segment)
      else if Ascii.eqb c sep then (true, segment)
      else (false, String c segment)
  end.

(** [c in s] for a one-character [c] *)
Fixpoint str_contains (c : ascii) (s : string) : bool :=
  match s with
  | EmptyString => false
  | String d rest => Ascii.eqb c d || str_contains c rest
  end.

Section Methods.
Context `{Pillow} `{PyLib}.

(** *** FluxAPI.encode_image *)
Definition encode_image (image_path : string) : Run string :=
  data ← read_file image_path;
  mret (b64encode data).

(** [Image.open(path)] *)
Definition Image_open_path (path : string) : Run Image :=
  data ← read_file path;
  lift (pillow (Image_open data)).

(** *** FluxAPI.create_mask *)
Definition create_mask (size : Z * Z) (shape position : string) : outcome Image :=
  mask ← Image_new "L" size 0;
  let '(width, height) := size in
  if String.eqb position "ground" then
    horizon_y ← int_mul_float height (float_lit 65 100);
    rise ← int_mul_float height (float_lit 5 100);
    let y_start := SFsub 53 1024 horizon_y rise in
    let points :=
      [(VInt 0, VFloat y_start);
       (VInt 0, VInt height);
       (VInt width, VInt height);
       (VInt width, VFloat y_start)] in
    mret (paint (polygon_covers points) 255 mask)
  else
    x1 ← int_mul_float width (float_lit 25 100);
    y1 ← int_mul_float height (float_lit 25 100);
    x2 ← int_mul_float width (float_lit 75 100);
    y2 ← int_mul_float height (float_lit 75 100);
    if String.eqb shape "rectangle" then
      mret (paint (rectangle_covers [VFloat x1; VFloat y1; VFloat x2; VFloat y2]) 255 mask)
    else
      let center := (width / 2, height / 2) in
      let radius := Z.min width height / 4 in
      mret (paint (ellipse_covers
                     [VInt (center.1 - radius); VInt (center.2 - radius);
                      VInt (center.1 + radius); VInt (center.2 + radius)]) 255 mask).

(** [img.save(path)], for a path whose extension calls for [format]:
    Pillow opens the file for writing, which creates or empties it, and
    then runs the encoder on it. *)
Definition Image_save_path (im : Image) (path format : string) : Run unit := λ w,
  if writable w path then
    match Image_save im format None with
    | inr data => (Ok tt, with_files (<[ path := data ]> (files w)) w)
    | inl what =>
        (Raise (ImageError what),
         with_files (match Image_save_leaves im format (files w !! path) with
                     | Some rest => <[ path := rest ]> (files w)
                     | None => delete path (files w)
                     end) w)
    end
  else (Raise (PermissionError path), w).

(** *** FluxAPI.inpaint *)
Definition inpaint (self : FluxAPI) (image_path prompt mask_shape position : string)
    : Run pyval :=
  base_image ← Image_open_path image_path;
  mask ← lift (create_mask (size base_image) mask_shape position);
  let mask_path := "temp_mask.jpg" in
  Image_save_path mask mask_path "JPEG";;
  image64 ← encode_image image_path;
  mask64 ← encode_image mask_path;
  let payload : gmap string pyval :=
    <[ "image" := VStr image64 ]>
    (<[ "mask" := VStr mask64 ]>
    (<[ "prompt" := VStr prompt ]>
    (<[ "steps" := VInt 50 ]>
    (<[ "guidance" := VInt 60 ]>
    (<[ "output_format" := VStr "jpeg" ]>
    (<[ "safety_tolerance" := VInt 2 ]> ∅)))))) in
  reply ← requests_post (base_url self +:+ "/v1/flux-pro-1.0-fill") payload (headers self);
  os_remove mask_path;;
  await_sample self reply [Lit "Failed to start inpaint task"].

(** *** FluxAPI.control_generate *)

Definition control_endpoints : gmap string string :=
  list_to_map
    [("canny", "/v1/flux-pro-1.0-canny");
     ("depth", "/v1/flux-pro-1.0-depth");
     ("pose", "/v1/flux-pro-1.0-pose")].

Definition default_params : gmap string (gmap string pyval) :=
  list_to_map
    [("canny", {[ "guidance" := VInt 30 ]});
     ("depth", {[ "guidance" := VInt 15 ]});
     ("pose", {[ "guidance" := VInt 25 ]})].

(** [d.update(other)]: the entries of [other] win. *)
Definition dict_update (d other : gmap string pyval) : gmap string pyval := other ∪ d.

(** Lines 222-231: the payload, once the control image is encoded. *)
Definition control_payload (control_type : string) (control_image64 : string)
    (prompt : string) (kwargs : gmap string pyval) : gmap string pyval :=
  let payload : gmap string pyval :=
    <[ "prompt" := VStr prompt ]>
    (<[ "control_image" := VStr control_image64 ]>
    (<[ "steps" := default (VInt 50) (kwargs !! "steps") ]>
    (<[ "output_format" := default (VStr "jpeg") (kwargs !! "output_format") ]>
    (<[ "safety_tolerance" := default (VInt 2) (kwargs !! "safety_tolerance") ]> ∅)))) in
  let payload := dict_update payload (default ∅ (default_params !! control_type)) in
  dict_update payload kwargs.

Definition control_generate (self : FluxAPI) (control_type control_image prompt : string)
    (kwargs : gmap string pyval) : Run pyval :=
  match control_endpoints !! control_type with
  | None => raise (ValueError ("Unsupported control type: " +:+ control_type))
  | Some endpoint =>
      control_image64 ← encode_image control_image;
      let payload := control_payload control_type control_image64 prompt kwargs in
      reply ← requests_post (base_url self +:+ endpoint) payload (headers self);
      await_sample self reply
        [Lit "Failed to start control ("; Interp (VStr control_type); Lit ") task"]
  end.

(** *** FluxAPI.img2img *)

(** Lines 264-273: the dimensions sent, from the requested ones and the
    size of the source image. *)
Definition img2img_dimensions (orig_size : Z * Z) (width height : option Z)
    : outcome (Z * Z) :=
  let '(orig_width, orig_height) := orig_size in
  let '(width, height) :=
    match width, height with
    | Some w, Some h => (w, h)
    | _, _ => (orig_width, orig_height)
    end in
  aspect_ratio ← int_truediv orig_height orig_width;
  let total_pixels := width * height in
  if 1048576 <? total_pixels then
    let max_area := 1048576 in
    quotient ← int_div_float max_area aspect_ratio;
    width ← int_of_float (libm_pow quotient (float_lit 5 10));
    product ← int_mul_float width aspect_ratio;
    height ← int_of_float product;
    mret (width, height)
  else
    mret (width, height).

Definition img2img (self : FluxAPI) (image_path prompt model : string)
    (strength : spec_float) (width height : option Z) : Run pyval :=
  let endpoint := model_endpoints !! model in
  if negb (truthy (of_opt_str endpoint)) then
    raise (ValueError ("Unknown model: " +:+ model))
  else
    img ← Image_open_path image_path;
    '(width, height) ← lift (img2img_dimensions (size img) width height);
    jpeg ← lift (pillow (Image_save img "JPEG" (Some 95)));
    let image_base64 := b64encode jpeg in
    let payload : gmap string pyval :=
      <[ "prompt" := VStr prompt ]>
      (<[ "image" := VStr image_base64 ]>
      (<[ "strength" := VFloat strength ]>
      (<[ "width" := VInt width ]>
      (<[ "height" := VInt height ]>
      (<[ "guidance_scale" := VFloat (float_lit 75 10) ]>
      (<[ "num_inference_steps" := VInt 50 ]>
      (<[ "scheduler" := VStr "euler_ancestral" ]>
      (<[ "preserve_init_image_color_profile" := VBool true ]> ∅)))))))) in
    reply ← requests_post (base_url self +:+ default "" endpoint) payload (headers self);
    await_sample self reply [Lit "Failed to start image-to-image task"].

(** ** handle_image_url *)

Definition exit_with {A : Type} (message : line) : Run A :=
  print_stderr message;;
  raise (SystemExit 1).

(** The three [except] clauses of the function, in their order. They read
    the local [output_path] as it is when the exception arrives. *)
Definition on_error (image_url : string) (output_path : option string) (e : exn)
    : Run string :=
  if is_RequestException e then
    exit_with [Lit "Error fetching image from URL "; Interp (VStr image_url); Lit ": ";
               InterpExn e]
  else if is_IOError e then
    exit_with [Lit "Error saving image to "; Interp (of_opt_str output_path); Lit ": ";
               InterpExn e]
  else
    exit_with [Lit "An unexpected error occurred: "; InterpExn e].

(** Lines 313-317: the format announced by the content type, brought back
    to [jpeg] unless it is [png] or [gif]. *)
Definition detect_save_format (response : http_response) : string :=
  let content_type := default "image/jpeg" (content_type response) in
  let original_format := str_lower (split_last "/" content_type).2 in
  if String.eqb original_format "png" || String.eqb original_format "gif"
  then original_format else "jpeg".

(** Lines 327-338: the body of the inner [try]. *)
Definition convert_to_webp (image_bytes : list Byte.byte) (save_format : string)
    : outcome (string * list Byte.byte) :=
  img ← pillow (Image_open image_bytes);
  img ← pillow (if String.eqb (mode img) "P"
                   || (String.eqb save_format "png" && str_contains "A" (mode img))
                then Image_convert img "RGBA"
                else Image_convert img "RGB");
  final_image_bytes ← pillow (Image_save img "WEBP" (Some 90));
  mret ("webp", final_image_bytes).

(** Lines 322-343: the final format and bytes. *)
Definition final_image (image_bytes : list Byte.byte) (save_format : string)
    (output_path : option string) (fetch_base64 to_webp : bool)
    : Run (string * list Byte.byte) :=
  if to_webp && (truthy (of_opt_str output_path) || fetch_base64) then
    try_except (lift (convert_to_webp image_bytes save_format)) is_Exception
      (λ convert_err,
         print_stderr [Lit "Warning: Failed to convert image to WebP: ";
                       InterpExn convert_err; Lit ". Serving original format."];;
         mret (save_format, image_bytes))
  else
    mret (save_format, image_bytes).

(** Lines 346-364: the three output modes. The reassignment of
    [output_path] at line 350 is visible to the [except IOError] clause, so
    the clauses are installed again around the statements that follow it. *)
Definition emit (image_url : string) (output_path : option string) (fetch_base64 : bool)
    (final_format : string) (final_image_bytes : list Byte.byte) : Run string :=
  if truthy (of_opt_str output_path) then
    let output_path :=
      if String.eqb final_format "webp"
      then (os_path_splitext (default "" output_path)).1 +:+ ".webp"
      else default "" output_path in
    try_except
      (let abs_output_path := os_path_abspath output_path in
       os_makedirs (os_path_dirname abs_output_path);;
       write_file abs_output_path final_image_bytes;;
       mret (json_dumps (<[ "status" := VStr "saved" ]>
                        (<[ "path" := VStr abs_output_path ]> ∅))))
      is_Exception (on_error image_url (Some output_path))
  else if fetch_base64 then
    let base64_data := b64encode final_image_bytes in
    mret (json_dumps (<[ "status" := VStr "success" ]>
                     (<[ "format" := VStr final_format ]>
                     (<[ "data" := VStr base64_data ]> ∅))))
  else
    mret (json_dumps (<[ "status" := VStr "success" ]>
                     (<[ "url" := VStr image_url ]> ∅))).

Definition handle_image_url (image_url : string) (output_path : option string)
    (fetch_base64 to_webp : bool) : Run string :=
  try_except
    (response ← requests_download image_url;
     let save_format := detect_save_format response in
     let image_bytes := content response in
     '(final_format, final_image_bytes) ←
        final_image image_bytes save_format output_path fetch_base64 to_webp;
     emit image_url output_path fetch_base64 final_format final_image_bytes)
    is_Exception (on_error image_url output_path).

End Methods.

(** ** Observations on a world *)

Definition is_status_query (c : http_call) : bool :=
  match c with HttpGet _ _ => true | _ => false end.

Fixpoint status_queries_of (log : list http_call) : nat :=
  match log with
  | [] => 0%nat
  | c :: rest =>
      ((if is_status_query c then 1 else 0) + status_queries_of rest)%nat
  end.

(** How many status queries were sent so far. *)
Definition status_queries (w : world) : nat := status_queries_of (http_log w).

(** The submissions sent so far: URL and JSON payload, in order. *)
Fixpoint submissions_of (log : list http_call) : list (string * gmap string pyval) :=
  match log with
  | [] => []
  | HttpPost url json _ :: rest => (url, json) :: submissions_of rest
  | _ :: rest => submissions_of rest
  end.

Definition submissions (w : world) : list (string * gmap string pyval) :=
  submissions_of (http_log w).

(** An answer of the provider that carries a status which is neither
    ['Ready'] nor ['failed']. *)
Definition in_progress (answer : gmap string pyval) : Prop :=
  ∃ status, answer !! "status" = Some status ∧
            status ≠ VStr "Ready" ∧ status ≠ VStr "failed".

(** A line that reports a failure of the remote job. *)
Definition reports_job_failure (l : line) : Prop :=
  head l = Some (Lit "Task failed: ").

(** The world once [get_task_result] has printed its first line. *)
Definition announced (w : world) : world :=
  with_stderr (stderr w ++ [[Lit "Processing image..."]]) w.

(** The part of a turn of the polling loop up to the provider's answer:
    the attempt line unless silent, and the query. *)
Definition query_round (self : FluxAPI) (task_id : pyval) (silent : bool)
    (attempt : Z) (w : world) : world :=
  let w1 := if silent then w else with_stderr (stderr w ++ [attempt_line attempt]) w in
  with_status_script (λ i, status_script w1 (S i))
    (with_http_log
       (http_log w1 ++ [HttpGet (base_url self +:+ "/v1/get_result")
                                {[ "id" := task_id ]}]) w1).

(** A whole turn that meets an answer in progress: the two seconds of
    sleep follow. *)
Definition idle_round (self : FluxAPI) (task_id : pyval) (silent : bool)
    (attempt : Z) (w : world) : world :=
  let w2 := query_round self task_id silent attempt w in
  with_slept (slept w2 + 2) w2.

Fixpoint idle_rounds (self : FluxAPI) (task_id : pyval) (silent : bool)
    (n : nat) (attempt : Z) (w : world) : world :=
  match n with
  | O => w
  | S n' => idle_rounds self task_id silent n' (attempt + 1)
              (idle_round self task_id silent attempt w)
  end.

(** The attempt lines of [n] turns from [attempt] on. *)
Fixpoint attempt_lines (silent : bool) (n : nat) (attempt : Z) : list line :=
  match n with
  | O => []
  | S n' =>
      (if silent then [] else [attempt_line attempt])
      ++ attempt_lines silent n' (attempt + 1)
  end.

(** The table of the specification for text-to-image dimensions. *)
Definition aspect_table : list (string * (Z * Z)) :=
  [("1:1", (1024, 1024)); ("4:3", (1024, 768)); ("3:4", (768, 1024));
   ("16:9", (1024, 576)); ("9:16", (576, 1024))].

(** The default guidance of the specification, per control type. *)
Definition guidance_table : list (string * Z) :=
  [("canny", 30); ("depth", 15); ("pose", 25)].

(** ** The terminal and the calling convention

    [main] and [save_image_from_url] also print on [sys.stdout], and
    [main] calls the methods with keyword arguments that Python binds to
    their parameters. A [console] adds the standard output to the world,
    and [raised] adds to the exceptions the [TypeError] of a call that
    does not fit the signature. *)

Record console := Console {
  outside : world;
  stdout : list line;
}.

Inductive raised :=
| Python (e : exn)
| TypeError (message : string)
(** an argument that is not of the annotated type of its parameter: the
    embedding of the method has no counterpart for it *)
| Untyped (parameter : string).

Inductive completion (A : Type) :=
| Returned (a : A)
| Threw (r : raised).
Arguments Returned {A} a.
Arguments Threw {A} r.

#[global] Instance completion_ret : MRet completion := λ A a, Returned a.
#[global] Instance completion_bind : MBind completion := λ A B f m,
  match m with
  | Returned a => f a
  | Threw r => Threw r
  end.

Definition Proc (A : Type) : Type := console → completion A * console.

#[global] Instance Proc_ret : MRet Proc := λ A a t, (Returned a, t).
#[global] Instance Proc_bind : MBind Proc := λ A B f m t,
  match m t with
  | (Returned a, t') => f a t'
  | (Threw r, t') => (Threw r, t')
  end.

(** A computation on the world, run at the terminal. *)
Definition in_world {A : Type} (c : Run A) : Proc A := λ t,
  match c (outside t) with
  | (Ok a, w') => (Returned a, Console w' (stdout t))
  | (Raise e, w') => (Threw (Python e), Console w' (stdout t))
  end.

Definition throw {A : Type} (r : raised) : Proc A := λ t, (Threw r, t).

Definition settle {A : Type} (c : completion A) : Proc A := λ t, (c, t).

(** [print(...)] *)
Definition print (l : line) : Proc unit := λ t,
  (Returned tt, Console (outside t) (stdout t ++ [l])).

(** [sys.exit(code)] *)
Definition sys_exit {A : Type} (code : Z) : Proc A := throw (Python (SystemExit code)).

(** What [except Exception] catches. *)
Definition caught (r : raised) : bool :=
  match r with
  | Python e => is_Exception e
  | TypeError _ => true
  | Untyped _ => false
  end.

(** [{e}] in an f-string, for what was caught. *)
Definition shown (r : raised) : piece :=
  match r with
  | Python e => InterpExn e
  | TypeError message => Interp (VStr message)
  | Untyped parameter => Lit parameter
  end.

(** [try: body / except Exception as e: handler e] *)
Definition try_except_Exception {A : Type} (body : Proc A) (handler : raised → Proc A)
    : Proc A := λ t,
  match body t with
  | (Returned a, t') => (Returned a, t')
  | (Threw r, t') => if caught r then handler r t' else (Threw r, t')
  end.

(** The parameters of a method after [self]: those without a default,
    those with one, and whether [**kwargs] closes the list. *)
Record signature := Signature {
  qualname : string;
  required : list string;
  optional : list string;
  var_keyword : bool;
}.

Definition name_in (names : list string) (name : string) : bool :=
  existsb (String.eqb name) names.

(** ['a', 'b', and 'c'], for three names or more *)
Fixpoint enumerate_more (names : list string) : string :=
  match names with
  | [] => ""
  | [a] => "and '" +:+ a +:+ "'"
  | a :: rest => "'" +:+ a +:+ "', " +:+ enumerate_more rest
  end.

(** ['a'], ['a' and 'b'], ['a', 'b', and 'c'] *)
Definition enumerate_names (names : list string) : string :=
  match names with
  | [] => ""
  | [a] => "'" +:+ a +:+ "'"
  | [a; b] => "'" +:+ a +:+ "' and '" +:+ b +:+ "'"
  | _ => enumerate_more names
  end.

(** The [TypeError] of a call that passes [keywords] and no positional
    argument, if there is one: a keyword that names no parameter, unless
    [**kwargs] takes it; otherwise a parameter without default that no
    keyword names. *)
Definition bind_keywords (sig : signature) (keywords : list (string * pyval))
    : option string :=
  let known := required sig ++ optional sig in
  let unexpected := List.filter (λ name, negb (name_in known name)) (map fst keywords) in
  let missing := List.filter (λ name, negb (name_in (map fst keywords) name)) (required sig) in
  match (if var_keyword sig then [] else unexpected), missing with
  | name :: _, _ =>
      Some (qualname sig +:+ "() got an unexpected keyword argument '" +:+ name +:+ "'")
  | [], [] => None
  | [], _ :: _ =>
      Some (qualname sig +:+ "() missing " +:+ pretty (length missing)
            +:+ " required positional argument"
            +:+ (if (length missing =? 1)%nat then "" else "s") +:+ ": "
            +:+ enumerate_names missing)
  end.

(** A call with keyword arguments only: the [TypeError] if they do not fit,
    the method on the bound arguments otherwise. *)
Definition call {A : Type} (sig : signature) (keywords : list (string * pyval))
    (method : gmap string pyval → Proc A) : Proc A :=
  match bind_keywords sig keywords with
  | Some message => throw (TypeError message)
  | None => method (list_to_map keywords)
  end.

(** Reading the bound arguments at the annotated types. *)
Definition arg_str (bound : gmap string pyval) (name : string) : completion string :=
  match bound !! name with
  | Some (VStr s) => Returned s
  | _ => Threw (Untyped name)
  end.

Definition arg_str_or (bound : gmap string pyval) (name : string) (default : string)
    : completion string :=
  match bound !! name with
  | None => Returned default
  | Some (VStr s) => Returned s
  | Some _ => Threw (Untyped name)
  end.

Definition arg_opt_str (bound : gmap string pyval) (name : string)
    : completion (option string) :=
  match bound !! name with
  | None | Some VNone => Returned None
  | Some (VStr s) => Returned (Some s)
  | Some _ => Threw (Untyped name)
  end.

Definition arg_opt_int (bound : gmap string pyval) (name : string)
    : completion (option Z) :=
  match bound !! name with
  | None | Some VNone => Returned None
  | Some (VInt n) => Returned (Some n)
  | Some _ => Threw (Untyped name)
  end.

Definition arg_float_or (bound : gmap string pyval) (name : string) (default : spec_float)
    : completion spec_float :=
  match bound !! name with
  | None => Returned default
  | Some (VFloat x) => Returned x
  | Some _ => Threw (Untyped name)
  end.

(** [Optional[float]] as a Python object. *)
Definition of_opt_float (o : option spec_float) : pyval :=
  match o with Some x => VFloat x | None => VNone end.

(** The signatures of the four generation methods ([self] apart). *)
Definition generate_image_signature : signature :=
  {| qualname := "FluxAPI.generate_image";
     required := ["prompt"];
     optional := ["model"; "width"; "height"; "aspect_ratio"];
     var_keyword := false |}.

Definition inpaint_signature : signature :=
  {| qualname := "FluxAPI.inpaint";
     required := ["image_path"; "prompt"];
     optional := ["mask_shape"; "position"];
     var_keyword := false |}.

Definition control_generate_signature : signature :=
  {| qualname := "FluxAPI.control_generate";
     required := ["control_type"; "control_image"; "prompt"];
     optional := [];
     var_keyword := true |}.

Definition img2img_signature : signature :=
  {| qualname := "FluxAPI.img2img";
     required := ["image_path"; "prompt"];
     optional := ["model"; "strength"; "width"; "height"];
     var_keyword := false |}.

(** ** The command line, once parsed

    What [parser.parse_args()] returns: the options shared by the four
    commands and those of the command chosen ([required=True]: there is
    always one). *)
Inductive command :=
| Generate (prompt model : string) (aspect_ratio : option string)
    (width height : option Z)
| Img2img (image prompt name model : string) (strength : spec_float)
    (width height : option Z)
| Inpaint (image prompt mask_shape position : string)
| Control (type image prompt : string) (steps : Z) (guidance : option spec_float).

Record namespace := {
  args_command : command;
  args_output : option string;
  args_fetch_base64 : bool;
  args_to_webp : bool;
}.

(** [args.command] *)
Definition command_name (c : command) : string :=
  match c with
  | Generate _ _ _ _ _ => "generate"
  | Img2img _ _ _ _ _ _ _ => "img2img"
  | Inpaint _ _ _ _ => "inpaint"
  | Control _ _ _ _ _ => "control"
  end.

(** What [Image.resize] and a save under a file name add to [Pillow]. *)
Class PillowFiles := {
  (** [img.resize(size, Image.Resampling.LANCZOS)] *)
  Image_resize : Image → Z * Z → string + Image;
  (** [img.save(filename, quality=...)]: the bytes written, in the format
      the extension of the name calls for; or the exception and what the
      attempt leaves in the file, if it touched it *)
  Image_save_file : Image → string → option Z
                    → (string * option (list Byte.byte)) + list Byte.byte;
}.

Section Program.
Context `{Pillow} `{PyLib} `{PillowFiles}.

(** *** FluxAPI.save_image_from_url *)
Definition save_image_from_url (self : FluxAPI) (url filename : string)
    (target_width target_height : option Z) : Proc bool :=
  try_except_Exception
    (response ← in_world (requests_download url);
     in_world (write_file filename (content response));;
     (if truthy (of_opt_int target_width) && truthy (of_opt_int target_height) then
        img ← in_world (Image_open_path filename);
        img ← in_world (lift (pillow (Image_resize img
                 (default 0 target_width, default 0 target_height))));
        match Image_save_file img filename (Some 95) with
        | inr data => in_world (write_file filename data)
        | inl (what, None) => throw (Python (ImageError what))
        | inl (what, Some remains) =>
            in_world (write_file filename remains);;
            throw (Python (ImageError what))
        end
      else mret tt);;
     print [Lit "✨ Saved as "; Interp (VStr filename)];;
     mret true)
    (λ e,
       print [Lit "Failed to save image: "; shown e];;
       mret false).

(** The methods as a call reaches them: the bound arguments are read at
    the annotated types, the parameters left out take their defaults. *)
Definition enter_generate_image (self : FluxAPI) (bound : gmap string pyval)
    : Proc pyval :=
  prompt ← settle (arg_str bound "prompt");
  model ← settle (arg_str_or bound "model" "flux.1.1-pro");
  width ← settle (arg_opt_int bound "width");
  height ← settle (arg_opt_int bound "height");
  aspect_ratio ← settle (arg_opt_str bound "aspect_ratio");
  in_world (generate_image self prompt model width height aspect_ratio).

Definition enter_img2img (self : FluxAPI) (bound : gmap string pyval) : Proc pyval :=
  image_path ← settle (arg_str bound "image_path");
  prompt ← settle (arg_str bound "prompt");
  model ← settle (arg_str_or bound "model" "flux.1.1-pro");
  strength ← settle (arg_float_or bound "strength" (float_lit 75 100));
  width ← settle (arg_opt_int bound "width");
  height ← settle (arg_opt_int bound "height");
  in_world (img2img self image_path prompt model strength width height).

Definition enter_inpaint (self : FluxAPI) (bound : gmap string pyval) : Proc pyval :=
  image_path ← settle (arg_str bound "image_path");
  prompt ← settle (arg_str bound "prompt");
  mask_shape ← settle (arg_str_or bound "mask_shape" "circle");
  position ← settle (arg_str_or bound "position" "center");
  in_world (inpaint self image_path prompt mask_shape position).

Definition enter_control_generate (self : FluxAPI) (bound : gmap string pyval)
    : Proc pyval :=
  control_type ← settle (arg_str bound "control_type");
  control_image ← settle (arg_str bound "control_image");
  prompt ← settle (arg_str bound "prompt");
  let kwargs := delete "control_type" (delete "control_image" (delete "prompt" bound)) in
  in_world (control_generate self control_type control_image prompt kwargs).

(** [handle_image_url] on what a method returned. A URL that is not a
    string is refused by [requests] before anything is sent, with a
    [RequestException]. *)
Definition handle_result_url (image_url : pyval) (output_path : option string)
    (fetch_base64 to_webp : bool) : Run string :=
  match image_url with
  | VStr url => handle_image_url url output_path fetch_base64 to_webp
  | _ =>
      exit_with [Lit "Error fetching image from URL "; Interp image_url; Lit ": ";
                 InterpExn (RequestException "")]
  end.

(** *** main, from the parsed arguments on *)
Definition main (args : namespace) : Proc unit :=
  try_except_Exception
    (api ← in_world (FluxAPI_init None);
     image_url ←
       match args_command args with
       | Generate prompt model aspect_ratio width height =>
           call generate_image_signature
             [("prompt", VStr prompt); ("model", VStr model);
              ("aspect_ratio", of_opt_str aspect_ratio);
              ("width", of_opt_int width); ("height", of_opt_int height)]
             (enter_generate_image api)
       | Img2img image prompt name model strength width height =>
           call img2img_signature
             [("image_path", VStr image); ("prompt", VStr prompt); ("name", VStr name);
              ("model", VStr model); ("strength", VFloat strength);
              ("width", of_opt_int width); ("height", of_opt_int height)]
             (enter_img2img api)
       | Inpaint image prompt mask_shape position =>
           call inpaint_signature
             [("image_path", VStr image); ("prompt", VStr prompt);
              ("mask_shape", VStr mask_shape); ("position", VStr position)]
             (enter_inpaint api)
       | Control type image prompt steps guidance =>
           call control_generate_signature
             [("type", VStr type); ("image_path", VStr image); ("prompt", VStr prompt);
              ("steps", VInt steps); ("guidance", of_opt_float guidance)]
             (enter_control_generate api)
       end;
     if truthy image_url then
       result_json ← in_world (handle_result_url image_url (args_output args)
                                 (args_fetch_base64 args) (args_to_webp args));
       print [Interp (VStr result_json)]
     else
       in_world (print_stderr [Lit "Error: Command '";
                               Interp (VStr (command_name (args_command args)));
                               Lit "' did not produce an image URL."]);;
       sys_exit 1)
    (λ e,
       in_world (print_stderr [Lit "Error during API call or processing: "; shown e]);;
       sys_exit 1).

End Program.

(** A computation that raises only what [except Exception] catches: it
    never ends the process by itself. *)
Definition ordinary {A : Type} (c : Run A) : Prop :=
  ∀ w e, (c w).1 = Raise e → is_Exception e = true.

(** A step of [main] that leaves the program only the way [main] does:
    what it throws is caught by [except Exception], or is the
    [SystemExit] of a [sys.exit(1)]. *)
Definition contained {A : Type} (p : Proc A) : Prop :=
  ∀ t r, (p t).1 = Threw r → caught r = true ∨ r = Python (SystemExit 1).

(** ** A small implementation of the library interfaces

    Used to run the model on concrete inputs. Images are stored one byte
    per pixel after a two-byte header (width, height); shapes are scan
    converted on truncated coordinates. *)
Module Double.

Definition coord (v : pyval) : Z :=
  match v with
  | VInt n => n
  | VFloat f => match int_of_float f with Ok n => n | Raise _ => 0 end
  | _ => 0
  end.

Definition box_covers (xy : list pyval) (x y : Z) : bool :=
  match xy with
  | [x0; y0; x1; y1] =>
      (coord x0 <=? x) && (x <=? coord x1) && (coord y0 <=? y) && (y <=? coord y1)
  | _ => false
  end.

Definition disc_covers (xy : list pyval) (x y : Z) : bool :=
  match xy with
  | [x0; y0; x1; y1] =>
      let a := coord x1 - coord x0 in
      let b := coord y1 - coord y0 in
      let dx := 2 * x - coord x0 - coord x1 in
      let dy := 2 * y - coord y0 - coord y1 in
      dx * dx * (b * b) + dy * dy * (a * a) <=? a * a * (b * b)
  | _ => false
  end.

(** Enough for the quadrilateral of [create_mask], whose sides follow the
    axes: the bounding box of the points. *)
Definition hull_covers (points : list (pyval * pyval)) (x y : Z) : bool :=
  match points with
  | [] => false
  | p :: rest =>
      let xs := coord p.1 :: map (λ q, coord q.1) rest in
      let ys := coord p.2 :: map (λ q, coord q.2) rest in
      (foldr Z.min (coord p.1) xs <=? x) && (x <=? foldr Z.max (coord p.1) xs)
      && (foldr Z.min (coord p.2) ys <=? y) && (y <=? foldr Z.max (coord p.2) ys)
  end.

Definition byte_of_Z (n : Z) : Byte.byte :=
  default Byte.x00 (Byte.of_N (Z.to_N (n `mod` 256))).

Definition Z_of_byte (b : Byte.byte) : Z := Z.of_N (Byte.to_N b).

Definition decode (data : list Byte.byte) : string + Image :=
  match data with
  | bw :: bh :: body =>
      let width := Z_of_byte bw in
      let height := Z_of_byte bh in
      if (Z.of_nat (length body) =? width * height) then
        inr {| mode := "L"; size := (width, height);
               getpixel := λ x y,
                 [Z_of_byte (nth (Z.to_nat (y * width + x)) body Byte.x00)] |}
      else inl "image file is truncated"
  | _ => inl "cannot identify image file"
  end.

Definition encode (im : Image) (format : string) (quality : option Z)
    : string + list Byte.byte :=
  let '(width, height) := size im in
  if (width <? 256) && (height <? 256) then
    inr (byte_of_Z width :: byte_of_Z height ::
         map (λ i, byte_of_Z (hd 0 (getpixel im (Z.of_nat i `mod` width)
                                                 (Z.of_nat i `div` width))))
             (seq 0 (Z.to_nat (width * height))))
  else inl "encoder error"
  .

Definition pillow_double : Pillow := {|
  Image_open := decode;
  Image_convert := λ im mode',
    inr {| mode := mode'; size := size im; getpixel := getpixel im |};
  Image_save := encode;
  Image_save_leaves := λ _ _ before,
    match before with Some _ => Some [] | None => None end;
  Image_allocates := λ _ size', size'.1 * size'.2 <=? 2 ^ 28;
  rectangle_covers := box_covers;
  ellipse_covers := disc_covers;
  polygon_covers := hull_covers;
|}.

Definition hex_digit (n : N) : ascii :=
  ascii_of_N (if (n <? 10)%N then 48 + n else 87 + n).

Fixpoint hex (data : list Byte.byte) : string :=
  match data with
  | [] => ""
  | b :: rest =>
      String (hex_digit (Byte.to_N b / 16)) (String (hex_digit (Byte.to_N b mod 16)) (hex rest))
  end.

Definition show (v : pyval) : string :=
  match v with
  | VStr s => s
  | _ => "?"
  end.

Definition dumps (d : gmap string pyval) : string :=
  foldr (λ kv acc, kv.1 +:+ "=" +:+ show kv.2 +:+ ";" +:+ acc) "" (map_to_list d).

(** [os.path.splitext]: the extension starts at the last dot of the last
    component, the dots that open the component apart. [rev] is the path
    read backwards, [ext] the characters passed. *)
Fixpoint cut_ext (rev ext : list ascii) : option (list ascii * list ascii) :=
  match rev with
  | [] => None
  | c :: rest =>
      if Ascii.eqb c "/" then None
      else if Ascii.eqb c "." then Some (rest, c :: ext)
      else cut_ext rest (c :: ext)
  end.

Fixpoint only_dots (rev : list ascii) : bool :=
  match rev with
  | [] => true
  | c :: rest => if Ascii.eqb c "/" then true else Ascii.eqb c "." && only_dots rest
  end.

Definition splitext (p : string) : string * string :=
  match cut_ext (List.rev (list_ascii_of_string p)) [] with
  | Some (root, ext) =>
      if only_dots root then (p, "")
      else (string_of_list_ascii (List.rev root), string_of_list_ascii ext)
  | None => (p, "")
  end.

(** [os.path.abspath] in the working directory [/], for a path without
    ['.'] or ['..'] components. *)
Definition abspath (p : string) : string :=
  match p with
  | String "/" _ => p
  | _ => "/" +:+ p
  end.

(** [os.path.dirname]: what comes before the last ['/']. *)
Fixpoint before_slash (rev : list ascii) : option (list ascii) :=
  match rev with
  | [] => None
  | c :: rest => if Ascii.eqb c "/" then Some rest else before_slash rest
  end.

Definition dirname (p : string) : string :=
  match before_slash (List.rev (list_ascii_of_string p)) with
  | Some [] => "/"
  | Some dir => string_of_list_ascii (List.rev dir)
  | None => ""
  end.

(** [x ** 0.5] as the correctly rounded square root. *)
Definition pylib_double : PyLib := {|
  b64encode := hex;
  json_dumps := dumps;
  os_path_splitext := splitext;
  os_path_abspath := abspath;
  os_path_dirname := dirname;
  libm_pow := λ x _, SFsqrt 53 1024 x;
|}.

Definition api : FluxAPI :=
  {| api_key := "k"; base_url := "https://api.bfl.ml"; headers := {[ "X-Key" := "k" ]} |}.

(** A world whose provider answers the status queries with [script],
    accepts every submission under the identifier ["job-1"], serves no
    download and lets every file be written. *)
Definition quiet_world (script : nat → gmap string pyval) : world :=
  {| post_reply := λ _ _, {[ "id" := VStr "job-1" ]};
     status_script := script;
     downloads := λ _, None;
     environ := ∅;
     writable := λ _, true;
     files := ∅;
     http_log := [];
     stderr := [];
     slept := 0 |}.

(** The same world, where [url] can be downloaded and gives [response]. *)
Definition serving (url : string) (response : http_response) : world :=
  {| post_reply := λ _ _, ∅;
     status_script := λ _, ∅;
     downloads := λ u, if String.eqb u url then Some response else None;
     environ := ∅;
     writable := λ _, true;
     files := ∅;
     http_log := [];
     stderr := [];
     slept := 0 |}.

Definition answer (status : string) : gmap string pyval :=
  {[ "status" := VStr status ]}.

Definition ready_answer : gmap string pyval :=
  <[ "status" := VStr "Ready" ]>
  (<[ "result" := VDict {[ "sample" := VStr "https://cdn/img.jpg" ]} ]> ∅).

Definition failed_answer : gmap string pyval :=
  <[ "status" := VStr "failed" ]> (<[ "error" := VStr "content moderated" ]> ∅).

(** [Processing] for the first [n] queries, then [last]. *)
Definition after (n : nat) (last : gmap string pyval) : nat → gmap string pyval :=
  λ i, if (i <? n)%nat then answer "Processing" else last.


Definition files_double : PillowFiles := {|
  Image_resize := λ im size',
    inr {| mode := mode im; size := size'; getpixel := getpixel im |};
  Image_save_file := λ im filename quality,
    match encode im "" quality with
    | inl what => inl (what, None)
    | inr data => inr data
    end;
|}.

(** The same world, with the API key ["k"] in the environment. *)
Definition with_key (w : world) : world :=
  World (post_reply w) (status_script w) (downloads w) {[ "BFL_API_KEY" := "k" ]}
        (writable w) (files w) (http_log w) (stderr w) (slept w).

(** The same world, with [data] in the file [path]. *)
Definition with_file (path : string) (data : list Byte.byte) (w : world) : world :=
  with_files (<[ path := data ]> (files w)) w.

(** A terminal that has printed nothing yet. *)
Definition terminal (w : world) : console := Console w [].

(** A 2 by 2 image of the double's format. *)
Definition small_image : list Byte.byte :=
  [Byte.x02; Byte.x02; Byte.x00; Byte.x40; Byte.x80; Byte.xff].

(** A blank image 19 pixels wide and 45 high, in the same format. *)
Definition tall_image : list Byte.byte :=
  Byte.x13 :: Byte.x2d :: replicate 855 Byte.x00.

(** A world whose provider answers every submission with an error and no
    job identifier. *)
Definition rejecting_world : world :=
  {| post_reply := λ _ _, {[ "error" := VStr "quota exceeded" ]};
     status_script := λ _, ∅;
     downloads := λ _, None;
     environ := ∅;
     writable := λ _, true;
     files := ∅;
     http_log := [];
     stderr := [];
     slept := 0 |}.

(** A provider at work: the key is set, every submission is accepted as
    ["job-1"], the image is ready at the query after the first [n], and
    its URL serves a PNG. *)
Definition studio (n : nat) : world :=
  {| post_reply := λ _ _, {[ "id" := VStr "job-1" ]};
     status_script := after n ready_answer;
     downloads := λ u,
       if String.eqb u "https://cdn/img.jpg"
       then Some (HttpResponse (Some "image/png") small_image) else None;
     environ := {[ "BFL_API_KEY" := "k" ]};
     writable := λ _, true;
     files := ∅;
     http_log := [];
     stderr := [];
     slept := 0 |}.

End Double.

(** Unfolding one statement of a computation. *)
Ltac run_step :=
  unfold mbind, mret, Run_bind, Run_ret, print_stderr, requests_get, getitem,
    time_sleep, raise; simpl.

(** * Proofs *)

(** ** Basic facts *)

Lemma py_eq_str_true v s : py_eq_str v s = true ↔ v = VStr s.
Proof.
  destruct v; simpl; try (split; [discriminate | congruence]).
  rewrite String.eqb_eq. split; congruence.
Qed.

Lemma py_eq_str_false v s : py_eq_str v s = false ↔ v ≠ VStr s.
Proof.
  rewrite <- py_eq_str_true. destruct (py_eq_str v s); split; congruence.
Qed.

Lemma status_queries_of_app l1 l2 :
  status_queries_of (l1 ++ l2) = (status_queries_of l1 + status_queries_of l2)%nat.
Proof. induction l1 as [|c l1 IH]; simpl; [reflexivity | rewrite IH; lia]. Qed.

Lemma submissions_of_app l1 l2 :
  submissions_of (l1 ++ l2) = submissions_of l1 ++ submissions_of l2.
Proof.
  induction l1 as [|c l1 IH]; simpl; [reflexivity |].
  destruct c; simpl; rewrite IH; reflexivity.
Qed.

(** ** Binary64 arithmetic

    What [SpecFloat]'s operations compute, for the numbers met here:
    positive, normal, far from overflow. A product or a quotient is the
    exact one to within a part in [2 ^ 53]; an integer below [2 ^ 53] is
    converted exactly; [int(x)] is the floor. *)

Lemma digits2_pos_bounds p :
  2 ^ (Z.pos (digits2_pos p) - 1) ≤ Z.pos p < 2 ^ Z.pos (digits2_pos p).
Proof.
  induction p as [p IH | p IH |]; cbn [digits2_pos].
  - rewrite Pos2Z.inj_succ.
    replace (Z.succ (Z.pos (digits2_pos p)) - 1) with (Z.succ (Z.pos (digits2_pos p) - 1))
      by lia.
    rewrite !Z.pow_succ_r by lia. lia.
  - rewrite Pos2Z.inj_succ.
    replace (Z.succ (Z.pos (digits2_pos p)) - 1) with (Z.succ (Z.pos (digits2_pos p) - 1))
      by lia.
    rewrite !Z.pow_succ_r by lia. lia.
  - cbn. lia.
Qed.

Lemma Zdigits2_unique m d :
  2 ^ (d - 1) ≤ m < 2 ^ d → 0 < d → Zdigits2 m = d.
Proof.
  intros [Hlo Hhi] Hd.
  assert (0 < m) by (pose proof (Z.pow_pos_nonneg 2 (d - 1)); lia).
  destruct m as [| p | p]; try lia. cbn [Zdigits2].
  pose proof (digits2_pos_bounds p) as [Hlo' Hhi'].
  set (d' := Z.pos (digits2_pos p)) in *.
  destruct (Z.lt_trichotomy d' d) as [Hlt | [Heq | Hgt]]; [| exact Heq |].
  - assert (2 ^ d' ≤ 2 ^ (d - 1)) by (apply Z.pow_le_mono_r; lia). lia.
  - assert (2 ^ d ≤ 2 ^ (d' - 1)) by (apply Z.pow_le_mono_r; lia). lia.
Qed.

Lemma Zdigits2_bounds m :
  0 < m → 2 ^ (Zdigits2 m - 1) ≤ m < 2 ^ Zdigits2 m.
Proof. destruct m as [| p | p]; try lia. intros _. apply digits2_pos_bounds. Qed.

Lemma Zdigits2_pos m : 0 < m → 0 < Zdigits2 m.
Proof. destruct m; cbn; lia. Qed.

Lemma loc_of_shr_record_of_loc m l :
  loc_of_shr_record (shr_record_of_loc m l) = l.
Proof. destruct l as [| []]; reflexivity. Qed.

Lemma shr_m_of_loc m l : shr_m (shr_record_of_loc m l) = m.
Proof. destruct l as [| []]; reflexivity. Qed.

Lemma describes_of_loc N D :
  describes N D (shr_record_of_loc (N / D) (loc_of (N mod D) D)).
Proof. split; [apply shr_m_of_loc | apply loc_of_shr_record_of_loc]. Qed.

(** One more bit dropped: the quotient by twice the divisor. *)
Lemma shr_1_describes N D mrs :
  0 ≤ N → 0 < D → describes N D mrs → describes N (2 * D) (shr_1 mrs).
Proof.
  intros HN HD [Hm Hl].
  assert (Hq : N / (2 * D) = (N / D) / 2)
    by (rewrite (Z.mul_comm 2 D), Z.div_div by lia; reflexivity).
  assert (Hr : N mod (2 * D) = N mod D + D * ((N / D) mod 2))
    by (rewrite (Z.mul_comm 2 D); apply Z.rem_mul_r; lia).
  pose proof (Z.mod_pos_bound N D HD) as HR.
  assert (0 ≤ N / D) by (apply Z.div_pos; lia).
  destruct mrs as [m r s]. cbn [shr_m] in Hm. subst m.
  unfold describes. rewrite Hq, Hr.
  set (R := N mod D) in *. set (q := N / D) in *.
  assert (Hloc : (r = false ∧ s = false ∧ R = 0)
                 ∨ (r = false ∧ s = true ∧ 0 < R ∧ 2 * R < D)
                 ∨ (r = true ∧ s = false ∧ 0 < R ∧ 2 * R = D)
                 ∨ (r = true ∧ s = true ∧ 0 < R ∧ D < 2 * R)).
  { revert Hl. unfold loc_of. destruct (Z.eqb_spec R 0) as [-> | HR0].
    - destruct r, s; cbn; try discriminate. intros _. left. auto.
    - destruct (Z.compare_spec (2 * R) D); destruct r, s; cbn; try discriminate;
        intros _; [right; right; left | right; left | right; right; right];
        repeat split; lia. }
  assert (Hparity : q mod 2 = 0 ∨ q mod 2 = 1) by (pose proof (Z.mod_pos_bound q 2); lia).
  assert (Hhalf : q = 2 * (q / 2) + q mod 2) by (apply Z.div_mod; lia).
  unfold loc_of.
  destruct q as [| [p | p |] | p]; try lia; cbn [shr_1 shr_m loc_of_shr_record];
    (split; [cbn in Hhalf |- *; lia |]).
  all: destruct Hloc as [(-> & -> & HR0) | [(-> & -> & HR0) | [(-> & -> & HR0) | (-> & -> & HR0)]]].
  all: cbn [orb].
  all: try (change (0 mod 2) with 0; rewrite Z.mul_0_r, Z.add_0_r).
  all: try (change (1 mod 2) with 1; rewrite Z.mul_1_r).
  all: try (replace (Z.pos p~1 mod 2) with 1 by (rewrite Pos2Z.inj_xI, Z.add_comm, Z.mul_comm, Z.mod_add by lia; reflexivity); rewrite Z.mul_1_r).
  all: try (replace (Z.pos p~0 mod 2) with 0 by (rewrite Pos2Z.inj_xO, Z.mul_comm, Z.mod_mul by lia; reflexivity); rewrite Z.mul_0_r, Z.add_0_r).
  all: repeat match goal with
         | |- context [?a =? 0] => destruct (Z.eqb_spec a 0); try lia
         | |- context [?a ?= ?b] => destruct (Z.compare_spec a b); try lia
         end; try reflexivity.
Qed.

Lemma iter_pos_shr_1_describes N n :
  0 ≤ N → ∀ D mrs, 0 < D → describes N D mrs →
  describes N (2 ^ Z.pos n * D) (SpecFloat.iter_pos shr_1 n mrs).
Proof.
  intros HN. induction n as [n IH | n IH |]; intros D mrs HD Hd;
    cbn [SpecFloat.iter_pos].
  - replace (2 ^ Z.pos n~1 * D) with (2 ^ Z.pos n * (2 ^ Z.pos n * (2 * D))).
    + apply IH; [pose proof (Z.pow_pos_nonneg 2 (Z.pos n)); lia |].
      apply IH; [lia |]. apply shr_1_describes; assumption.
    + replace (Z.pos n~1) with (Z.pos n + Z.pos n + 1) by lia.
      rewrite !Z.pow_add_r, Z.pow_1_r by lia. ring.
  - replace (2 ^ Z.pos n~0 * D) with (2 ^ Z.pos n * (2 ^ Z.pos n * D)).
    + apply IH; [pose proof (Z.pow_pos_nonneg 2 (Z.pos n)); lia |].
      apply IH; assumption.
    + replace (Z.pos n~0) with (Z.pos n + Z.pos n) by lia.
      rewrite !Z.pow_add_r by lia. ring.
  - change (2 ^ 1) with 2. apply shr_1_describes; assumption.
Qed.

(** [shr]: [n] bits dropped, when [n] is positive. *)
Lemma shr_describes N D mrs e n :
  0 ≤ N → 0 < D → describes N D mrs →
  describes N (2 ^ Z.max n 0 * D) (shr mrs e n).1 ∧ (shr mrs e n).2 = e + Z.max n 0.
Proof.
  intros HN HD Hd. destruct n as [| n | n]; cbn [shr fst snd].
  - change (Z.max 0 0) with 0. rewrite Z.pow_0_r, Z.mul_1_l, Z.add_0_r. auto.
  - rewrite Z.max_l by lia. split; [apply iter_pos_shr_1_describes; assumption | reflexivity].
  - rewrite Z.max_r by lia. rewrite Z.pow_0_r, Z.mul_1_l, Z.add_0_r. auto.
Qed.

(** Rounding to nearest, ties to even, of a quotient. *)
Lemma round_nearest_even_describes N D mrs :
  0 < D → describes N D mrs →
  let m := round_nearest_even (shr_m mrs) (loc_of_shr_record mrs) in
  N / D ≤ m ≤ N / D + 1 ∧ 2 * Z.abs (m * D - N) ≤ D.
Proof.
  intros HD [Hm Hl] m. subst m. rewrite Hm, Hl.
  pose proof (Z.mod_pos_bound N D HD) as HR.
  pose proof (Z.div_mod N D ltac:(lia)) as Hdiv.
  unfold loc_of, round_nearest_even.
  destruct (Z.eqb_spec (N mod D) 0) as [HR0 | HR0]; [nia |].
  destruct (Z.compare_spec (2 * (N mod D)) D); [destruct (Z.even (N / D)) | |]; nia.
Qed.

Lemma fexp_normal k : -1074 ≤ k - 53 → fexp 53 1024 k = k - 53.
Proof. intros Hk. unfold fexp, emin. lia. Qed.

(** The rounding of a quotient [N / D] of at least 53 digits, scaled by
    [2 ^ e], when the result is a normal number: the mantissa has 53
    digits and the error is at most [2 ^ -53] of the value. *)
Lemma binary_round_aux_normal sx N D e :
  0 < D → 0 < N / D →
  let d := Zdigits2 (N / D) in
  53 ≤ d →
  -1074 ≤ e + d - 53 ≤ 970 →
  ∃ mz ez,
    binary_round_aux 53 1024 sx (N / D) e (loc_of (N mod D) D) = S754_finite sx mz ez ∧
    2 ^ 52 ≤ Z.pos mz < 2 ^ 53 ∧
    e + d - 53 ≤ ez ≤ e + d - 52 ∧
    2 ^ 53 * Z.abs (Z.pos mz * 2 ^ (ez - e) * D - N) ≤ N.
Proof.
  intros HD Hm d Hd He.
  assert (HN : 0 ≤ N).
  { destruct (Z.lt_ge_cases N 0) as [Hneg |]; [| assumption].
    pose proof (Z.div_lt_upper_bound N D 0 HD ltac:(lia)). lia. }
  pose proof (Zdigits2_bounds (N / D) Hm) as Hbounds. fold d in Hbounds.
  unfold binary_round_aux, shr_fexp. fold d.
  rewrite fexp_normal by lia.
  replace (d + e - 53 - e) with (d - 53) by lia.
  destruct (shr_describes N D (shr_record_of_loc (N / D) (loc_of (N mod D) D)) e (d - 53)
              HN HD (describes_of_loc N D)) as [Hdesc He1].
  rewrite Z.max_l in Hdesc, He1 by lia.
  destruct (shr (shr_record_of_loc (N / D) (loc_of (N mod D) D)) e (d - 53))
    as [mrs1 e1]. cbn [fst snd] in Hdesc, He1. subst e1.
  set (D1 := 2 ^ (d - 53) * D) in *.
  assert (Hpow : 0 < 2 ^ (d - 53)) by (apply Z.pow_pos_nonneg; lia).
  assert (HD1 : 0 < D1) by (subst D1; lia).
  destruct (round_nearest_even_describes N D1 mrs1 HD1 Hdesc) as [Hm1 Herr].
  set (m1 := round_nearest_even (shr_m mrs1) (loc_of_shr_record mrs1)) in *.
  assert (Hq : N / D1 = N / D / 2 ^ (d - 53))
    by (subst D1; rewrite (Z.mul_comm _ D), Z.div_div by lia; reflexivity).
  assert (Hsplit : 2 ^ d = 2 ^ 53 * 2 ^ (d - 53))
    by (rewrite <- Z.pow_add_r by lia; f_equal; lia).
  assert (Hsplit' : 2 ^ (d - 1) = 2 ^ 52 * 2 ^ (d - 53))
    by (rewrite <- Z.pow_add_r by lia; f_equal; lia).
  assert (Hq1 : 2 ^ 52 ≤ N / D1 < 2 ^ 53).
  { rewrite Hq. split.
    - apply Z.div_le_lower_bound; lia.
    - apply Z.div_lt_upper_bound; lia. }
  assert (HND1 : 2 ^ 52 * D1 ≤ N).
  { pose proof (Z.mul_div_le N D1 HD1). nia. }
  destruct (Z.eq_dec m1 (2 ^ 53)) as [Hcarry | Hcarry].
  - rewrite Hcarry. change (Zdigits2 (2 ^ 53)) with 54.
    rewrite fexp_normal by lia.
    replace (54 + (e + (d - 53)) - 53 - (e + (d - 53))) with 1 by lia.
    change (2 ^ 53) with 9007199254740992.
    cbn [shr SpecFloat.iter_pos shr_record_of_loc shr_1 shr_m].
    destruct (Z.leb_spec (e + (d - 53) + 1) (1024 - 53)); [| lia].
    eexists _, _. split; [reflexivity |].
    split; [cbn; lia |]. split; [lia |].
    replace (e + (d - 53) + 1 - e) with (d - 53 + 1) by lia.
    rewrite Z.pow_add_r, Z.pow_1_r by lia.
    replace (4503599627370496 * (2 ^ (d - 53) * 2) * D - N) with (m1 * D1 - N)
      by (rewrite Hcarry; subst D1; change (2 ^ 53) with 9007199254740992; ring).
    change (2 ^ 52) with 4503599627370496 in HND1. lia.
  - assert (Hm1' : 2 ^ 52 ≤ m1 < 2 ^ 53) by lia.
    rewrite (Zdigits2_unique m1 53) by (change (53 - 1) with 52; lia).
    rewrite fexp_normal by lia.
    replace (53 + (e + (d - 53)) - 53 - (e + (d - 53))) with 0 by lia.
    cbn [shr shr_record_of_loc shr_m].
    destruct m1 as [| mz |]; [cbn in Hm1'; lia | | cbn in Hm1'; lia].
    destruct (Z.leb_spec (e + (d - 53)) (1024 - 53)); [| lia].
    eexists _, _. split; [reflexivity |].
    split; [exact Hm1' |]. split; [lia |].
    replace (e + (d - 53) - e) with (d - 53) by lia.
    replace (Z.pos mz * 2 ^ (d - 53) * D - N) with (Z.pos mz * D1 - N)
      by (subst D1; ring).
    lia.
Qed.

Lemma Qpower_2_pos e : (0 < 2 ^ e)%Q.
Proof. apply Qpower_0_lt. reflexivity. Qed.

Lemma inject_Z_pow2 k : 0 ≤ k → (inject_Z (2 ^ k) == 2 ^ k)%Q.
Proof. intros Hk. apply Zpower_Qpower. exact Hk. Qed.

(** From the integers to the values. *)
Lemma close_scaled (a b k e : Z) :
  0 ≤ k → 0 ≤ b →
  2 ^ 53 * Z.abs (a * 2 ^ k - b) ≤ b →
  close (inject_Z a * 2 ^ (e + k)) (inject_Z b * 2 ^ e).
Proof.
  intros Hk Hb Herr.
  assert (Hup : (inject_Z (2 ^ 53 * (a * 2 ^ k)) <= inject_Z (b + 2 ^ 53 * b))%Q)
    by (rewrite <- Zle_Qle; lia).
  assert (Hdown : (inject_Z (2 ^ 53 * b) <= inject_Z (b + 2 ^ 53 * (a * 2 ^ k)))%Q)
    by (rewrite <- Zle_Qle; lia).
  rewrite !inject_Z_plus, !inject_Z_mult in Hup, Hdown.
  rewrite (inject_Z_pow2 k Hk) in Hup, Hdown.
  change (inject_Z (2 ^ 53)) with (9007199254740992 # 1)%Q in Hup, Hdown.
  pose proof (Qpower_2_pos e) as He. pose proof (Qpower_2_pos k) as Hk'.
  unfold close. rewrite Qpower_plus by discriminate.
  set (A := inject_Z a) in *. set (B := inject_Z b) in *.
  set (t := (2 ^ e)%Q) in *. set (u := (2 ^ k)%Q) in *.
  split; nra.
Qed.

Lemma Pos_iter_xO p k : Z.pos (Pos.iter xO p k) = Z.pos p * 2 ^ Z.pos k.
Proof.
  induction k as [| k IH] using Pos.peano_ind.
  - cbn. lia.
  - rewrite Pos.iter_succ, Pos2Z.inj_xO, IH, Pos2Z.inj_succ, Z.pow_succ_r by lia. ring.
Qed.

(** An integer below [2 ^ 53] is converted exactly. *)
Lemma float_of_int_exact n :
  0 < n < 2 ^ 53 →
  ∃ m e, float_of_int n = S754_finite false m e ∧
         2 ^ 52 ≤ Z.pos m < 2 ^ 53 ∧ -52 ≤ e ≤ 0 ∧ Z.pos m = n * 2 ^ (- e).
Proof.
  intros [Hpos Hlt]. destruct n as [| p |]; try lia.
  unfold float_of_int, binary_normalize, binary_round.
  pose proof (digits2_pos_bounds p) as Hd.
  set (d := Z.pos (digits2_pos p)) in *.
  assert (Hd53 : d ≤ 53).
  { destruct (Z.le_gt_cases d 53) as [| Hgt]; [assumption |].
    assert (2 ^ 53 ≤ 2 ^ (d - 1)) by (apply Z.pow_le_mono_r; lia). lia. }
  assert (Hd1 : 1 ≤ d) by (subst d; lia).
  rewrite fexp_normal by lia.
  assert (Halign : ∃ mz, shl_align p 0 (d + 0 - 53) = (mz, d - 53)
                         ∧ Z.pos mz = Z.pos p * 2 ^ (53 - d)).
  { unfold shl_align. destruct (d + 0 - 53 - 0) as [| k | k] eqn:Hk; try lia.
    - exists p. replace (53 - d) with 0 by lia.
      split; [f_equal; lia | lia].
    - exists (Pos.iter xO p k). split; [f_equal; lia |].
      rewrite Pos_iter_xO. f_equal. f_equal. lia. }
  destruct Halign as (mz & -> & Hmz).
  assert (Hsplit : 2 ^ 53 = 2 ^ d * 2 ^ (53 - d))
    by (rewrite <- Z.pow_add_r by lia; f_equal; lia).
  assert (Hsplit' : 2 ^ 52 = 2 ^ (d - 1) * 2 ^ (53 - d))
    by (rewrite <- Z.pow_add_r by lia; f_equal; lia).
  assert (Hpow : 0 < 2 ^ (53 - d)) by (apply Z.pow_pos_nonneg; lia).
  assert (Hrange : 2 ^ 52 ≤ Z.pos mz < 2 ^ 53) by nia.
  destruct (binary_round_aux_normal false (Z.pos mz) 1 (d - 53)) as (m' & e' & Hr & Hm' & He' & Herr).
  - lia.
  - rewrite Z.div_1_r. lia.
  - rewrite Z.div_1_r, (Zdigits2_unique (Z.pos mz) 53) by (change (53 - 1) with 52; lia).
    lia.
  - rewrite Z.div_1_r, (Zdigits2_unique (Z.pos mz) 53) by (change (53 - 1) with 52; lia).
    lia.
  - rewrite Z.div_1_r, Z.mod_1_r in Hr. change (loc_of 0 1) with loc_Exact in Hr.
    rewrite Z.div_1_r, (Zdigits2_unique (Z.pos mz) 53) in He'
      by (change (53 - 1) with 52; lia).
    rewrite Hr. rewrite Z.mul_1_r in Herr.
    assert (He'' : e' = d - 53 ∨ e' = d - 53 + 1) by lia.
    destruct He'' as [-> | ->].
    + replace (d - 53 - (d - 53)) with 0 in Herr by lia.
      rewrite Z.pow_0_r, Z.mul_1_r in Herr.
      assert (Z.pos m' = Z.pos mz) by lia.
      exists m', (d - 53). split; [reflexivity |]. split; [lia |]. split; [lia |].
      replace (- (d - 53)) with (53 - d) by lia. lia.
    + replace (d - 53 + 1 - (d - 53)) with 1 in Herr by lia.
      rewrite Z.pow_1_r in Herr. lia.
Qed.

Lemma F2Q_float_of_int n :
  0 < n < 2 ^ 53 → normal (-52) 0 (float_of_int n) ∧ (F2Q (float_of_int n) == inject_Z n)%Q.
Proof.
  intros Hn. destruct (float_of_int_exact n Hn) as (m & e & -> & Hm & He & Hval).
  split; [exists m, e; auto |].
  cbn [F2Q]. rewrite Hval, inject_Z_mult, inject_Z_pow2 by lia.
  rewrite <- Qmult_assoc, <- Qpower_plus by discriminate.
  replace (- e + e) with 0 by lia. rewrite Qpower_0_r. ring.
Qed.

(** The product of two normal numbers is rounded to nearest. *)
Lemma SFmul_close lo hi lo' hi' x y :
  normal lo hi x → normal lo' hi' y →
  -1000 ≤ lo + lo' → hi + hi' ≤ 800 →
  normal (lo + lo' + 52) (hi + hi' + 54) (SFmul 53 1024 x y)
  ∧ close (F2Q (SFmul 53 1024 x y)) (F2Q x * F2Q y).
Proof.
  intros (mx & ex & -> & Hmx & Hex) (my & ey & -> & Hmy & Hey) Hlo Hhi.
  cbn [SFmul xorb].
  assert (Hprod : 2 ^ 104 ≤ Z.pos (mx * my) < 2 ^ 106).
  { rewrite Pos2Z.inj_mul. change (2 ^ 104) with (2 ^ 52 * 2 ^ 52).
    change (2 ^ 106) with (2 ^ 53 * 2 ^ 53). nia. }
  assert (Hd : Zdigits2 (Z.pos (mx * my)) = 105 ∨ Zdigits2 (Z.pos (mx * my)) = 106).
  { destruct (Z.lt_ge_cases (Z.pos (mx * my)) (2 ^ 105)).
    - left. apply Zdigits2_unique; [change (105 - 1) with 104 |]; lia.
    - right. apply Zdigits2_unique; [change (106 - 1) with 105 |]; lia. }
  destruct (binary_round_aux_normal false (Z.pos (mx * my)) 1 (ex + ey))
    as (mz & ez & Hr & Hmz & Hez & Herr).
  - lia.
  - rewrite Z.div_1_r. lia.
  - rewrite Z.div_1_r. lia.
  - rewrite Z.div_1_r. lia.
  - rewrite Z.div_1_r, Z.mod_1_r in Hr. change (loc_of 0 1) with loc_Exact in Hr.
    rewrite Z.div_1_r in Hez. rewrite Hr. split.
    + exists mz, ez. split; [reflexivity |]. split; [exact Hmz | lia].
    + cbn [F2Q]. rewrite Z.mul_1_r in Herr.
      assert (Hclose := close_scaled (Z.pos mz) (Z.pos (mx * my)) (ez - (ex + ey)) (ex + ey)
                          ltac:(lia) ltac:(lia) Herr).
      replace (ex + ey + (ez - (ex + ey))) with ez in Hclose by lia.
      unfold close in *. rewrite Pos2Z.inj_mul, inject_Z_mult in Hclose.
      rewrite Qpower_plus in Hclose by discriminate.
      destruct Hclose as [Hl Hu].
      set (A := inject_Z (Z.pos mx)) in *. set (B := inject_Z (Z.pos my)) in *.
      set (C := inject_Z (Z.pos mz)) in *.
      set (t := (2 ^ ex)%Q) in *. set (u := (2 ^ ey)%Q) in *. set (v := (2 ^ ez)%Q) in *.
      split; lra.
Qed.

Lemma new_location_loc_of D R :
  0 < D → 0 ≤ R < D → new_location D R = loc_of R D.
Proof.
  intros HD HR. unfold new_location, new_location_even, new_location_odd, loc_of.
  destruct (Z.even D) eqn:Heven; [reflexivity |].
  destruct (Z.eqb_spec R 0); [reflexivity |].
  assert (Hodd : Z.odd D = true) by (rewrite <- Z.negb_even, Heven; reflexivity).
  apply Z.odd_spec in Hodd as [c Hc].
  destruct (Z.compare_spec (2 * R + 1) D), (Z.compare_spec (2 * R) D);
    try reflexivity; lia.
Qed.

(** The quotient of two normal numbers is rounded to nearest. *)
Lemma SFdiv_close lo hi lo' hi' x y :
  normal lo hi x → normal lo' hi' y →
  -1000 ≤ lo - hi' → hi - lo' ≤ 800 →
  normal (lo - hi' - 53) (hi - lo' - 51) (SFdiv 53 1024 x y)
  ∧ close (F2Q (SFdiv 53 1024 x y) * F2Q y) (F2Q x).
Proof.
  intros (mx & ex & -> & Hmx & Hex) (my & ey & -> & Hmy & Hey) Hlo Hhi.
  cbn [SFdiv xorb]. unfold SFdiv_core_binary.
  rewrite (Zdigits2_unique (Z.pos mx) 53), (Zdigits2_unique (Z.pos my) 53)
    by (change (53 - 1) with 52; lia).
  rewrite fexp_normal by lia.
  replace (Z.min (53 + ex - (53 + ey) - 53) (ex - ey)) with (ex - ey - 53) by lia.
  replace (ex - ey - (ex - ey - 53)) with 53 by lia.
  rewrite Z.shiftl_mul_pow2 by lia.
  set (N := Z.pos mx * 2 ^ 53). set (D := Z.pos my).
  assert (HD : 0 < D) by (subst D; lia).
  pose proof (Z.mod_pos_bound N D HD) as HR.
  pose proof (Z.div_mod N D ltac:(lia)) as Hdiv.
  assert (Heucl : Z.div_eucl N D = (N / D, N mod D))
    by (unfold Z.div, Z.modulo; destruct (Z.div_eucl N D); reflexivity).
  rewrite Heucl, new_location_loc_of by assumption.
  assert (Hq : 2 ^ 52 ≤ N / D < 2 ^ 54).
  { split.
    - apply Z.div_le_lower_bound; [lia |]. subst N D. nia.
    - apply Z.div_lt_upper_bound; [lia |]. subst N D. nia. }
  assert (Hd : Zdigits2 (N / D) = 53 ∨ Zdigits2 (N / D) = 54).
  { destruct (Z.lt_ge_cases (N / D) (2 ^ 53)).
    - left. apply Zdigits2_unique; [change (53 - 1) with 52 |]; lia.
    - right. apply Zdigits2_unique; [change (54 - 1) with 53 |]; lia. }
  destruct (binary_round_aux_normal false N D (ex - ey - 53))
    as (mz & ez & Hr & Hmz & Hez & Herr); try lia.
  rewrite Hr. split.
  - exists mz, ez. split; [reflexivity |]. split; [exact Hmz | lia].
  - cbn [F2Q].
    assert (Herr' : 2 ^ 53 * Z.abs (Z.pos mz * D * 2 ^ (ez - (ex - ey - 53)) - N) ≤ N)
      by (replace (Z.pos mz * D * 2 ^ (ez - (ex - ey - 53)))
            with (Z.pos mz * 2 ^ (ez - (ex - ey - 53)) * D) by ring; exact Herr).
    assert (Hclose := close_scaled (Z.pos mz * D) N (ez - (ex - ey - 53)) (ex - 53)
                        ltac:(lia) ltac:(subst N; lia) Herr').
    unfold close in *. subst N D.
    rewrite !inject_Z_mult in Hclose.
    change (inject_Z (2 ^ 53)) with (2 ^ 53)%Q in Hclose.
    replace (ex - 53 + (ez - (ex - ey - 53))) with (ez + ey) in Hclose by lia.
    rewrite Qpower_plus in Hclose by discriminate.
    assert (Hex53 : (2 ^ 53 * 2 ^ (ex - 53) == 2 ^ ex)%Q).
    { rewrite <- Qpower_plus by discriminate. replace (53 + (ex - 53)) with ex by lia.
      reflexivity. }
    destruct Hclose as [Hl Hu].
    set (A := inject_Z (Z.pos mx)) in *. set (B := inject_Z (Z.pos my)) in *.
    set (C := inject_Z (Z.pos mz)) in *.
    set (t := (2 ^ ex)%Q) in *. set (u := (2 ^ ey)%Q) in *. set (v := (2 ^ ez)%Q) in *.
    set (s := (2 ^ (ex - 53))%Q) in *. set (c := (2 ^ 53)%Q) in *.
    split; nra.
Qed.

(** [int(x)] is the floor of a positive number. *)
Lemma int_of_float_floor m e :
  ∃ n, int_of_float (S754_finite false m e) = Ok n ∧ 0 ≤ n ∧
       (inject_Z n <= F2Q (S754_finite false m e)
        ∧ F2Q (S754_finite false m e) < inject_Z n + 1)%Q.
Proof.
  cbn [int_of_float F2Q]. pose proof (Qpower_2_pos e) as Ht.
  destruct (Z.leb_spec 0 e) as [He | He].
  - exists (Z.pos m * 2 ^ e). split; [reflexivity |].
    split; [pose proof (Z.pow_pos_nonneg 2 e); lia |].
    rewrite inject_Z_mult, inject_Z_pow2 by lia.
    set (A := inject_Z (Z.pos m)) in *. set (t := (2 ^ e)%Q) in *. split; lra.
  - exists (Z.pos m / 2 ^ (- e)). split; [reflexivity |].
    assert (Hpow : 0 < 2 ^ (- e)) by (apply Z.pow_pos_nonneg; lia).
    pose proof (Z.div_mod (Z.pos m) (2 ^ (- e)) ltac:(lia)) as Hdiv.
    pose proof (Z.mod_pos_bound (Z.pos m) (2 ^ (- e)) Hpow) as Hmod.
    split; [apply Z.div_pos; lia |].
    set (n := Z.pos m / 2 ^ (- e)) in *.
    assert (Hlo : (inject_Z (n * 2 ^ (- e)) <= inject_Z (Z.pos m))%Q)
      by (rewrite <- Zle_Qle; lia).
    assert (Hhi : (inject_Z (Z.pos m) < inject_Z ((n + 1) * 2 ^ (- e)))%Q)
      by (rewrite <- Zlt_Qlt; lia).
    rewrite inject_Z_mult in Hlo. rewrite inject_Z_mult, inject_Z_plus in Hhi.
    rewrite (inject_Z_pow2 (- e)) in Hlo, Hhi by lia.
    assert (Hinv : (2 ^ (- e) * 2 ^ e == 1)%Q).
    { rewrite <- Qpower_plus by discriminate. replace (- e + e) with 0 by lia. reflexivity. }
    pose proof (Qpower_2_pos (- e)) as Hu.
    change (inject_Z 1) with 1%Q in Hhi.
    set (A := inject_Z (Z.pos m)) in *. set (B := inject_Z n) in *.
    set (t := (2 ^ e)%Q) in *. set (u := (2 ^ (- e))%Q) in *.
    assert (Hone : (B * u * t == B)%Q) by (rewrite <- Qmult_assoc, Hinv; ring).
    assert (Hone' : ((B + 1) * u * t == B + 1)%Q) by (rewrite <- Qmult_assoc, Hinv; ring).
    assert (Hlo' : (B * u * t <= A * t)%Q) by (apply Qmult_le_compat_r; lra).
    assert (Hhi' : (A * t < (B + 1) * u * t)%Q) by (apply Qmult_lt_compat_r; lra).
    split; lra.
Qed.

(** The arithmetic of the rescaling, over the rationals: [h] and [w] are
    the sides of the source, [r] the ratio, [k] the quotient, [s] its
    root, [p] the product, [a] and [b] the two lengths. *)
Section Arith.
Local Open Scope Q_scope.
Variables (h w a b r k s p : Q).
Hypotheses (Hh : 1 <= h) (Hh' : h <= 2147483648) (Hw : 1 <= w) (Hw' : w <= 2147483648).
Hypothesis (Hr : close (r * w) h).
Hypothesis (Hk : close (k * r) 1048576).
Hypothesis (Hs : (1 - (1 # 1125899906842624)) * k <= s * s).
Hypothesis (Hs' : s * s <= (1 + (1 # 1125899906842624)) * k).
Hypotheses (Ha : 0 <= a) (Has : a <= s) (Hsa : s < a + 1).

Lemma ratio_pos : 0 < r.
Proof. destruct Hr. nra. Qed.

Lemma quotient_pos : 0 < k.
Proof. destruct Hk. pose proof ratio_pos. nra. Qed.

Lemma width_upper : a * a * h <= (1 + (1 # 562949953421312)) * 1048576 * w.
Proof.
  destruct Hr as [Hr1 Hr2], Hk as [Hk1 Hk2]. pose proof ratio_pos. pose proof quotient_pos.
  assert (H1 : a * a <= s * s) by nra.
  assert (H2 : a * a * r <= (1 + (1 # 1125899906842624)) * (k * r)) by nra.
  assert (H3 : a * a * (r * w)
               <= (1 + (1 # 1125899906842624)) * ((1 + (1 # 9007199254740992)) * 1048576) * w)
    by nra.
  assert (H4 : a * a * ((1 - (1 # 9007199254740992)) * h) <= a * a * (r * w)) by nra.
  nra.
Qed.

Lemma width_lower : (1 - (1 # 562949953421312)) * 1048576 * w <= (a + 1) * (a + 1) * h.
Proof.
  destruct Hr as [Hr1 Hr2], Hk as [Hk1 Hk2]. pose proof ratio_pos. pose proof quotient_pos.
  assert (H1 : s * s <= (a + 1) * (a + 1)) by nra.
  assert (H2 : (1 - (1 # 1125899906842624)) * (k * r) <= (a + 1) * (a + 1) * r) by nra.
  assert (H3 : (1 - (1 # 1125899906842624)) * ((1 - (1 # 9007199254740992)) * 1048576) * w
               <= (a + 1) * (a + 1) * (r * w))
    by nra.
  assert (H4 : (a + 1) * (a + 1) * (r * w)
               <= (a + 1) * (a + 1) * ((1 + (1 # 9007199254740992)) * h)) by nra.
  nra.
Qed.

Lemma width_height_bound : a * h <= 4398046511104.
Proof.
  pose proof width_upper.
  assert (H1 : (a * h) * (a * h) <= 2097152 * w * h) by nra.
  assert (H2 : (a * h) * (a * h) <= 4398046511104 * 4398046511104) by nra.
  assert (0 <= a * h) by nra.
  nra.
Qed.

Hypothesis (Hp : close p (a * r)).
Hypotheses (Hb : 0 <= b) (Hbp : b <= p) (Hpb : p < b + 1).

Lemma height_upper : b * w < a * h + 1.
Proof.
  destruct Hr as [Hr1 Hr2], Hp as [Hp1 Hp2]. pose proof ratio_pos. pose proof width_height_bound.
  assert (H1 : b * w <= (1 + (1 # 9007199254740992)) * (a * (r * w))) by nra.
  assert (H2 : a * (r * w) <= a * ((1 + (1 # 9007199254740992)) * h)) by nra.
  nra.
Qed.

Lemma height_lower : a * h - w - 1 < b * w.
Proof.
  destruct Hr as [Hr1 Hr2], Hp as [Hp1 Hp2]. pose proof ratio_pos. pose proof width_height_bound.
  assert (H1 : (1 - (1 # 9007199254740992)) * (a * (r * w)) < (b + 1) * w) by nra.
  assert (H2 : a * ((1 - (1 # 9007199254740992)) * h) <= a * (r * w)) by nra.
  nra.
Qed.

Lemma area_bound : b * w <= a * h -> a * b < 1048577.
Proof.
  intros Hle. pose proof width_upper.
  assert (H1 : a * b * w <= a * a * h) by nra.
  assert (H2 : a * b * w <= (1 + (1 # 562949953421312)) * 1048576 * w) by nra.
  assert (H3 : (1 + (1 # 562949953421312)) * 1048576 * w < 1048577 * w) by nra.
  nra.
Qed.

End Arith.

Lemma square_le_mono a b : 0 <= a <= b -> a * a <= b * b.
Proof. intros. apply Z.mul_le_mono_nonneg; lia. Qed.

(** A length whose square is the quotient [1048576 * sw / sh] to within
    a part in [2 ^ 49] is within one of the floor of its root. *)
Lemma root_within_one sw sh nw :
  1 <= sw < 2 ^ 31 -> 1 <= sh < 2 ^ 31 -> 0 <= nw ->
  2 ^ 49 * (nw * nw * sh) <= (2 ^ 49 + 1) * (1048576 * sw) ->
  (2 ^ 49 - 1) * (1048576 * sw) <= 2 ^ 49 * ((nw + 1) * (nw + 1) * sh) ->
  Z.sqrt (1048576 * sw / sh) - 1 <= nw <= Z.sqrt (1048576 * sw / sh) + 1.
Proof.
  intros HW HH Hnw Hup Hlow.
  set (X := 1048576 * sw) in *.
  assert (HX : 0 <= X < 2 ^ 51) by (subst X; lia).
  pose proof (Z.div_mod X sh ltac:(lia)) as Hdiv.
  pose proof (Z.mod_pos_bound X sh ltac:(lia)) as Hmod.
  assert (Hq : 0 <= X / sh) by (apply Z.div_pos; lia).
  pose proof (Z.sqrt_spec (X / sh) Hq) as [Hs Hs'].
  pose proof (Z.sqrt_nonneg (X / sh)) as Hs0.
  set (rt := Z.sqrt (X / sh)) in *.
  set (q := X / sh) in *.
  assert (HSX : rt * rt * sh <= X).
  { assert (rt * rt * sh <= q * sh) by (apply Z.mul_le_mono_nonneg_r; lia). lia. }
  assert (HSX' : X < (rt + 1) * (rt + 1) * sh).
  { assert ((q + 1) * sh <= (rt + 1) * (rt + 1) * sh)
      by (apply Z.mul_le_mono_nonneg_r; unfold Z.succ in *; lia). lia. }
  assert (HS : rt < 2 ^ 26).
  { destruct (Z.lt_ge_cases rt (2 ^ 26)) as [| Hbig]; [assumption | exfalso].
    pose proof (square_le_mono (2 ^ 26) rt ltac:(lia)) as Hsq.
    assert (Hsh : rt * rt * 1 <= rt * rt * sh) by (apply Z.mul_le_mono_nonneg_l; lia).
    lia. }
  set (E := 2 ^ 49) in *.
  assert (HE : E = 562949953421312) by reflexivity.
  split.
  - destruct (Z.le_gt_cases (rt - 1) nw) as [| Hlt]; [assumption | exfalso].
    pose proof (square_le_mono (nw + 1) (rt - 1) ltac:(lia)) as H1.
    assert (H1' : (nw + 1) * (nw + 1) * sh <= (rt - 1) * (rt - 1) * sh)
      by (apply Z.mul_le_mono_nonneg_r; lia).
    assert (H2 : (E - 1) * (rt * rt * sh) <= E * ((rt - 1) * (rt - 1) * sh)).
    { transitivity ((E - 1) * X); [apply Z.mul_le_mono_nonneg_l; lia |].
      etransitivity; [exact Hlow |]. apply Z.mul_le_mono_nonneg_l; lia. }
    assert (H3 : (E - 1) * (rt * rt) <= E * ((rt - 1) * (rt - 1))).
    { apply Z.mul_le_mono_pos_r with (p := sh); [lia |].
      rewrite <- !Z.mul_assoc. rewrite <- !Z.mul_assoc in H2. exact H2. }
    assert (H4 : E * (2 * rt - 1) <= rt * rt) by lia.
    assert (H5 : rt * rt <= 2 ^ 26 * rt) by (apply Z.mul_le_mono_nonneg_r; lia).
    assert (HS1 : 1 <= rt) by lia.
    assert (H6 : E * (2 * rt - 1) >= E * rt) by (apply Z.le_ge, Z.mul_le_mono_nonneg_l; lia).
    assert (H7 : 2 ^ 26 * rt < E * rt) by (apply Z.mul_lt_mono_pos_r; lia).
    lia.
  - destruct (Z.le_gt_cases nw (rt + 1)) as [| Hgt]; [assumption | exfalso].
    pose proof (square_le_mono (rt + 2) nw ltac:(lia)) as H1.
    assert (H1' : (rt + 2) * (rt + 2) * sh <= nw * nw * sh)
      by (apply Z.mul_le_mono_nonneg_r; lia).
    assert (H2 : E * ((rt + 2) * (rt + 2) * sh) < (E + 1) * ((rt + 1) * (rt + 1) * sh)).
    { apply Z.le_lt_trans with (E * (nw * nw * sh)); [apply Z.mul_le_mono_nonneg_l; lia |].
      eapply Z.le_lt_trans; [exact Hup |]. apply Z.mul_lt_mono_pos_l; lia. }
    assert (H3 : E * ((rt + 2) * (rt + 2)) < (E + 1) * ((rt + 1) * (rt + 1))).
    { apply Z.mul_lt_mono_pos_r with (p := sh); [lia |].
      rewrite <- !Z.mul_assoc. rewrite <- !Z.mul_assoc in H2. exact H2. }
    assert (H4 : E * (2 * rt + 3) < (rt + 1) * (rt + 1)) by lia.
    assert (H5 : (rt + 1) * (rt + 1) <= 2 ^ 26 * (rt + 1))
      by (apply Z.mul_le_mono_nonneg_r; lia).
    assert (H6 : E * (rt + 1) <= E * (2 * rt + 3)) by (apply Z.mul_le_mono_nonneg_l; lia).
    assert (H7 : 2 ^ 26 * (rt + 1) < E * (rt + 1)) by (apply Z.mul_lt_mono_pos_r; lia).
    lia.
Qed.

(** ** The polling loop *)

Section Polling.
Variables (self : FluxAPI) (task_id : pyval) (silent : bool).

(** What a query leaves behind. *)
Lemma query_round_script attempt w i :
  status_script (query_round self task_id silent attempt w) i = status_script w (S i).
Proof. unfold query_round. destruct silent; reflexivity. Qed.

Lemma query_round_queries attempt w :
  status_queries (query_round self task_id silent attempt w) = S (status_queries w).
Proof.
  unfold query_round, status_queries.
  destruct silent; simpl; rewrite status_queries_of_app; simpl; lia.
Qed.

Lemma query_round_submissions attempt w :
  submissions (query_round self task_id silent attempt w) = submissions w.
Proof.
  unfold query_round, submissions.
  destruct silent; simpl; rewrite submissions_of_app; simpl; apply app_nil_r.
Qed.

Lemma query_round_stderr attempt w :
  stderr (query_round self task_id silent attempt w)
  = stderr w ++ attempt_lines silent 1 attempt.
Proof.
  unfold query_round. destruct silent; simpl; [symmetry; apply app_nil_r | reflexivity].
Qed.

Lemma query_round_slept attempt w : slept (query_round self task_id silent attempt w) = slept w.
Proof. unfold query_round. destruct silent; reflexivity. Qed.

(** What an idle turn leaves behind. *)
Lemma idle_round_script attempt w i :
  status_script (idle_round self task_id silent attempt w) i = status_script w (S i).
Proof. exact (query_round_script attempt w i). Qed.

Lemma idle_round_queries attempt w :
  status_queries (idle_round self task_id silent attempt w) = S (status_queries w).
Proof. exact (query_round_queries attempt w). Qed.

Lemma idle_round_submissions attempt w :
  submissions (idle_round self task_id silent attempt w) = submissions w.
Proof. exact (query_round_submissions attempt w). Qed.

Lemma idle_round_stderr attempt w :
  stderr (idle_round self task_id silent attempt w)
  = stderr w ++ attempt_lines silent 1 attempt.
Proof. exact (query_round_stderr attempt w). Qed.

Lemma idle_round_slept attempt w :
  slept (idle_round self task_id silent attempt w) = slept w + 2.
Proof.
  change (slept (idle_round self task_id silent attempt w))
    with (slept (query_round self task_id silent attempt w) + 2).
  rewrite query_round_slept. reflexivity.
Qed.

(** What [n] idle turns leave behind. *)
Lemma idle_rounds_script n : ∀ attempt w i,
  status_script (idle_rounds self task_id silent n attempt w) i = status_script w (n + i)%nat.
Proof.
  induction n as [|n IH]; intros attempt w i; cbn [idle_rounds]; [reflexivity |].
  rewrite IH, idle_round_script. f_equal; lia.
Qed.

Lemma idle_rounds_queries n : ∀ attempt w,
  status_queries (idle_rounds self task_id silent n attempt w) = (status_queries w + n)%nat.
Proof.
  induction n as [|n IH]; intros attempt w; cbn [idle_rounds]; [lia |].
  rewrite IH, idle_round_queries. lia.
Qed.

Lemma idle_rounds_submissions n : ∀ attempt w,
  submissions (idle_rounds self task_id silent n attempt w) = submissions w.
Proof.
  induction n as [|n IH]; intros attempt w; cbn [idle_rounds]; [reflexivity |].
  rewrite IH. apply idle_round_submissions.
Qed.

Lemma idle_rounds_stderr n : ∀ attempt w,
  stderr (idle_rounds self task_id silent n attempt w)
  = stderr w ++ attempt_lines silent n attempt.
Proof.
  induction n as [|n IH]; intros attempt w; cbn [idle_rounds attempt_lines].
  - symmetry. apply app_nil_r.
  - rewrite IH, idle_round_stderr. cbn [attempt_lines].
    rewrite app_nil_r, <- app_assoc. reflexivity.
Qed.

Lemma idle_rounds_slept n : ∀ attempt w,
  slept (idle_rounds self task_id silent n attempt w) = slept w + 2 * Z.of_nat n.
Proof.
  induction n as [|n IH]; intros attempt w; cbn [idle_rounds]; [lia |].
  rewrite IH, idle_round_slept. lia.
Qed.

Lemma attempt_lines_quiet n : ∀ attempt,
  Forall (λ l, ¬ reports_job_failure l) (attempt_lines silent n attempt).
Proof.
  induction n as [|n IH]; intros attempt; simpl; [constructor |].
  apply Forall_app. split; [| apply IH].
  destruct silent; repeat constructor. unfold reports_job_failure. simpl. congruence.
Qed.

(** One turn of the loop, by the answer it meets. *)
Lemma poll_loop_in_progress remaining attempt w :
  in_progress (status_script w 0%nat) →
  poll_loop self task_id silent (S remaining) attempt w
  = poll_loop self task_id silent remaining (attempt + 1)
      (idle_round self task_id silent attempt w).
Proof.
  intros (status & Hs & Hr & Hf).
  apply py_eq_str_false in Hr, Hf.
  cbn [poll_loop]. unfold idle_round, query_round.
  destruct silent; run_step; rewrite Hs; simpl; rewrite Hr, Hf; reflexivity.
Qed.

Lemma poll_loop_ready remaining attempt w :
  status_script w 0%nat !! "status" = Some (VStr "Ready") →
  poll_loop self task_id silent (S remaining) attempt w
  = (Ok (Some (status_script w 0%nat)), query_round self task_id silent attempt w).
Proof.
  intros Hs. cbn [poll_loop]. unfold query_round.
  destruct silent; run_step; rewrite Hs; reflexivity.
Qed.

Lemma poll_loop_failed remaining attempt w :
  status_script w 0%nat !! "status" = Some (VStr "failed") →
  poll_loop self task_id silent (S remaining) attempt w =
  (Ok None,
   with_stderr (stderr (query_round self task_id silent attempt w)
                ++ [task_failed_line (status_script w 0%nat)])
               (query_round self task_id silent attempt w)).
Proof.
  intros Hs. cbn [poll_loop]. unfold query_round.
  destruct silent; run_step; rewrite Hs; reflexivity.
Qed.

Lemma poll_loop_timeout attempt w :
  poll_loop self task_id silent 0 attempt w
  = (Ok None, with_stderr (stderr w ++ [timeout_line]) w).
Proof. reflexivity. Qed.

(** [n] answers in progress in a row are [n] idle turns. *)
Lemma poll_loop_idle n : ∀ remaining attempt w,
  (∀ i, (i < n)%nat → in_progress (status_script w i)) →
  poll_loop self task_id silent (n + remaining) attempt w =
  poll_loop self task_id silent remaining (attempt + Z.of_nat n)
    (idle_rounds self task_id silent n attempt w).
Proof.
  induction n as [|n IH]; intros remaining attempt w Hidle.
  - simpl. rewrite Z.add_0_r. reflexivity.
  - change (S n + remaining)%nat with (S (n + remaining)).
    rewrite poll_loop_in_progress by (apply Hidle; lia).
    rewrite IH.
    + cbn [idle_rounds]. f_equal. lia.
    + intros i Hi. rewrite idle_round_script. apply Hidle. lia.
Qed.

(** The loop never sends more queries than its variant allows, whatever
    the provider answers. *)
Lemma poll_loop_queries_le remaining : ∀ attempt w,
  (status_queries (poll_loop self task_id silent remaining attempt w).2
   ≤ status_queries w + remaining)%nat.
Proof.
  induction remaining as [|remaining IH]; intros attempt w.
  - rewrite poll_loop_timeout. simpl. unfold status_queries. simpl. lia.
  - destruct (status_script w 0%nat !! "status") as [status|] eqn:Hs.
    + destruct (py_eq_str status "Ready") eqn:Hr.
      { apply py_eq_str_true in Hr. subst status.
        rewrite poll_loop_ready by exact Hs. simpl.
        rewrite query_round_queries. lia. }
      destruct (py_eq_str status "failed") eqn:Hf.
      { apply py_eq_str_true in Hf. subst status.
        rewrite poll_loop_failed by exact Hs. simpl.
        change (status_queries (with_stderr ?l ?w)) with (status_queries w).
        rewrite query_round_queries. lia. }
      apply py_eq_str_false in Hr, Hf.
      rewrite poll_loop_in_progress by (exists status; auto).
      etransitivity; [apply IH |].
      rewrite idle_round_queries. lia.
    + assert (poll_loop self task_id silent (S remaining) attempt w
              = (Raise (KeyError "status"), query_round self task_id silent attempt w))
        as ->.
      { cbn [poll_loop]. unfold query_round.
        destruct silent; run_step; rewrite Hs; reflexivity. }
      simpl. rewrite query_round_queries. lia.
Qed.

Lemma get_task_result_unfold w :
  get_task_result self task_id silent w = poll_loop self task_id silent 30 0 (announced w).
Proof. reflexivity. Qed.

(** The run up to the query that follows [n] answers in progress. *)
Lemma get_task_result_idle (n remaining : nat) w :
  (n + remaining = 30)%nat →
  (∀ i, (i < n)%nat → in_progress (status_script w i)) →
  get_task_result self task_id silent w =
  poll_loop self task_id silent remaining (Z.of_nat n)
    (idle_rounds self task_id silent n 0 (announced w)).
Proof.
  intros Hn Hidle. rewrite get_task_result_unfold, <- Hn.
  rewrite poll_loop_idle by exact Hidle. reflexivity.
Qed.

Lemma last_snoc_line (l : list line) (x : line) : last (l ++ [x]) = Some x.
Proof. apply last_snoc. Qed.

(** The lines printed before an answer arrives are never the timeout
    line. *)
Lemma last_before_answer_not_timeout n attempt w :
  last (stderr (query_round self task_id silent attempt
                  (idle_rounds self task_id silent n 0 (announced w))))
  ≠ Some timeout_line.
Proof.
  rewrite query_round_stderr, idle_rounds_stderr. unfold announced. simpl stderr.
  rewrite <- !app_assoc. intros Hlast.
  rewrite last_app in Hlast.
  match type of Hlast with
  | match ?t with _ => _ end = _ => destruct t as [l|] eqn:Hl
  end.
  - apply last_Some_elem_of in Hl. injection Hlast as ->.
    rewrite !elem_of_app in Hl. destruct Hl as [Hl | [Hl | Hl]].
    + apply list_elem_of_singleton in Hl. discriminate.
    + revert Hl. generalize 0. induction n as [|n IH]; intros a Hl; simpl in Hl.
      * inversion Hl.
      * apply elem_of_app in Hl. destruct Hl as [Hl | Hl]; [| eapply IH; eauto].
        destruct silent; [inversion Hl |].
        apply list_elem_of_singleton in Hl. discriminate.
    + simpl in Hl. rewrite app_nil_r in Hl. destruct silent; [inversion Hl |].
      apply list_elem_of_singleton in Hl. discriminate.
  - apply last_None in Hl. discriminate.
Qed.

(** Either the first [n] answers are all in progress, or there is a first
    one that is not. *)
Lemma first_answer_not_in_progress (script : nat → gmap string pyval) n :
  (∀ i, (i < n)%nat → in_progress (script i)) ∨
  (∃ j, (j < n)%nat ∧ (∀ i, (i < j)%nat → in_progress (script i)) ∧
        ¬ in_progress (script j)).
Proof.
  induction n as [|n [IH | (j & Hj & Hbefore & Hstop)]].
  - left. intros i Hi. lia.
  - assert (in_progress (script n) ∨ ¬ in_progress (script n)) as [Hn | Hn].
    { unfold in_progress. destruct (script n !! "status") as [v|] eqn:Hv.
      - destruct (py_eq_str v "Ready") eqn:Hr.
        { right. intros (v' & [= <-] & Hne & _). apply py_eq_str_true in Hr. auto. }
        destruct (py_eq_str v "failed") eqn:Hf.
        { right. intros (v' & [= <-] & _ & Hne). apply py_eq_str_true in Hf. auto. }
        left. exists v. rewrite <- !py_eq_str_false. auto.
      - right. intros (v' & [=] & _). }
    + left. intros i Hi. destruct (decide (i = n)) as [-> | Hne]; [exact Hn |].
      apply IH. lia.
    + right. exists n. split; [lia |]. split; [| exact Hn].
      intros i Hi. apply IH. exact Hi.
  - right. exists j. split; [lia |]. split; assumption.
Qed.

(** Thirty answers in progress: the run in full. *)
Lemma get_task_result_exhausted w :
  (∀ i, (i < 30)%nat → in_progress (status_script w i)) →
  get_task_result self task_id silent w =
  (Ok None,
   with_stderr (stderr w ++ [[Lit "Processing image..."]] ++ attempt_lines silent 30 0
                         ++ [timeout_line])
               (idle_rounds self task_id silent 30 0 (announced w))).
Proof.
  intros Hidle.
  rewrite (get_task_result_idle 30 0 w) by (lia || exact Hidle).
  rewrite poll_loop_timeout, idle_rounds_stderr.
  unfold announced at 1. simpl stderr. rewrite <- !app_assoc. reflexivity.
Qed.

(** *** Claims on polling *)

(** C1. When the provider answers a status in progress to the first [N]
    queries, [N < 30], and then ['Ready'] or ['failed'], [get_task_result]
    sends exactly [N + 1] queries and consumes exactly that many answers;
    on ['Ready'] it returns the whole answer; on ['failed'] it returns
    [None] after printing ["Task failed: "] followed by the [error] field
    of the answer (or ['Unknown error'] when the field is missing) as
    the last line on stderr. *)
Theorem get_task_result_first_terminal w (N : nat) (answer : gmap string pyval) :
  (N < 30)%nat →
  (∀ i, (i < N)%nat → in_progress (status_script w i)) →
  status_script w N = answer →
  answer !! "status" = Some (VStr "Ready") ∨ answer !! "status" = Some (VStr "failed") →
  let run := get_task_result self task_id silent w in
  status_queries run.2 = (status_queries w + (N + 1))%nat ∧
  (∀ i, status_script run.2 i = status_script w (N + 1 + i)%nat) ∧
  (answer !! "status" = Some (VStr "Ready") → run.1 = Ok (Some answer)) ∧
  (answer !! "status" = Some (VStr "failed") →
     run.1 = Ok None ∧
     last (stderr run.2) =
       Some [Lit "Task failed: ";
             Interp (default (VStr "Unknown error") (answer !! "error"))]).
Proof.
  intros HN Hidle Hanswer Hterminal run.
  assert (Hrun : run = poll_loop self task_id silent (S (29 - N)) (Z.of_nat N)
                         (idle_rounds self task_id silent N 0 (announced w))).
  { apply get_task_result_idle; [lia | exact Hidle]. }
  assert (Hnext : status_script (idle_rounds self task_id silent N 0 (announced w)) 0%nat
                  = answer).
  { rewrite idle_rounds_script, Nat.add_0_r. exact Hanswer. }
  assert (Hasked : ∀ a,
    status_queries (query_round self task_id silent a
                      (idle_rounds self task_id silent N 0 (announced w)))
    = (status_queries w + (N + 1))%nat ∧
    ∀ i, status_script (query_round self task_id silent a
                          (idle_rounds self task_id silent N 0 (announced w))) i
         = status_script w (N + 1 + i)%nat).
  { intros a. rewrite query_round_queries, idle_rounds_queries. split.
    - change (status_queries (announced w)) with (status_queries w). lia.
    - intros i. rewrite query_round_script, idle_rounds_script.
      change (status_script (announced w)) with (status_script w). f_equal. lia. }
  destruct Hterminal as [Hready | Hfailed].
  - rewrite poll_loop_ready in Hrun by (rewrite Hnext; exact Hready).
    rewrite Hnext in Hrun. rewrite Hrun. simpl.
    split; [apply Hasked |]. split; [apply Hasked |].
    split; [reflexivity | congruence].
  - rewrite poll_loop_failed in Hrun by (rewrite Hnext; exact Hfailed).
    rewrite Hnext in Hrun. rewrite Hrun. simpl.
    split; [apply (Hasked (Z.of_nat N)) |]. split; [apply (Hasked (Z.of_nat N)) |].
    split; [congruence |]. intros _. split; [reflexivity | apply last_snoc].
Qed.

(** C2. Whatever the provider answers, [get_task_result] returns after at
    most 30 status queries (it is a total function: the loop is a
    recursion on its variant). When each of the first 30 answers carries a
    status in progress, it sends exactly 30 queries, sleeps 60 seconds in
    all, returns [None], and the lines it prints end with the timeout line
    and contain no report of a job failure. *)
Theorem get_task_result_bounded w :
  let run := get_task_result self task_id silent w in
  (status_queries run.2 ≤ status_queries w + 30)%nat ∧
  ((∀ i, (i < 30)%nat → in_progress (status_script w i)) →
   status_queries run.2 = (status_queries w + 30)%nat ∧
   run.1 = Ok None ∧
   slept run.2 = slept w + 60 ∧
   ∃ added, stderr run.2 = stderr w ++ added ∧
            last added = Some timeout_line ∧
            Forall (λ l, ¬ reports_job_failure l) added).
Proof.
  intros run. split.
  - subst run. rewrite get_task_result_unfold.
    etransitivity; [apply poll_loop_queries_le |].
    change (status_queries (announced w)) with (status_queries w). lia.
  - intros Hidle. subst run. rewrite get_task_result_exhausted by exact Hidle.
    cbn [fst snd].
    change (status_queries (with_stderr ?l ?w0)) with (status_queries w0).
    change (slept (with_stderr ?l ?w0)) with (slept w0).
    change (stderr (with_stderr ?l ?w0)) with l.
    rewrite idle_rounds_queries, idle_rounds_slept.
    change (status_queries (announced w)) with (status_queries w).
    change (slept (announced w)) with (slept w).
    split; [reflexivity |]. split; [reflexivity |]. split; [lia |].
    exists ([[Lit "Processing image..."]] ++ attempt_lines silent 30 0 ++ [timeout_line]).
    split; [reflexivity | split].
    + rewrite !app_assoc. apply last_snoc.
    + apply Forall_app. split.
      { repeat constructor. unfold reports_job_failure. simpl. congruence. }
      apply Forall_app. split; [apply attempt_lines_quiet |].
      repeat constructor. unfold reports_job_failure. simpl. congruence.
Qed.

(** C10. The statuses are matched exactly. When the first 30 answers carry
    the statuses [status 0 .. status 29], the run ends in a timeout (30
    queries, [None] returned, the timeout line last on stderr) if and only
    if none of these statuses is the very string ['Ready'] or the very
    string ['failed']; any other value, in particular the string ['Failed'],
    keeps the loop polling. *)
Theorem terminal_status_matching_is_exact w (status : nat → pyval) :
  (∀ i, (i < 30)%nat → status_script w i !! "status" = Some (status i)) →
  let run := get_task_result self task_id silent w in
  (run.1 = Ok None ∧
   last (stderr run.2) = Some timeout_line ∧
   status_queries run.2 = (status_queries w + 30)%nat)
  ↔ (∀ i, (i < 30)%nat → status i ≠ VStr "Ready" ∧ status i ≠ VStr "failed").
Proof.
  intros Hstatus run. split.
  - intros (_ & Hlast & _) i Hi.
    destruct (first_answer_not_in_progress (status_script w) 30)
      as [Hidle | (j & Hj & Hbefore & Hstop)].
    { destruct (Hidle i Hi) as (v & Hv & Hne). rewrite Hstatus in Hv by exact Hi.
      injection Hv as <-. exact Hne. }
    exfalso.
    assert (Hrun : run = poll_loop self task_id silent (S (29 - j)) (Z.of_nat j)
                           (idle_rounds self task_id silent j 0 (announced w))).
    { apply get_task_result_idle; [lia | exact Hbefore]. }
    assert (Hnext : status_script (idle_rounds self task_id silent j 0 (announced w)) 0%nat
                      !! "status" = Some (status j)).
    { rewrite idle_rounds_script, Nat.add_0_r. apply Hstatus. exact Hj. }
    destruct (py_eq_str (status j) "Ready") eqn:Hr.
    { apply py_eq_str_true in Hr. rewrite Hr in Hnext.
      rewrite poll_loop_ready in Hrun by exact Hnext.
      rewrite Hrun in Hlast. simpl in Hlast.
      exact (last_before_answer_not_timeout _ _ _ Hlast). }
    destruct (py_eq_str (status j) "failed") eqn:Hf.
    { apply py_eq_str_true in Hf. rewrite Hf in Hnext.
      rewrite poll_loop_failed in Hrun by exact Hnext.
      rewrite Hrun in Hlast. simpl in Hlast.
      rewrite last_snoc in Hlast. discriminate. }
    apply Hstop. exists (status j). rewrite Hstatus by exact Hj.
    rewrite <- !py_eq_str_false. auto.
  - intros Hnone.
    assert (Hidle : ∀ i, (i < 30)%nat → in_progress (status_script w i)).
    { intros i Hi. exists (status i). split; [apply Hstatus, Hi | apply Hnone, Hi]. }
    subst run. rewrite get_task_result_exhausted by exact Hidle.
    cbn [fst snd].
    change (status_queries (with_stderr ?l ?w0)) with (status_queries w0).
    change (stderr (with_stderr ?l ?w0)) with l.
    rewrite idle_rounds_queries.
    change (status_queries (announced w)) with (status_queries w).
    split; [reflexivity |]. split; [| reflexivity].
    rewrite !app_assoc. apply last_snoc.
Qed.

End Polling.

Lemma get_task_result_first_terminal_witness :
  (let w := Double.quiet_world (Double.after 2 Double.ready_answer) in
   let run := get_task_result Double.api (VStr "job-1") false w in
   status_queries run.2 = 3%nat ∧ run.1 = Ok (Some Double.ready_answer)) ∧
  (let w := Double.quiet_world (Double.after 0 Double.failed_answer) in
   let run := get_task_result Double.api (VStr "job-1") false w in
   status_queries run.2 = 1%nat ∧ run.1 = Ok None ∧
   last (stderr run.2) = Some [Lit "Task failed: "; Interp (VStr "content moderated")]).
Proof.
  split; intros w run.
  - destruct (get_task_result_first_terminal Double.api (VStr "job-1") false w 2
                Double.ready_answer) as (Hq & _ & Hready & _).
    + lia.
    + intros i Hi. exists (VStr "Processing").
      destruct i as [|[|i]]; [| | lia]; (split; [reflexivity | split; discriminate]).
    + reflexivity.
    + left. reflexivity.
    + split; [exact Hq | apply Hready; reflexivity].
  - destruct (get_task_result_first_terminal Double.api (VStr "job-1") false w 0
                Double.failed_answer) as (Hq & _ & _ & Hfailed).
    + lia.
    + intros i Hi. lia.
    + reflexivity.
    + right. reflexivity.
    + split; [exact Hq | apply Hfailed; reflexivity].
Defined.

Lemma get_task_result_bounded_witness :
  let w := Double.quiet_world (λ _, Double.answer "Processing") in
  let run := get_task_result Double.api (VStr "job-1") false w in
  status_queries run.2 = 30%nat ∧ run.1 = Ok None ∧ slept run.2 = 60.
Proof.
  intros w run.
  destruct (get_task_result_bounded Double.api (VStr "job-1") false w) as (_ & Hidle).
  destruct Hidle as (Hq & Hr & Hs & _).
  - intros i Hi. exists (VStr "Processing").
    split; [reflexivity | split; discriminate].
  - split; [exact Hq | split; [exact Hr | exact Hs]].
Defined.

Lemma terminal_status_matching_is_exact_witness :
  let w := Double.quiet_world (λ _, Double.answer "Failed") in
  let run := get_task_result Double.api (VStr "job-1") true w in
  run.1 = Ok None ∧ last (stderr run.2) = Some timeout_line ∧
  status_queries run.2 = 30%nat.
Proof.
  intros w run.
  apply (terminal_status_matching_is_exact Double.api (VStr "job-1") true w
           (λ _, VStr "Failed")).
  - intros i Hi. reflexivity.
  - intros i Hi. split; discriminate.
Defined.

(** ** Submissions *)

Section Submissions.
Variables (self : FluxAPI).

Lemma poll_loop_submissions task_id silent remaining : ∀ attempt w,
  submissions (poll_loop self task_id silent remaining attempt w).2 = submissions w.
Proof.
  induction remaining as [|remaining IH]; intros attempt w; [reflexivity |].
  destruct (status_script w 0%nat !! "status") as [status|] eqn:Hs.
  - destruct (py_eq_str status "Ready") eqn:Hr.
    { apply py_eq_str_true in Hr. subst status.
      rewrite poll_loop_ready by exact Hs. apply query_round_submissions. }
    destruct (py_eq_str status "failed") eqn:Hf.
    { apply py_eq_str_true in Hf. subst status.
      rewrite poll_loop_failed by exact Hs. apply query_round_submissions. }
    apply py_eq_str_false in Hr, Hf.
    rewrite poll_loop_in_progress by (exists status; auto).
    rewrite IH. apply idle_round_submissions.
  - cbn [poll_loop].
    unfold mbind, mret, Run_bind, Run_ret, print_stderr, requests_get, getitem, raise.
    destruct silent; simpl; rewrite Hs; simpl;
      unfold submissions; simpl; rewrite submissions_of_app; apply app_nil_r.
Qed.

Lemma get_task_result_submissions task_id silent w :
  submissions (get_task_result self task_id silent w).2 = submissions w.
Proof. rewrite get_task_result_unfold, poll_loop_submissions. reflexivity. Qed.

Lemma sample_url_world result w : (sample_url result w).2 = w.
Proof.
  unfold sample_url. destruct result as [r|]; [| reflexivity].
  destruct (truthy (VDict r)); [| reflexivity].
  destruct (default (VDict ∅) (r !! "result")); try reflexivity.
  destruct (truthy _); reflexivity.
Qed.

Lemma await_sample_submissions reply what w :
  submissions (await_sample self reply what w).2 = submissions w.
Proof.
  unfold await_sample. destruct (negb _); [reflexivity |].
  unfold mbind, Run_bind.
  destruct (get_task_result self _ false w) as [[result|e] w'] eqn:Hrun.
  - rewrite sample_url_world.
    rewrite <- (get_task_result_submissions (default VNone (reply !! "id")) false w).
    rewrite Hrun. reflexivity.
  - rewrite <- (get_task_result_submissions (default VNone (reply !! "id")) false w).
    rewrite Hrun. reflexivity.
Qed.

(** A submission followed by the wait for its result adds exactly that
    submission. *)
Lemma submit_and_await url payload what w :
  submissions
    ((reply ← requests_post url payload (headers self);
      await_sample self reply what) w).2
  = submissions w ++ [(url, payload)].
Proof.
  unfold mbind, Run_bind, requests_post. rewrite await_sample_submissions.
  unfold submissions. simpl. apply submissions_of_app.
Qed.

End Submissions.

Lemma model_endpoints_inv model endpoint :
  model_endpoints !! model = Some endpoint →
  (model, endpoint) ∈ [("flux.1.1-pro", "/v1/flux-pro-1.1");
                       ("flux.1-pro", "/v1/flux-pro");
                       ("flux.1-dev", "/v1/flux-dev");
                       ("flux.1.1-ultra", "/v1/flux-pro-1.1-ultra")].
Proof. apply elem_of_list_to_map_2. Qed.

Lemma model_endpoints_truthy model endpoint :
  model_endpoints !! model = Some endpoint → truthy (VStr endpoint) = true.
Proof.
  intros Hm. apply model_endpoints_inv in Hm.
  repeat (apply elem_of_cons in Hm as [Hm | Hm]; [injection Hm as -> ->; reflexivity |]).
  inversion Hm.
Qed.

(** ** Claims on the requests *)

Lemma generate_image_submits self prompt model width height aspect_ratio w endpoint :
  model_endpoints !! model = Some endpoint →
  submissions (generate_image self prompt model width height aspect_ratio w).2
  = submissions w ++ [(base_url self +:+ endpoint,
                       generate_payload prompt width height aspect_ratio)].
Proof.
  intros Hm. unfold generate_image. rewrite Hm.
  cbn [of_opt_str]. rewrite (model_endpoints_truthy _ _ Hm). cbn [negb default].
  apply submit_and_await.
Qed.

(** C3. For a recognised model, the payload that [generate_image] submits
    carries the width and height of the table whenever the aspect ratio is
    one of its five keys, whatever width and height were passed; and
    1024 by 768 when neither an aspect ratio nor dimensions are passed. *)
Theorem generate_image_dimensions self prompt model width height w :
  is_Some (model_endpoints !! model) →
  (∀ aspect_ratio tw th,
     (aspect_ratio, (tw, th)) ∈ aspect_table →
     ∃ url payload,
       submissions (generate_image self prompt model width height
                      (Some aspect_ratio) w).2
       = submissions w ++ [(url, payload)] ∧
       payload !! "width" = Some (VInt tw) ∧ payload !! "height" = Some (VInt th)) ∧
  (∃ url payload,
     submissions (generate_image self prompt model None None None w).2
     = submissions w ++ [(url, payload)] ∧
     payload !! "width" = Some (VInt 1024) ∧ payload !! "height" = Some (VInt 768)).
Proof.
  intros [endpoint Hm]. split.
  - intros aspect_ratio tw th Hin.
    eexists _, _. split; [apply generate_image_submits; exact Hm |].
    unfold aspect_table in Hin.
    repeat (apply elem_of_cons in Hin as [Hin | Hin];
            [injection Hin as -> -> ->; split; reflexivity |]).
    inversion Hin.
  - eexists _, _. split; [apply generate_image_submits; exact Hm |].
    split; reflexivity.
Qed.

Lemma generate_image_dimensions_witness :
  let w := Double.quiet_world (Double.after 1 Double.ready_answer) in
  ∃ url payload,
    submissions (generate_image Double.api "a red fox" "flux.1.1-pro" (Some 640) (Some 480)
                   (Some "16:9") w).2 = [(url, payload)] ∧
    payload !! "width" = Some (VInt 1024) ∧ payload !! "height" = Some (VInt 576).
Proof.
  intros w.
  apply (generate_image_dimensions Double.api "a red fox" "flux.1.1-pro"
           (Some 640) (Some 480) w).
  - eexists. reflexivity.
  - unfold aspect_table. do 3 apply list_elem_of_further. apply list_elem_of_here.
Defined.

Section Unsupported.
Context `{Pillow} `{PyLib}.

(** C6. A model name outside the endpoint table makes [generate_image] and
    [img2img] raise [ValueError], and a control type outside its table
    makes [control_generate] raise [ValueError], in a world left exactly
    as it was: nothing was sent, read, printed or waited for. *)
Theorem unsupported_mode_fails_first (self : FluxAPI) (w : world) :
  (∀ prompt model width height aspect_ratio,
     model_endpoints !! model = None →
     generate_image self prompt model width height aspect_ratio w
     = (Raise (ValueError ("Unknown model: " +:+ model)), w)) ∧
  (∀ image_path prompt model strength width height,
     model_endpoints !! model = None →
     img2img self image_path prompt model strength width height w
     = (Raise (ValueError ("Unknown model: " +:+ model)), w)) ∧
  (∀ control_type control_image prompt kwargs,
     control_endpoints !! control_type = None →
     control_generate self control_type control_image prompt kwargs w
     = (Raise (ValueError ("Unsupported control type: " +:+ control_type)), w)).
Proof.
  split; [| split].
  - intros prompt model width height aspect_ratio Hm.
    unfold generate_image. rewrite Hm. reflexivity.
  - intros image_path prompt model strength width height Hm.
    unfold img2img. rewrite Hm. reflexivity.
  - intros control_type control_image prompt kwargs Hc.
    unfold control_generate. rewrite Hc. reflexivity.
Qed.

Lemma control_endpoints_inv control_type endpoint :
  control_endpoints !! control_type = Some endpoint →
  control_type = "canny" ∨ control_type = "depth" ∨ control_type = "pose".
Proof.
  intros Hc. apply elem_of_list_to_map_2 in Hc.
  repeat (apply elem_of_cons in Hc as [Hc | Hc]; [injection Hc as -> _; auto |]).
  inversion Hc.
Qed.

Lemma control_generate_submits self control_type control_image prompt kwargs w
    endpoint data :
  control_endpoints !! control_type = Some endpoint →
  files w !! control_image = Some data →
  submissions (control_generate self control_type control_image prompt kwargs w).2
  = submissions w ++ [(base_url self +:+ endpoint,
                       control_payload control_type (b64encode data) prompt kwargs)].
Proof.
  intros Hc Hfile. unfold control_generate. rewrite Hc.
  unfold encode_image, read_file.
  unfold mbind at 1. unfold Run_bind at 1. unfold mbind at 1. unfold Run_bind at 1.
  rewrite Hfile. cbn [mret Run_ret].
  apply submit_and_await.
Qed.

(** The guidance sent, by the key. For a supported control type and a
    readable control image, the payload that [control_generate] submits
    carries as guidance what the keyword arguments hold under
    ['guidance'], when they have that key, and otherwise the default of
    the control type: 30 for canny, 15 for depth, 25 for pose. *)
Theorem control_generate_guidance self control_type control_image prompt kwargs w data :
  is_Some (control_endpoints !! control_type) →
  files w !! control_image = Some data →
  ∃ url payload,
    submissions (control_generate self control_type control_image prompt kwargs w).2
    = submissions w ++ [(url, payload)] ∧
    (∀ guidance, kwargs !! "guidance" = Some guidance →
                 payload !! "guidance" = Some guidance) ∧
    (kwargs !! "guidance" = None →
     ∃ guidance, (control_type, guidance) ∈ guidance_table ∧
                 payload !! "guidance" = Some (VInt guidance)).
Proof.
  intros [endpoint Hc] Hfile.
  eexists _, _. split; [eapply control_generate_submits; eassumption |].
  unfold control_payload, dict_update. split.
  - intros guidance Hg. apply lookup_union_Some_l. exact Hg.
  - intros Hg. rewrite lookup_union_r by exact Hg.
    apply control_endpoints_inv in Hc. unfold guidance_table.
    destruct Hc as [-> | [-> | ->]].
    + exists 30. split; [apply list_elem_of_here | reflexivity].
    + exists 15. split; [apply list_elem_of_further, list_elem_of_here | reflexivity].
    + exists 25. split; [do 2 apply list_elem_of_further; apply list_elem_of_here
                        | reflexivity].
Qed.

(** C7. The default is lost when the guidance passed is [None]. For a
    supported control type and a readable control image, keyword
    arguments that hold [guidance=None], which is what [main] passes when
    the command line gives no guidance, make [control_generate] submit a
    payload whose guidance is [None]: the default of the control type,
    put in the payload first, is overwritten by the update with the
    keyword arguments. *)
Theorem control_generate_guidance_none self control_type control_image prompt kwargs w
    data :
  is_Some (control_endpoints !! control_type) →
  files w !! control_image = Some data →
  kwargs !! "guidance" = Some VNone →
  ∃ url payload,
    submissions (control_generate self control_type control_image prompt kwargs w).2
    = submissions w ++ [(url, payload)] ∧
    payload !! "guidance" = Some VNone ∧
    ∀ guidance, (control_type, guidance) ∈ guidance_table →
                payload !! "guidance" ≠ Some (VInt guidance).
Proof.
  intros [endpoint Hc] Hfile Hnone.
  eexists _, _. split; [eapply control_generate_submits; eassumption |].
  assert (Hsent : control_payload control_type (b64encode data) prompt kwargs !! "guidance"
                  = Some VNone)
    by (unfold control_payload, dict_update; apply lookup_union_Some_l; exact Hnone).
  split; [exact Hsent |].
  intros guidance _. rewrite Hsent. discriminate.
Qed.

End Unsupported.

Lemma unsupported_mode_fails_first_witness :
  let w := Double.quiet_world (λ _, Double.ready_answer) in
  generate_image Double.api "a red fox" "flux.2" None None None w
  = (Raise (ValueError "Unknown model: flux.2"), w) ∧
  @img2img Double.pillow_double Double.pylib_double Double.api "in.png" "a red fox"
    "flux.2" (float_lit 75 100) None None w
  = (Raise (ValueError "Unknown model: flux.2"), w) ∧
  @control_generate Double.pylib_double Double.api "sketch" "in.png" "a red fox" ∅ w
  = (Raise (ValueError "Unsupported control type: sketch"), w).
Proof.
  intros w.
  destruct (@unsupported_mode_fails_first Double.pillow_double Double.pylib_double
              Double.api w) as (Hgenerate & Himg2img & Hcontrol).
  split; [| split].
  - apply Hgenerate. reflexivity.
  - apply Himg2img. reflexivity.
  - apply Hcontrol. reflexivity.
Defined.

Lemma control_generate_guidance_witness :
  let w := with_files {[ "edges.png" := [Byte.x01; Byte.x01; Byte.xff] ]}
             (Double.quiet_world (λ _, Double.ready_answer)) in
  (∃ url payload,
     submissions (@control_generate Double.pylib_double Double.api "depth" "edges.png"
                    "a red fox" ∅ w).2 = [(url, payload)] ∧
     payload !! "guidance" = Some (VInt 15)) ∧
  (∃ url payload,
     submissions (@control_generate Double.pylib_double Double.api "depth" "edges.png"
                    "a red fox" {[ "guidance" := VInt 40 ]} w).2 = [(url, payload)] ∧
     payload !! "guidance" = Some (VInt 40)).
Proof.
  intros w. split.
  - destruct (@control_generate_guidance Double.pylib_double Double.api "depth"
                "edges.png" "a red fox" ∅ w [Byte.x01; Byte.x01; Byte.xff])
      as (url & payload & Hsent & _ & Hdefault).
    + eexists. reflexivity.
    + reflexivity.
    + exists url, payload. split; [exact Hsent |].
      destruct (Hdefault eq_refl) as (guidance & Hin & Hg).
      unfold guidance_table in Hin.
      apply elem_of_cons in Hin as [Hin | Hin]; [discriminate |].
      apply elem_of_cons in Hin as [Hin | Hin]; [injection Hin as ->; exact Hg |].
      apply elem_of_cons in Hin as [Hin | Hin]; [discriminate | inversion Hin].
  - destruct (@control_generate_guidance Double.pylib_double Double.api "depth"
                "edges.png" "a red fox" {[ "guidance" := VInt 40 ]} w
                [Byte.x01; Byte.x01; Byte.xff])
      as (url & payload & Hsent & Hexplicit & _).
    + eexists. reflexivity.
    + reflexivity.
    + exists url, payload. split; [exact Hsent | apply Hexplicit; reflexivity].
Defined.

Lemma control_generate_guidance_none_witness :
  let w := with_files {[ "edges.png" := [Byte.x01; Byte.x01; Byte.xff] ]}
             (Double.quiet_world (λ _, Double.ready_answer)) in
  ∃ url payload,
    submissions (@control_generate Double.pylib_double Double.api "canny" "edges.png"
                   "a red fox" (<[ "steps" := VInt 50 ]> {[ "guidance" := VNone ]}) w).2
    = [(url, payload)] ∧
    payload !! "guidance" = Some VNone.
Proof.
  intros w.
  destruct (@control_generate_guidance_none Double.pylib_double Double.api "canny"
              "edges.png" "a red fox" (<[ "steps" := VInt 50 ]> {[ "guidance" := VNone ]})
              w [Byte.x01; Byte.x01; Byte.xff])
    as (url & payload & Hsent & Hnone & _).
  - eexists. reflexivity.
  - reflexivity.
  - reflexivity.
  - exists url, payload. split; [exact Hsent | exact Hnone].
Defined.

(** ** Claims on masks *)

Section Masks.
Context `{Pillow}.

Lemma Image_new_ok mode width height color :
  0 ≤ width < 2 ^ 31 → 0 ≤ height < 2 ^ 31 →
  Image_allocates mode (width, height) = true →
  Image_new mode (width, height) color
  = Ok {| mode := mode; size := (width, height); getpixel := λ _ _, [color] |}.
Proof.
  intros Hw Hh Hfits. unfold Image_new. cbn [fst snd]. rewrite Hfits.
  destruct (Z.ltb_spec width 0); [lia |].
  destruct (Z.ltb_spec height 0); [lia |].
  destruct (Z.leb_spec (2 ^ 31) width); [lia |].
  destruct (Z.leb_spec (2 ^ 31) height); [lia |]. reflexivity.
Qed.

(** [n * x] raises nothing for an integer that a double holds. *)
Lemma int_mul_float_ok n x :
  0 ≤ n < 2 ^ 53 → int_mul_float n x = Ok (SFmul 53 1024 (float_of_int n) x).
Proof.
  intros Hn. unfold int_mul_float.
  destruct (Z.eq_dec n 0) as [-> | Hnz]; [reflexivity |].
  destruct (float_of_int_exact n ltac:(lia)) as (m & e & -> & _). reflexivity.
Qed.

Lemma paint_two_valued covers fill mask :
  (∀ x y, getpixel mask x y = [0] ∨ getpixel mask x y = [fill]) →
  ∀ x y, getpixel (paint covers fill mask) x y = [0]
         ∨ getpixel (paint covers fill mask) x y = [fill].
Proof. intros Hmask x y. simpl. destruct (covers x y); auto. Qed.

(** The mask once the blank image is there: the lengths are below
    [2 ^ 31] and their products with the literals raise nothing. *)
Lemma create_mask_painted (width height : Z) (shape position : string) :
  0 ≤ width < 2 ^ 31 → 0 ≤ height < 2 ^ 31 →
  Image_allocates "L" (width, height) = true →
  ∃ covers,
    create_mask (width, height) shape position
    = Ok (paint covers 255
            {| mode := "L"; size := (width, height); getpixel := λ _ _, [0] |}).
Proof.
  intros Hw Hh Hfits. unfold create_mask.
  rewrite Image_new_ok by assumption. cbn [mbind outcome_bind mret outcome_ret].
  assert (Hw53 : 0 ≤ width < 2 ^ 53) by lia.
  assert (Hh53 : 0 ≤ height < 2 ^ 53) by lia.
  destruct (String.eqb position "ground");
    [| destruct (String.eqb shape "rectangle")];
    rewrite ?int_mul_float_ok by assumption;
    cbn [mbind outcome_bind mret outcome_ret]; eexists; reflexivity.
Qed.

(** C9. For every size from one pixel to [2 ^ 31 - 1] pixels each way
    that Pillow finds the memory for, and every shape and position,
    [create_mask] returns (it raises nothing) an image of mode ['L'],
    hence of a single band, with the very size it was given, whose pixels
    all hold the single value 0 or the single value 255; and as a step of
    a computation it yields that same image in every world and leaves the
    world as it was. A side of [2 ^ 31] pixels or more raises
    [OverflowError], and a size that cannot be allocated [MemoryError]. *)
Theorem create_mask_valid (width height : Z) (shape position : string) :
  1 ≤ width → 1 ≤ height →
  (width < 2 ^ 31 → height < 2 ^ 31 → Image_allocates "L" (width, height) = true →
   ∃ mask,
     create_mask (width, height) shape position = Ok mask ∧
     mode mask = "L" ∧
     size mask = (width, height) ∧
     (∀ x y, getpixel mask x y = [0] ∨ getpixel mask x y = [255]) ∧
     (∀ w, lift (create_mask (width, height) shape position) w = (Ok mask, w))) ∧
  (2 ^ 31 ≤ width ∨ 2 ^ 31 ≤ height →
   create_mask (width, height) shape position = Raise OverflowError) ∧
  (width < 2 ^ 31 → height < 2 ^ 31 → Image_allocates "L" (width, height) = false →
   create_mask (width, height) shape position = Raise MemoryError).
Proof.
  intros Hw Hh. split; [| split].
  - intros Hw' Hh' Hfits.
    destruct (create_mask_painted width height shape position) as [covers Hmask];
      [lia | lia | exact Hfits |].
    eexists. split; [exact Hmask |]. split; [reflexivity |]. split; [reflexivity |].
    split; [apply paint_two_valued; intros x y; left; reflexivity |].
    intros w. unfold lift. rewrite Hmask. reflexivity.
  - intros Hbig. unfold create_mask, Image_new. cbn [fst snd].
    destruct (Z.ltb_spec width 0); [lia |].
    destruct (Z.ltb_spec height 0); [lia |].
    destruct (Z.leb_spec (2 ^ 31) width), (Z.leb_spec (2 ^ 31) height);
      try reflexivity; lia.
  - intros Hw' Hh' Hfits. unfold create_mask, Image_new. cbn [fst snd]. rewrite Hfits.
    destruct (Z.ltb_spec width 0); [lia |].
    destruct (Z.ltb_spec height 0); [lia |].
    destruct (Z.leb_spec (2 ^ 31) width); [lia |].
    destruct (Z.leb_spec (2 ^ 31) height); [lia |]. reflexivity.
Qed.

(** Further facts on the geometry, on the integer side. With
    [position = 'ground'] the shape is not looked at. *)
Lemma create_mask_ground_ignores_shape size shape shape' :
  create_mask size shape "ground" = create_mask size shape' "ground".
Proof. reflexivity. Qed.

(** Centred, any shape but ['rectangle']: the ellipse is asked for in the
    square of half-side [min(w, h) // 4] around [(w // 2, h // 2)]. *)
Lemma create_mask_circle width height shape position :
  0 ≤ width < 2 ^ 31 → 0 ≤ height < 2 ^ 31 →
  Image_allocates "L" (width, height) = true →
  String.eqb position "ground" = false →
  String.eqb shape "rectangle" = false →
  let r := Z.min width height / 4 in
  create_mask (width, height) shape position
  = Ok (paint (ellipse_covers [VInt (width / 2 - r); VInt (height / 2 - r);
                               VInt (width / 2 + r); VInt (height / 2 + r)]) 255
          {| mode := "L"; size := (width, height); getpixel := λ _ _, [0] |}).
Proof.
  intros Hw Hh Hfits Hp Hs r. unfold create_mask.
  rewrite Image_new_ok by assumption. cbn [mbind outcome_bind]. rewrite Hp, Hs.
  rewrite !int_mul_float_ok by lia. reflexivity.
Qed.

End Masks.

Lemma create_mask_valid_witness :
  ∃ mask,
    @create_mask Double.pillow_double (800, 600) "circle" "center" = Ok mask ∧
    mode mask = "L" ∧
    size mask = (800, 600) ∧
    (∀ x y, getpixel mask x y = [0] ∨ getpixel mask x y = [255]) ∧
    (∀ w, lift (@create_mask Double.pillow_double (800, 600) "circle" "center") w
          = (Ok mask, w)).
Proof.
  destruct (@create_mask_valid Double.pillow_double 800 600 "circle" "center")
    as [Hvalid _]; [lia | lia |].
  apply Hvalid; [lia | lia | reflexivity].
Defined.

(** Without the upper bound the property fails: a mask [2 ^ 31] pixels wide
    and one high is refused. *)
Lemma create_mask_valid_counterexample :
  1 ≤ 2147483648 ∧ 1 ≤ 1 ∧
  @create_mask Double.pillow_double (2147483648, 1) "circle" "center"
  = Raise OverflowError.
Proof. split; [lia |]. split; [lia |]. reflexivity. Defined.

(** ** Claims on the result pipeline *)

Section Pipeline.
Context `{Pillow} `{PyLib}.

(** The conversion fails only with exceptions that [except Exception]
    catches. *)
Lemma convert_to_webp_raises image_bytes save_format e :
  convert_to_webp image_bytes save_format = Raise e → is_Exception e = true.
Proof.
  unfold convert_to_webp, pillow.
  destruct (Image_open image_bytes) as [what | img];
    cbn [mbind outcome_bind mret outcome_ret]; [intros [= <-]; reflexivity |].
  destruct (String.eqb (mode img) "P"
            || String.eqb save_format "png" && str_contains "A" (mode img));
    match goal with
    | |- context [Image_convert ?i ?m] =>
        destruct (Image_convert i m) as [what | img'];
        cbn [mbind outcome_bind mret outcome_ret]; [intros [= <-]; reflexivity |]
    end;
    (destruct (Image_save img' "WEBP" (Some 90)) as [what | data];
     cbn [mbind outcome_bind mret outcome_ret];
     [intros [= <-]; reflexivity | discriminate]).
Qed.

Lemma detect_save_format_cases response :
  detect_save_format response = "png" ∨ detect_save_format response = "gif"
  ∨ detect_save_format response = "jpeg".
Proof.
  unfold detect_save_format.
  destruct (String.eqb_spec (str_lower (split_last "/" (default "image/jpeg"
                               (content_type response))).2) "png") as [-> | _];
    [left; reflexivity |].
  destruct (String.eqb_spec (str_lower (split_last "/" (default "image/jpeg"
                               (content_type response))).2) "gif") as [-> | _];
    [right; left; reflexivity | right; right; reflexivity].
Qed.

Lemma detect_save_format_not_webp response :
  String.eqb (detect_save_format response) "webp" = false.
Proof.
  destruct (detect_save_format_cases response) as [-> | [-> | ->]]; reflexivity.
Qed.

(** When the conversion fails, the final image is the downloaded one,
    after a warning. *)
Lemma final_image_fallback image_bytes save_format output_path fetch_base64 e w :
  truthy (of_opt_str output_path) || fetch_base64 = true →
  convert_to_webp image_bytes save_format = Raise e →
  final_image image_bytes save_format output_path fetch_base64 true w
  = (Ok (save_format, image_bytes),
     with_stderr (stderr w ++ [[Lit "Warning: Failed to convert image to WebP: ";
                                InterpExn e; Lit ". Serving original format."]]) w).
Proof.
  intros Hmode Hfail. unfold final_image. rewrite Hmode. cbn [andb].
  unfold try_except, lift. rewrite Hfail, (convert_to_webp_raises _ _ _ Hfail).
  reflexivity.
Qed.

(** The three output modes end with a value or with [SystemExit]. *)
Lemma emit_no_Exception image_url output_path fetch_base64 final_format data w e :
  (emit image_url output_path fetch_base64 final_format data w).1 = Raise e →
  is_Exception e = false.
Proof.
  unfold emit.
  destruct (truthy (of_opt_str output_path)); [| destruct fetch_base64; discriminate].
  unfold try_except, os_makedirs, write_file, mbind, Run_bind, mret, Run_ret.
  destruct (writable w (os_path_dirname _)).
  - destruct (writable w (os_path_abspath _)); [discriminate |].
    cbn. intros [= <-]. reflexivity.
  - cbn. intros [= <-]. reflexivity.
Qed.

(** What the lines on stderr are has no bearing on what is emitted. *)
Lemma emit_stderr image_url output_path fetch_base64 final_format data lines w :
  let a := emit image_url output_path fetch_base64 final_format data
             (with_stderr lines w) in
  let b := emit image_url output_path fetch_base64 final_format data w in
  a.1 = b.1 ∧ files a.2 = files b.2 ∧ http_log a.2 = http_log b.2.
Proof.
  unfold emit.
  destruct (truthy (of_opt_str output_path));
    [| destruct fetch_base64; repeat split; reflexivity].
  unfold try_except, os_makedirs, write_file, mbind, Run_bind, mret, Run_ret.
  cbn [writable with_stderr].
  repeat match goal with
         | |- context [if writable w ?p then _ else _] => destruct (writable w p); cbn
         end;
    repeat split; reflexivity.
Qed.

(** The whole function once the image is downloaded. *)
Lemma handle_image_url_downloaded image_url output_path fetch_base64 to_webp w response :
  downloads w image_url = Some response →
  let w1 := with_http_log (http_log w ++ [HttpDownload image_url]) w in
  let converted := final_image (content response) (detect_save_format response)
                     output_path fetch_base64 to_webp w1 in
  ∀ final_format data,
    converted.1 = Ok (final_format, data) →
    handle_image_url image_url output_path fetch_base64 to_webp w
    = emit image_url output_path fetch_base64 final_format data converted.2.
Proof.
  intros Hdl w1 converted final_format data Hconv.
  unfold handle_image_url, try_except.
  unfold mbind at 1. unfold Run_bind at 1. unfold requests_download. rewrite Hdl.
  unfold mbind at 1. unfold Run_bind at 1.
  fold w1. fold converted.
  destruct converted as [o w2]. simpl in Hconv. subst o. cbn [snd].
  destruct (emit image_url output_path fetch_base64 final_format data w2)
    as [[s | e] w3] eqn:Hemit; [reflexivity |].
  rewrite (emit_no_Exception image_url output_path fetch_base64 final_format data w2 e)
    by (rewrite Hemit; reflexivity).
  reflexivity.
Qed.

(** C8. When a conversion to WebP is requested in a mode that produces
    bytes (a truthy output path, or base64) and the conversion raises, the
    run gives the same result, the same files and the same HTTP calls as
    the run without conversion. In base64 mode it returns the format
    detected from the content type and the downloaded bytes; in save mode
    with a writable destination it writes the downloaded bytes at the
    path asked for, its extension untouched. *)
Theorem conversion_failure_falls_back image_url output_path fetch_base64 w response e :
  downloads w image_url = Some response →
  truthy (of_opt_str output_path) || fetch_base64 = true →
  convert_to_webp (content response) (detect_save_format response) = Raise e →
  let run := handle_image_url image_url output_path fetch_base64 true w in
  let plain := handle_image_url image_url output_path fetch_base64 false w in
  (run.1 = plain.1 ∧ files run.2 = files plain.2 ∧ http_log run.2 = http_log plain.2) ∧
  (truthy (of_opt_str output_path) = false →
   run.1 = Ok (json_dumps
                 (<[ "status" := VStr "success" ]>
                 (<[ "format" := VStr (detect_save_format response) ]>
                 (<[ "data" := VStr (b64encode (content response)) ]> ∅))))) ∧
  (∀ path, output_path = Some path → path ≠ "" →
   writable w (os_path_dirname (os_path_abspath path)) = true →
   writable w (os_path_abspath path) = true →
   run.1 = Ok (json_dumps
                 (<[ "status" := VStr "saved" ]>
                 (<[ "path" := VStr (os_path_abspath path) ]> ∅))) ∧
   files run.2 !! os_path_abspath path = Some (content response)).
Proof.
  intros Hdl Hmode Hfail run plain.
  pose (w1 := with_http_log (http_log w ++ [HttpDownload image_url]) w).
  pose (warning := [Lit "Warning: Failed to convert image to WebP: ";
                    InterpExn e; Lit ". Serving original format."]).
  assert (Hrun : run = emit image_url output_path fetch_base64
                         (detect_save_format response) (content response)
                         (with_stderr (stderr w1 ++ [warning]) w1)).
  { subst run.
    rewrite (handle_image_url_downloaded _ _ _ _ _ _ Hdl
               (detect_save_format response) (content response));
      rewrite (final_image_fallback _ _ _ _ e) by assumption; reflexivity. }
  assert (Hplain : plain = emit image_url output_path fetch_base64
                             (detect_save_format response) (content response) w1).
  { subst plain.
    rewrite (handle_image_url_downloaded _ _ _ _ _ _ Hdl
               (detect_save_format response) (content response)); reflexivity. }
  split; [| split].
  - rewrite Hrun, Hplain. apply emit_stderr.
  - intros Hpath. rewrite Hpath in Hmode. cbn [orb] in Hmode. subst fetch_base64.
    rewrite Hrun. unfold emit. rewrite Hpath. reflexivity.
  - intros path -> Hne Hdir Hfile.
    rewrite Hrun. unfold emit.
    assert (truthy (of_opt_str (Some path)) = true) as ->.
    { cbn. destruct (String.eqb_spec path ""); [contradiction | reflexivity]. }
    rewrite detect_save_format_not_webp. cbn [default].
    unfold try_except, os_makedirs, write_file, mbind, Run_bind, mret, Run_ret.
    cbn [writable with_stderr]. subst w1. cbn [writable with_http_log].
    change (id path) with path.
    rewrite Hdir. cbn [writable with_stderr with_http_log]. rewrite Hfile.
    cbn [fst snd files with_files with_stderr].
    split; [reflexivity | apply lookup_insert_eq].
Qed.

End Pipeline.

Lemma conversion_failure_falls_back_witness :
  let corrupt := [Byte.x02; Byte.x02; Byte.xff] in
  let w := Double.serving "https://cdn/img.png"
             (HttpResponse (Some "image/PNG") corrupt) in
  (@handle_image_url Double.pillow_double Double.pylib_double
     "https://cdn/img.png" None true true w).1
  = Ok (Double.dumps (<[ "status" := VStr "success" ]>
                     (<[ "format" := VStr "png" ]>
                     (<[ "data" := VStr "0202ff" ]> ∅)))) ∧
  files (@handle_image_url Double.pillow_double Double.pylib_double
           "https://cdn/img.png" (Some "out/fox.png") false true w).2
    !! "/out/fox.png" = Some corrupt.
Proof.
  intros corrupt w. split.
  - destruct (@conversion_failure_falls_back Double.pillow_double Double.pylib_double
                "https://cdn/img.png" None true w
                (HttpResponse (Some "image/PNG") corrupt)
                (ImageError "image file is truncated"))
      as (_ & Hbase64 & _).
    + reflexivity.
    + reflexivity.
    + reflexivity.
    + apply Hbase64. reflexivity.
  - destruct (@conversion_failure_falls_back Double.pillow_double Double.pylib_double
                "https://cdn/img.png" (Some "out/fox.png") false w
                (HttpResponse (Some "image/PNG") corrupt)
                (ImageError "image file is truncated"))
      as (_ & _ & Hsave).
    + reflexivity.
    + reflexivity.
    + reflexivity.
    + apply (Hsave "out/fox.png"); [reflexivity | discriminate | reflexivity | reflexivity].
Defined.

(** ** Further facts on image-to-image dimensions

    The rescaling of [img2img] runs on floats and through libm's [pow]:
    what is sent at or below the ceiling, the bounds on what is sent
    above it, and one run of it. *)

Section Dimensions.
Context `{PyLib}.

(** Dimensions at or below the ceiling are sent as they are: the
    requested ones when both are given, the source's otherwise. *)
Lemma img2img_dimensions_within orig_width orig_height width height :
  orig_width ≠ 0 →
  let chosen := match width, height with
                | Some w, Some h => (w, h)
                | _, _ => (orig_width, orig_height)
                end in
  chosen.1 * chosen.2 ≤ 1048576 →
  img2img_dimensions (orig_width, orig_height) width height = Ok chosen.
Proof.
  intros Hw chosen Harea. unfold img2img_dimensions, int_truediv.
  destruct (Z.eqb_spec orig_width 0) as [| _]; [contradiction |].
  cbn [mbind outcome_bind mret outcome_ret].
  destruct width as [w|], height as [h|]; cbn in chosen, Harea |- *;
    match goal with
    | |- context [1048576 <? ?a] => destruct (Z.ltb_spec 1048576 a); [lia | reflexivity]
    end.
Qed.

Lemma normal_finite lo hi x : normal lo hi x → ∃ m e, x = S754_finite false m e.
Proof. intros (m & e & -> & _). eauto. Qed.

(** Above the ceiling, for a source of less than [2 ^ 31] pixels each way
    and a [pow] that is accurate at the quotient: the two lengths are the
    truncations the code computes, their product is within the ceiling,
    the height is within one pixel below the width times the source's
    ratio, and the width is the root of [1048576 * W / H] to within a
    part in [2 ^ 49]. *)
Lemma img2img_dimensions_rescaled sw sh width height :
  1 ≤ sw < 2 ^ 31 → 1 ≤ sh < 2 ^ 31 →
  let chosen := match width, height with
                | Some w', Some h' => (w', h')
                | _, _ => (sw, sh)
                end in
  1048576 < chosen.1 * chosen.2 →
  let ratio := SFdiv 53 1024 (float_of_int sh) (float_of_int sw) in
  let quotient := SFdiv 53 1024 (float_of_int 1048576) ratio in
  let root := libm_pow quotient (float_lit 5 10) in
  sqrt_accurate quotient root →
  ∃ nw nh,
    img2img_dimensions (sw, sh) width height = Ok (nw, nh) ∧
    int_of_float root = Ok nw ∧
    int_mul_float nw ratio ≫= int_of_float = Ok nh ∧
    0 ≤ nw ∧ 0 ≤ nh ∧
    nw * nh ≤ 1048576 ∧
    nw * sh - sw ≤ nh * sw ≤ nw * sh ∧
    2 ^ 49 * (nw * nw * sh) ≤ (2 ^ 49 + 1) * (1048576 * sw) ∧
    (2 ^ 49 - 1) * (1048576 * sw) ≤ 2 ^ 49 * ((nw + 1) * (nw + 1) * sh).
Proof.
  intros HW HH chosen Harea ratio quotient root [(ms & es & Hs) [Hacc Hacc']].
  subst root.
  destruct (F2Q_float_of_int sh ltac:(lia)) as [HnH HqH].
  destruct (F2Q_float_of_int sw ltac:(lia)) as [HnW HqW].
  destruct (F2Q_float_of_int 1048576 ltac:(lia)) as [HnA HqA].
  destruct (SFdiv_close _ _ _ _ _ _ HnH HnW ltac:(lia) ltac:(lia)) as [Hnr Hr].
  fold ratio in Hnr, Hr.
  destruct (SFdiv_close _ _ _ _ _ _ HnA Hnr ltac:(lia) ltac:(lia)) as [Hnk Hk].
  fold quotient in Hnk, Hk.
  unfold close in Hr, Hk. rewrite HqH, HqW in Hr. rewrite HqA in Hk.
  fold (close (F2Q ratio * inject_Z sw) (inject_Z sh)) in Hr.
  change (inject_Z 1048576) with 1048576%Q in Hk.
  fold (close (F2Q quotient * F2Q ratio) 1048576) in Hk.
  destruct (int_of_float_floor ms es) as (nw & Hint & Hnw & Hfloor & Hfloor').
  rewrite <- Hs in Hint, Hfloor, Hfloor'.
  set (h := inject_Z sh) in *. set (w := inject_Z sw) in *. set (a := inject_Z nw) in *.
  set (r := F2Q ratio) in *. set (k := F2Q quotient) in *.
  set (s := F2Q (libm_pow quotient (float_lit 5 10))) in *.
  assert (Hh : (1 <= h)%Q) by (subst h; change 1%Q with (inject_Z 1); rewrite <- Zle_Qle; lia).
  assert (Hh' : (h <= 2147483648)%Q)
    by (subst h; change 2147483648%Q with (inject_Z 2147483648); rewrite <- Zle_Qle; lia).
  assert (Hw : (1 <= w)%Q) by (subst w; change 1%Q with (inject_Z 1); rewrite <- Zle_Qle; lia).
  assert (Hw' : (w <= 2147483648)%Q)
    by (subst w; change 2147483648%Q with (inject_Z 2147483648); rewrite <- Zle_Qle; lia).
  assert (Ha : (0 <= a)%Q) by (subst a; change 0%Q with (inject_Z 0); rewrite <- Zle_Qle; lia).
  pose proof (width_upper h w a r k s) as Hup.
  pose proof (width_lower h w a r k s) as Hlow.
  pose proof (width_height_bound h w a r k s) as Hah.
  repeat match goal with
         | sh : ?P → _ |- _ =>
             let HP := fresh in assert (HP : P) by assumption; specialize (sh HP); clear HP
         end.
  (* the conclusions on the width, as integers *)
  assert (Hwidth : 2 ^ 49 * (nw * nw * sh) ≤ (2 ^ 49 + 1) * (1048576 * sw)).
  { rewrite Zle_Qle, !inject_Z_mult.
    change (inject_Z (2 ^ 49)) with 562949953421312%Q.
    change (inject_Z (2 ^ 49 + 1)) with 562949953421313%Q.
    change (inject_Z 1048576) with 1048576%Q.
    fold h w a. lra. }
  assert (Hwidth' : (2 ^ 49 - 1) * (1048576 * sw) ≤ 2 ^ 49 * ((nw + 1) * (nw + 1) * sh)).
  { rewrite Zle_Qle, !inject_Z_mult, !inject_Z_plus.
    change (inject_Z (2 ^ 49)) with 562949953421312%Q.
    change (inject_Z (2 ^ 49 - 1)) with 562949953421311%Q.
    change (inject_Z 1048576) with 1048576%Q. change (inject_Z 1) with 1%Q.
    fold h w a. lra. }
  assert (Hnw53 : nw < 2 ^ 53).
  { assert (Hq : (a <= 4398046511104)%Q) by nra.
    subst a. change 4398046511104%Q with (inject_Z 4398046511104) in Hq.
    rewrite <- Zle_Qle in Hq. lia. }
  destruct (normal_finite _ _ _ Hnr) as (mr & er & Hratio).
  assert (Hrun : ∀ nh,
            (int_mul_float nw ratio ≫= int_of_float) = Ok nh →
            img2img_dimensions (sw, sh) width height = Ok (nw, nh)).
  { intros nh Hnh. unfold img2img_dimensions.
    replace (match width with
             | Some w0 => match height with Some h0 => (w0, h0) | None => (sw, sh) end
             | None => (sw, sh)
             end) with chosen by (subst chosen; destruct width, height; reflexivity).
    destruct chosen as [cw ch]. cbn [fst snd] in Harea.
    unfold int_truediv. destruct (Z.eqb_spec sw 0); [lia |].
    cbn [mbind outcome_bind]. destruct (Z.ltb_spec 1048576 (cw * ch)); [| lia].
    fold ratio. unfold int_div_float. rewrite Hratio. rewrite <- Hratio.
    cbn [mbind outcome_bind]. fold quotient. rewrite Hint.
    cbn [mbind outcome_bind] in Hnh |- *.
    destruct (int_mul_float nw ratio) as [product |]; [| discriminate Hnh].
    cbn [mbind outcome_bind] in Hnh |- *. rewrite Hnh. reflexivity. }
  destruct (Z.eq_dec nw 0) as [-> | Hnz].
  - exists 0, 0. split; [apply Hrun; rewrite Hratio; reflexivity |].
    split; [exact Hint |]. split; [rewrite Hratio; reflexivity |].
    repeat split; lia.
  - destruct (F2Q_float_of_int nw ltac:(lia)) as [Hna Hqa].
    destruct (SFmul_close _ _ _ _ _ _ Hna Hnr ltac:(lia) ltac:(lia)) as [Hnp Hp].
    destruct (normal_finite _ _ _ Hnp) as (mp & ep & Hproduct).
    destruct (int_of_float_floor mp ep) as (nh & Hint' & Hnh & Hfl & Hfl').
    rewrite <- Hproduct in Hint', Hfl, Hfl'.
    unfold close in Hp. rewrite Hqa in Hp. fold a r in Hp.
    fold (close (F2Q (SFmul 53 1024 (float_of_int nw) ratio)) (a * r)) in Hp.
    set (p := F2Q (SFmul 53 1024 (float_of_int nw) ratio)) in *.
    set (b := inject_Z nh) in *.
    assert (Hb : (0 <= b)%Q)
      by (subst b; change 0%Q with (inject_Z 0); rewrite <- Zle_Qle; lia).
    pose proof (height_upper h w a b r k s p) as Hhu.
    pose proof (height_lower h w a b r k s p) as Hhl.
    pose proof (area_bound h w a b r k s p) as Hab.
    repeat match goal with
           | sh : ?P → _ |- _ =>
               let HP := fresh in assert (HP : P) by assumption; specialize (sh HP); clear HP
           end.
    assert (Hle : nh * sw ≤ nw * sh).
    { assert (Hlt : nh * sw < nw * sh + 1); [| lia].
      rewrite Zlt_Qlt, inject_Z_plus, !inject_Z_mult. exact Hhu. }
    assert (Hge : nw * sh - sw ≤ nh * sw).
    { assert (Hlt : nw * sh - sw - 1 < nh * sw); [| lia].
      assert (Hlt' : nw * sh < nh * sw + sw + 1); [| lia].
      rewrite Zlt_Qlt, !inject_Z_plus, !inject_Z_mult. fold h w a b.
      change (inject_Z 1) with 1%Q. lra. }
    assert (Harea' : nw * nh ≤ 1048576).
    { assert (Hlt : nw * nh < 1048577); [| lia].
      rewrite Zlt_Qlt, inject_Z_mult. apply Hab.
      unfold b, w, a, h. rewrite <- !inject_Z_mult, <- Zle_Qle. exact Hle. }
    assert (Hmul : int_mul_float nw ratio ≫= int_of_float = Ok nh).
    { unfold int_mul_float. destruct Hna as (mn & en & Hfn & _). rewrite Hfn.
      cbn [mbind outcome_bind]. rewrite <- Hfn. exact Hint'. }
    exists nw, nh. split; [apply Hrun; exact Hmul |].
    split; [exact Hint |]. split; [exact Hmul |].
    repeat split; lia.
Qed.

End Dimensions.

(** With a correctly rounded [pow], a 19 by 45 source asked for at
    2000 by 2000 is sent as 665 by 1574: the quotient [45 / 19] is rounded
    before [665 * (45 / 19)] is truncated. *)
Example img2img_dimensions_rounding :
  @img2img_dimensions Double.pylib_double (19, 45) (Some 2000) (Some 2000)
  = Ok (665, 1574).
Proof. vm_compute. reflexivity. Qed.

(** The inpainting scenario of the specification: on a 800 by 600 source
    the disc is asked for in the box from (250, 150) to (550, 450). *)
Example create_mask_800_600 `{Pillow} :
  Image_allocates "L" (800, 600) = true →
  create_mask (800, 600) "circle" "center"
  = Ok (paint (ellipse_covers [VInt 250; VInt 150; VInt 550; VInt 450]) 255
          {| mode := "L"; size := (800, 600); getpixel := λ _ _, [0] |}).
Proof.
  intros Hfits.
  apply (create_mask_circle 800 600 "circle" "center"); (lia || reflexivity || exact Hfits).
Qed.

(** * Further properties

    What follows covers the rest of the module: the remaining behaviour of
    the methods above, [save_image_from_url], and [main]. *)

(** ** Steps of a computation *)

Lemma run_bind_ok {A B : Type} (m : Run A) (f : A → Run B) w a w' :
  m w = (Ok a, w') → (m ≫= f) w = f a w'.
Proof. intros Hm. unfold mbind, Run_bind. rewrite Hm. reflexivity. Qed.

Lemma run_bind_raise {A B : Type} (m : Run A) (f : A → Run B) w e w' :
  m w = (Raise e, w') → (m ≫= f) w = (Raise e, w').
Proof. intros Hm. unfold mbind, Run_bind. rewrite Hm. reflexivity. Qed.

(** ** More on polling *)

Lemma attempt_lines_silent n : ∀ attempt, attempt_lines true n attempt = [].
Proof. induction n as [|n IH]; intros attempt; simpl; [reflexivity | apply IH]. Qed.

Lemma attempt_lines_numbered n : ∀ attempt,
  attempt_lines false n attempt
  = map (λ i : nat, attempt_line (attempt + Z.of_nat i)) (seq 0 n).
Proof.
  induction n as [|n IH]; intros attempt; [reflexivity |].
  cbn [attempt_lines seq map app]. rewrite Z.add_0_r. f_equal.
  rewrite IH, <- seq_shift, map_map. apply map_ext. intros i. f_equal. lia.
Qed.

Lemma query_round_log self task_id silent attempt w :
  http_log (query_round self task_id silent attempt w)
  = http_log w ++ [HttpGet (base_url self +:+ "/v1/get_result") {[ "id" := task_id ]}].
Proof. unfold query_round. destruct silent; reflexivity. Qed.

Lemma query_round_files self task_id silent attempt w :
  files (query_round self task_id silent attempt w) = files w.
Proof. unfold query_round. destruct silent; reflexivity. Qed.

Lemma idle_rounds_log self task_id silent n : ∀ attempt w,
  http_log (idle_rounds self task_id silent n attempt w)
  = http_log w
    ++ replicate n (HttpGet (base_url self +:+ "/v1/get_result") {[ "id" := task_id ]}).
Proof.
  induction n as [|n IH]; intros attempt w; cbn [idle_rounds replicate].
  - symmetry. apply app_nil_r.
  - rewrite IH.
    change (http_log (idle_round self task_id silent attempt w))
      with (http_log (query_round self task_id silent attempt w)).
    rewrite query_round_log, <- app_assoc. reflexivity.
Qed.

Lemma idle_rounds_files self task_id silent n : ∀ attempt w,
  files (idle_rounds self task_id silent n attempt w) = files w.
Proof.
  induction n as [|n IH]; intros attempt w; cbn [idle_rounds]; [reflexivity |].
  rewrite IH.
  change (files (idle_round self task_id silent attempt w))
    with (files (query_round self task_id silent attempt w)).
  apply query_round_files.
Qed.

Lemma poll_loop_missing_status self task_id silent remaining attempt w :
  status_script w 0%nat !! "status" = None →
  poll_loop self task_id silent (S remaining) attempt w
  = (Raise (KeyError "status"), query_round self task_id silent attempt w).
Proof.
  intros Hs. cbn [poll_loop]. unfold query_round.
  destruct silent; run_step; rewrite Hs; reflexivity.
Qed.

(** X1. When the provider, after [N < 30] answers in progress, sends an
    answer without a ['status'] key, [get_task_result] raises
    [KeyError('status')] right after that query: [N + 1] queries sent,
    [2 N] seconds slept. *)
Theorem get_task_result_missing_status self task_id silent w (N : nat) :
  (N < 30)%nat →
  (∀ i, (i < N)%nat → in_progress (status_script w i)) →
  status_script w N !! "status" = None →
  let run := get_task_result self task_id silent w in
  run.1 = Raise (KeyError "status") ∧
  status_queries run.2 = (status_queries w + (N + 1))%nat ∧
  slept run.2 = slept w + 2 * Z.of_nat N.
Proof.
  intros HN Hidle Hmissing run. subst run.
  rewrite (get_task_result_idle self task_id silent N (S (29 - N)) w)
    by (lia || exact Hidle).
  rewrite poll_loop_missing_status
    by (rewrite idle_rounds_script, Nat.add_0_r; exact Hmissing).
  cbn [fst snd]. split; [reflexivity |].
  rewrite query_round_queries, query_round_slept, idle_rounds_queries, idle_rounds_slept.
  change (status_queries (announced w)) with (status_queries w).
  change (slept (announced w)) with (slept w). split; lia.
Qed.

Lemma get_task_result_missing_status_witness :
  let w := Double.quiet_world (Double.after 1 (<[ "error" := VStr "boom" ]> ∅)) in
  let run := get_task_result Double.api (VStr "job-1") false w in
  run.1 = Raise (KeyError "status") ∧ status_queries run.2 = 2%nat ∧ slept run.2 = 2.
Proof.
  intros w run.
  apply (get_task_result_missing_status Double.api (VStr "job-1") false w 1).
  - lia.
  - intros i Hi. exists (VStr "Processing").
    destruct i as [|i]; [| lia]. split; [reflexivity | split; discriminate].
  - reflexivity.
Defined.

(** X2. What a run that meets its first terminal answer at query [N + 1]
    prints and how long it sleeps: after ["Processing image..."], one
    attempt line per query, numbered from 1, unless [silent]; then the
    failure line if the answer is ['failed'], nothing if it is ['Ready'];
    and [2 N] seconds of sleep, none after the terminal answer. *)
Theorem get_task_result_trace self task_id silent w (N : nat) :
  (N < 30)%nat →
  (∀ i, (i < N)%nat → in_progress (status_script w i)) →
  status_script w N !! "status" = Some (VStr "Ready")
  ∨ status_script w N !! "status" = Some (VStr "failed") →
  let run := get_task_result self task_id silent w in
  slept run.2 = slept w + 2 * Z.of_nat N ∧
  stderr run.2
  = stderr w ++ [[Lit "Processing image..."]]
    ++ (if silent then []
        else map (λ i : nat, [Lit "Processing image... (attempt ";
                              Interp (VInt (Z.of_nat i + 1)); Lit "/";
                              Interp (VInt 30); Lit ")"]) (seq 0 (N + 1)))
    ++ (if py_eq_str (default VNone (status_script w N !! "status")) "failed"
        then [task_failed_line (status_script w N)] else []).
Proof.
  intros HN Hidle Hterminal run. subst run.
  rewrite (get_task_result_idle self task_id silent N (S (29 - N)) w)
    by (lia || exact Hidle).
  assert (Hnext : status_script (idle_rounds self task_id silent N 0 (announced w)) 0%nat
                  = status_script w N).
  { rewrite idle_rounds_script, Nat.add_0_r. reflexivity. }
  assert (Hlines : attempt_lines silent N 0 ++ attempt_lines silent 1 (Z.of_nat N)
                   = if silent then []
                     else map (λ i : nat, [Lit "Processing image... (attempt ";
                                           Interp (VInt (Z.of_nat i + 1)); Lit "/";
                                           Interp (VInt 30); Lit ")"]) (seq 0 (N + 1))).
  { destruct silent.
    - rewrite !attempt_lines_silent. reflexivity.
    - rewrite !attempt_lines_numbered, seq_app, map_app. cbn [seq map].
      rewrite Z.add_0_r. reflexivity. }
  destruct Hterminal as [Hs | Hs].
  - rewrite poll_loop_ready by (rewrite Hnext; exact Hs). cbn [fst snd].
    rewrite query_round_slept, idle_rounds_slept, query_round_stderr, idle_rounds_stderr.
    rewrite Hs. cbn [default py_eq_str String.eqb Ascii.eqb Bool.eqb].
    split; [reflexivity |].
    unfold announced. cbn [stderr with_stderr].
    rewrite <- !app_assoc, app_nil_r. do 2 f_equal. exact Hlines.
  - rewrite poll_loop_failed by (rewrite Hnext; exact Hs). cbn [fst snd].
    change (slept (with_stderr ?l ?w0)) with (slept w0).
    change (stderr (with_stderr ?l ?w0)) with l.
    rewrite query_round_slept, idle_rounds_slept, query_round_stderr, idle_rounds_stderr.
    rewrite Hnext, Hs. cbn [default py_eq_str String.eqb Ascii.eqb Bool.eqb].
    split; [reflexivity |].
    unfold announced. cbn [stderr with_stderr].
    rewrite <- !app_assoc. do 2 f_equal. rewrite app_assoc, Hlines. reflexivity.
Qed.

Lemma get_task_result_trace_witness :
  let w := Double.quiet_world (Double.after 1 Double.failed_answer) in
  let run := get_task_result Double.api (VStr "job-1") true w in
  slept run.2 = 2 ∧
  stderr run.2 = [[Lit "Processing image..."];
                  [Lit "Task failed: "; Interp (VStr "content moderated")]].
Proof.
  intros w run.
  apply (get_task_result_trace Double.api (VStr "job-1") true w 1).
  - lia.
  - intros i Hi. exists (VStr "Processing").
    destruct i as [|i]; [| lia]. split; [reflexivity | split; discriminate].
  - right. reflexivity.
Defined.

Lemma poll_loop_only_queries self task_id silent remaining : ∀ attempt w,
  let run := poll_loop self task_id silent remaining attempt w in
  ∃ k : nat,
    (k ≤ remaining)%nat ∧
    http_log run.2
    = http_log w
      ++ replicate k (HttpGet (base_url self +:+ "/v1/get_result") {[ "id" := task_id ]}) ∧
    files run.2 = files w ∧
    slept w ≤ slept run.2 ≤ slept w + 2 * Z.of_nat k.
Proof.
  induction remaining as [|remaining IH]; intros attempt w run; subst run.
  - exists 0%nat. rewrite poll_loop_timeout. cbn. rewrite app_nil_r.
    repeat split; lia.
  - destruct (status_script w 0%nat !! "status") as [status|] eqn:Hs.
    + destruct (py_eq_str status "Ready") eqn:Hr.
      { apply py_eq_str_true in Hr. subst status. exists 1%nat.
        rewrite poll_loop_ready by exact Hs. cbn [fst snd replicate].
        rewrite query_round_log, query_round_files, query_round_slept.
        repeat split; lia. }
      destruct (py_eq_str status "failed") eqn:Hf.
      { apply py_eq_str_true in Hf. subst status. exists 1%nat.
        rewrite poll_loop_failed by exact Hs. cbn [fst snd replicate].
        change (http_log (with_stderr ?l ?w0)) with (http_log w0).
        change (files (with_stderr ?l ?w0)) with (files w0).
        change (slept (with_stderr ?l ?w0)) with (slept w0).
        rewrite query_round_log, query_round_files, query_round_slept.
        repeat split; lia. }
      apply py_eq_str_false in Hr, Hf.
      rewrite poll_loop_in_progress by (exists status; auto).
      destruct (IH (attempt + 1) (idle_round self task_id silent attempt w))
        as (k & Hk & Hlog & Hfiles & Hslept).
      exists (S k). split; [lia |].
      rewrite Hlog, Hfiles.
      rewrite idle_round_slept in Hslept.
      change (http_log (idle_round self task_id silent attempt w))
        with (http_log (query_round self task_id silent attempt w)).
      change (files (idle_round self task_id silent attempt w))
        with (files (query_round self task_id silent attempt w)).
      rewrite query_round_log, query_round_files, <- app_assoc.
      repeat split; try lia. 
    + exists 1%nat. rewrite poll_loop_missing_status by exact Hs.
      cbn [fst snd replicate].
      rewrite query_round_log, query_round_files, query_round_slept.
      repeat split; lia.
Qed.

(** X3. Whatever the provider answers, all [get_task_result] sends is at
    most 30 [GET]s of [<base_url>/v1/get_result] with the parameter [id]
    set to the task identifier; it touches no file and sleeps two seconds
    per query at most. *)
Theorem get_task_result_only_queries self task_id silent w :
  let run := get_task_result self task_id silent w in
  ∃ k : nat,
    (k ≤ 30)%nat ∧
    http_log run.2
    = http_log w
      ++ replicate k (HttpGet (base_url self +:+ "/v1/get_result") {[ "id" := task_id ]}) ∧
    files run.2 = files w ∧
    slept w ≤ slept run.2 ≤ slept w + 2 * Z.of_nat k.
Proof.
  intros run. subst run. rewrite get_task_result_unfold.
  exact (poll_loop_only_queries self task_id silent 30 0 (announced w)).
Qed.

(** ** More on the wait for a sample *)

Section Awaiting.
Variables (self : FluxAPI) (task_id : pyval) (silent : bool).

(** The run in full when the first terminal answer is ['Ready']. *)
Lemma get_task_result_ready_run w (N : nat) :
  (N < 30)%nat →
  (∀ i, (i < N)%nat → in_progress (status_script w i)) →
  status_script w N !! "status" = Some (VStr "Ready") →
  get_task_result self task_id silent w
  = (Ok (Some (status_script w N)),
     query_round self task_id silent (Z.of_nat N)
       (idle_rounds self task_id silent N 0 (announced w))).
Proof.
  intros HN Hidle Hs.
  rewrite (get_task_result_idle self task_id silent N (S (29 - N)) w)
    by (lia || exact Hidle).
  rewrite poll_loop_ready
    by (rewrite idle_rounds_script, Nat.add_0_r; exact Hs).
  rewrite idle_rounds_script, Nat.add_0_r. reflexivity.
Qed.

(** The same when it is ['failed']. *)
Lemma get_task_result_failed_run w (N : nat) :
  (N < 30)%nat →
  (∀ i, (i < N)%nat → in_progress (status_script w i)) →
  status_script w N !! "status" = Some (VStr "failed") →
  get_task_result self task_id silent w
  = (Ok None,
     let asked := query_round self task_id silent (Z.of_nat N)
                    (idle_rounds self task_id silent N 0 (announced w)) in
     with_stderr (stderr asked ++ [task_failed_line (status_script w N)]) asked).
Proof.
  intros HN Hidle Hs.
  rewrite (get_task_result_idle self task_id silent N (S (29 - N)) w)
    by (lia || exact Hidle).
  rewrite poll_loop_failed
    by (rewrite idle_rounds_script, Nat.add_0_r; exact Hs).
  rewrite idle_rounds_script, Nat.add_0_r. reflexivity.
Qed.

Lemma asked_log w (N : nat) :
  http_log (query_round self task_id silent (Z.of_nat N)
              (idle_rounds self task_id silent N 0 (announced w)))
  = http_log w
    ++ replicate (N + 1)
         (HttpGet (base_url self +:+ "/v1/get_result") {[ "id" := task_id ]}).
Proof.
  rewrite query_round_log, idle_rounds_log, <- app_assoc, Nat.add_1_r, replicate_S_end.
  reflexivity.
Qed.

End Awaiting.

Lemma truthy_dict_lookup (d : gmap string pyval) key v :
  d !! key = Some v → truthy (VDict d) = true.
Proof.
  intros Hd. cbn. rewrite bool_decide_eq_false_2; [reflexivity |].
  intros ->. rewrite lookup_empty in Hd. discriminate.
Qed.

(** The sample of a ['Ready'] answer. *)
Lemma sample_url_found (answer inner : gmap string pyval) sample w :
  answer !! "result" = Some (VDict inner) →
  inner !! "sample" = Some sample →
  truthy sample = true →
  sample_url (Some answer) w = (Ok sample, w).
Proof.
  intros Hr Hs Ht. unfold sample_url.
  rewrite (truthy_dict_lookup _ _ _ Hr), Hr. cbn [default]. unfold id.
  rewrite Hs. cbn [default]. unfold id. rewrite Ht. reflexivity.
Qed.

Section AwaitSample.
Variables (self : FluxAPI) (reply : gmap string pyval) (what : line).

Lemma await_sample_no_id w :
  truthy (default VNone (reply !! "id")) = false →
  await_sample self reply what w = (Ok VNone, with_stderr (stderr w ++ [what]) w).
Proof. intros Hid. unfold await_sample. rewrite Hid. reflexivity. Qed.

Lemma await_sample_polls w :
  truthy (default VNone (reply !! "id")) = true →
  await_sample self reply what w
  = (get_task_result self (default VNone (reply !! "id")) false ≫= sample_url) w.
Proof. intros Hid. unfold await_sample. rewrite Hid. reflexivity. Qed.

End AwaitSample.

(** ** More on text-to-image requests *)

Section Generate.
Variables (self : FluxAPI) (prompt model : string) (width height : option Z)
  (aspect_ratio : option string).

(** The request once the model is recognised: the submission, then the
    wait on the provider's reply. *)
Lemma generate_image_run w endpoint :
  model_endpoints !! model = Some endpoint →
  let url := base_url self +:+ endpoint in
  let payload := generate_payload prompt width height aspect_ratio in
  generate_image self prompt model width height aspect_ratio w
  = await_sample self (post_reply w url payload) [Lit "Failed to start generation task"]
      (with_http_log (http_log w ++ [HttpPost url payload (headers self)]) w).
Proof.
  intros Hm url payload. unfold generate_image. rewrite Hm.
  cbn [of_opt_str]. rewrite (model_endpoints_truthy _ _ Hm). cbn [negb default].
  reflexivity.
Qed.

(** X4. When the provider's reply to the submission has no ['id'], or a
    falsy one, [generate_image] returns [None] after the one submission:
    it prints ["Failed to start generation task"], sends no status query
    and does not sleep. *)
Theorem generate_image_no_job_id w endpoint :
  model_endpoints !! model = Some endpoint →
  truthy (default VNone
            (post_reply w (base_url self +:+ endpoint)
               (generate_payload prompt width height aspect_ratio) !! "id")) = false →
  let run := generate_image self prompt model width height aspect_ratio w in
  run.1 = Ok VNone ∧
  http_log run.2
  = http_log w ++ [HttpPost (base_url self +:+ endpoint)
                     (generate_payload prompt width height aspect_ratio) (headers self)] ∧
  stderr run.2 = stderr w ++ [[Lit "Failed to start generation task"]] ∧
  slept run.2 = slept w.
Proof.
  intros Hm Hid run. subst run.
  rewrite (generate_image_run w endpoint Hm). cbn zeta.
  rewrite await_sample_no_id by exact Hid. repeat split.
Qed.

(** X5. When the reply carries a truthy ['id'] and the first terminal
    answer, at query [N + 1 ≤ 30], is ['Ready'] with a truthy
    [result.sample], [generate_image] returns that sample; it has sent the
    submission and then [N + 1] status queries, each for the identifier of
    the reply. *)
Theorem generate_image_returns_sample w endpoint task_id (N : nat)
    (inner : gmap string pyval) sample :
  model_endpoints !! model = Some endpoint →
  post_reply w (base_url self +:+ endpoint)
    (generate_payload prompt width height aspect_ratio) !! "id" = Some task_id →
  truthy task_id = true →
  (N < 30)%nat →
  (∀ i, (i < N)%nat → in_progress (status_script w i)) →
  status_script w N !! "status" = Some (VStr "Ready") →
  status_script w N !! "result" = Some (VDict inner) →
  inner !! "sample" = Some sample →
  truthy sample = true →
  let run := generate_image self prompt model width height aspect_ratio w in
  run.1 = Ok sample ∧
  http_log run.2
  = http_log w
    ++ [HttpPost (base_url self +:+ endpoint)
          (generate_payload prompt width height aspect_ratio) (headers self)]
    ++ replicate (N + 1)
         (HttpGet (base_url self +:+ "/v1/get_result") {[ "id" := task_id ]}).
Proof.
  intros Hm Hid Htruthy HN Hidle Hready Hresult Hsample Hs run. subst run.
  rewrite (generate_image_run w endpoint Hm). cbn zeta.
  rewrite await_sample_polls by (rewrite Hid; exact Htruthy).
  rewrite Hid. cbn [default]. unfold id.
  erewrite run_bind_ok
    by (apply (get_task_result_ready_run self task_id false _ N); assumption).
  rewrite (sample_url_found _ inner sample) by assumption.
  cbn [fst snd]. split; [reflexivity |].
  rewrite asked_log. cbn [http_log with_http_log]. rewrite <- app_assoc. reflexivity.
Qed.
End Generate.

Lemma generate_image_no_job_id_witness :
  let run := generate_image Double.api "a red fox" "flux.1-dev" None None None
               Double.rejecting_world in
  run.1 = Ok VNone ∧
  http_log run.2
  = [HttpPost "https://api.bfl.ml/v1/flux-dev"
       (generate_payload "a red fox" None None None) {[ "X-Key" := "k" ]}] ∧
  stderr run.2 = [[Lit "Failed to start generation task"]] ∧
  slept run.2 = 0.
Proof.
  intros run.
  apply (generate_image_no_job_id Double.api "a red fox" "flux.1-dev" None None None
           Double.rejecting_world "/v1/flux-dev"); reflexivity.
Defined.

Lemma generate_image_returns_sample_witness :
  let w := Double.quiet_world (Double.after 2 Double.ready_answer) in
  let run := generate_image Double.api "a red fox" "flux.1.1-pro" None None None w in
  run.1 = Ok (VStr "https://cdn/img.jpg") ∧
  http_log run.2
  = [HttpPost "https://api.bfl.ml/v1/flux-pro-1.1"
       (generate_payload "a red fox" None None None) {[ "X-Key" := "k" ]}]
    ++ replicate 3 (HttpGet "https://api.bfl.ml/v1/get_result" {[ "id" := VStr "job-1" ]}).
Proof.
  intros w run.
  apply (generate_image_returns_sample Double.api "a red fox" "flux.1.1-pro" None None None
           w "/v1/flux-pro-1.1" (VStr "job-1") 2
           {[ "sample" := VStr "https://cdn/img.jpg" ]} (VStr "https://cdn/img.jpg"));
    try reflexivity.
  - lia.
  - intros i Hi. exists (VStr "Processing").
    destruct i as [|[|i]]; [| | lia]; (split; [reflexivity | split; discriminate]).
Defined.

Section GenerateFailures.
Variables (self : FluxAPI) (prompt model : string) (width height : option Z)
  (aspect_ratio : option string).

Lemma sample_url_none w : sample_url None w = (Ok VNone, w).
Proof. reflexivity. Qed.

Lemma sample_url_no_result (answer : gmap string pyval) w :
  answer !! "result" = None → sample_url (Some answer) w = (Ok VNone, w).
Proof.
  intros Hr. unfold sample_url. rewrite Hr. cbn [default].
  destruct (truthy (VDict answer)); [| reflexivity].
  rewrite lookup_empty. reflexivity.
Qed.

Lemma sample_url_no_sample (answer inner : gmap string pyval) w :
  answer !! "result" = Some (VDict inner) →
  truthy (default VNone (inner !! "sample")) = false →
  sample_url (Some answer) w = (Ok VNone, w).
Proof.
  intros Hr Hs. unfold sample_url. rewrite Hr.
  change (default (VDict ∅) (Some (VDict inner))) with (VDict inner).
  destruct (truthy (VDict answer)); [| reflexivity].
  rewrite Hs. reflexivity.
Qed.

Lemma sample_url_not_dict (answer : gmap string pyval) v w :
  answer !! "result" = Some v →
  (∀ inner, v ≠ VDict inner) →
  sample_url (Some answer) w = (Raise (AttributeError "get"), w).
Proof.
  intros Hr Hv. unfold sample_url.
  rewrite (truthy_dict_lookup _ _ _ Hr), Hr. cbn [default]. unfold id.
  destruct v; try reflexivity. exfalso. exact (Hv d eq_refl).
Qed.

(** X6. With a job identifier in the reply, [generate_image] returns
    [None], and raises nothing, whenever the job gives no sample: the
    first terminal answer is ['failed']; or it is ['Ready'] without a
    ['result'] key, or with a [result] whose ['sample'] is missing or
    falsy; or the 30 answers are all in progress. *)
Theorem generate_image_no_sample w endpoint task_id :
  model_endpoints !! model = Some endpoint →
  post_reply w (base_url self +:+ endpoint)
    (generate_payload prompt width height aspect_ratio) !! "id" = Some task_id →
  truthy task_id = true →
  (∀ i, (i < 30)%nat → in_progress (status_script w i))
  ∨ (∃ N : nat,
       (N < 30)%nat ∧
       (∀ i, (i < N)%nat → in_progress (status_script w i)) ∧
       (status_script w N !! "status" = Some (VStr "failed")
        ∨ status_script w N !! "status" = Some (VStr "Ready")
          ∧ (status_script w N !! "result" = None
             ∨ ∃ inner, status_script w N !! "result" = Some (VDict inner)
                        ∧ truthy (default VNone (inner !! "sample")) = false))) →
  (generate_image self prompt model width height aspect_ratio w).1 = Ok VNone.
Proof.
  intros Hm Hid Htruthy Hcases.
  rewrite (generate_image_run self prompt model width height aspect_ratio w endpoint Hm).
  cbn zeta.
  rewrite await_sample_polls by (rewrite Hid; exact Htruthy).
  rewrite Hid. cbn [default]. unfold id.
  destruct Hcases as [Hidle | (N & HN & Hidle & [Hfailed | [Hready Hsample]])].
  - erewrite run_bind_ok by (apply get_task_result_exhausted; exact Hidle).
    reflexivity.
  - erewrite run_bind_ok
      by (apply (get_task_result_failed_run self task_id false _ N); assumption).
    reflexivity.
  - erewrite run_bind_ok
      by (apply (get_task_result_ready_run self task_id false _ N); assumption).
    destruct Hsample as [Hnone | (inner & Hresult & Hfalsy)].
    + rewrite sample_url_no_result by exact Hnone. reflexivity.
    + rewrite (sample_url_no_sample _ inner) by assumption. reflexivity.
Qed.

(** X7. When the first terminal answer is ['Ready'] and its ['result'] is
    present but not an object (a [null], a string, a list), the lookup of
    the sample raises [AttributeError] out of [generate_image]. *)
Theorem generate_image_result_not_object w endpoint task_id (N : nat) v :
  model_endpoints !! model = Some endpoint →
  post_reply w (base_url self +:+ endpoint)
    (generate_payload prompt width height aspect_ratio) !! "id" = Some task_id →
  truthy task_id = true →
  (N < 30)%nat →
  (∀ i, (i < N)%nat → in_progress (status_script w i)) →
  status_script w N !! "status" = Some (VStr "Ready") →
  status_script w N !! "result" = Some v →
  (∀ inner, v ≠ VDict inner) →
  (generate_image self prompt model width height aspect_ratio w).1
  = Raise (AttributeError "get").
Proof.
  intros Hm Hid Htruthy HN Hidle Hready Hresult Hv.
  rewrite (generate_image_run self prompt model width height aspect_ratio w endpoint Hm).
  cbn zeta.
  rewrite await_sample_polls by (rewrite Hid; exact Htruthy).
  rewrite Hid. cbn [default]. unfold id.
  erewrite run_bind_ok
    by (apply (get_task_result_ready_run self task_id false _ N); assumption).
  rewrite (sample_url_not_dict _ v) by assumption. reflexivity.
Qed.

End GenerateFailures.

Lemma generate_image_no_sample_witness :
  (generate_image Double.api "a red fox" "flux.1.1-pro" None None None
     (Double.quiet_world (Double.after 3 Double.failed_answer))).1 = Ok VNone ∧
  (generate_image Double.api "a red fox" "flux.1.1-pro" None None None
     (Double.quiet_world (Double.after 0 (Double.answer "Ready")))).1 = Ok VNone.
Proof.
  split.
  - apply (generate_image_no_sample Double.api "a red fox" "flux.1.1-pro" None None None
             _ "/v1/flux-pro-1.1" (VStr "job-1")); try reflexivity.
    right. exists 3%nat. split; [lia |]. split; [| left; reflexivity].
    intros i Hi. exists (VStr "Processing").
    destruct i as [|[|[|i]]]; [| | | lia]; (split; [reflexivity | split; discriminate]).
  - apply (generate_image_no_sample Double.api "a red fox" "flux.1.1-pro" None None None
             _ "/v1/flux-pro-1.1" (VStr "job-1")); try reflexivity.
    right. exists 0%nat. split; [lia |]. split; [intros i Hi; lia |].
    right. split; [reflexivity | left; reflexivity].
Defined.

Lemma generate_image_result_not_object_witness :
  (generate_image Double.api "a red fox" "flux.1.1-pro" None None None
     (Double.quiet_world
        (Double.after 0 (<[ "status" := VStr "Ready" ]> (<[ "result" := VNone ]> ∅))))).1
  = Raise (AttributeError "get").
Proof.
  apply (generate_image_result_not_object Double.api "a red fox" "flux.1.1-pro"
           None None None _ "/v1/flux-pro-1.1" (VStr "job-1") 0 VNone);
    try reflexivity; try discriminate.
  - lia.
  - intros i Hi. lia.
Defined.

(** X8. The dimensions of a text-to-image payload outside the table. A
    non-empty aspect ratio that is none of the five keys leaves the width
    and height exactly as passed, [None] included: no default applies.
    Without aspect ratio, a width or height that is missing or zero is
    replaced by 1024 or 768, each on its own, and any other value is
    kept. *)
Theorem generate_image_other_dimensions self prompt model width height w :
  is_Some (model_endpoints !! model) →
  (∀ aspect_ratio,
     aspect_ratio ≠ "" →
     aspect_ratio ∉ map fst aspect_table →
     ∃ url payload,
       submissions (generate_image self prompt model width height
                      (Some aspect_ratio) w).2
       = submissions w ++ [(url, payload)] ∧
       payload !! "width" = Some (of_opt_int width) ∧
       payload !! "height" = Some (of_opt_int height)) ∧
  (∃ url payload,
     submissions (generate_image self prompt model width height None w).2
     = submissions w ++ [(url, payload)] ∧
     payload !! "width"
     = Some (VInt match width with
                  | Some n => if n =? 0 then 1024 else n
                  | None => 1024
                  end) ∧
     payload !! "height"
     = Some (VInt match height with
                  | Some n => if n =? 0 then 768 else n
                  | None => 768
                  end)).
Proof.
  intros [endpoint Hm]. split.
  - intros aspect_ratio Hne Hout.
    eexists _, _. split; [apply generate_image_submits; exact Hm |].
    cbn [map fst aspect_table] in Hout.
    repeat (apply not_elem_of_cons in Hout as [? Hout]).
    unfold generate_payload, generate_dimensions. cbn [of_opt_str truthy py_eq_str].
    repeat match goal with
           | Hx : aspect_ratio ≠ ?s |- _ =>
               rewrite (proj2 (String.eqb_neq aspect_ratio s) Hx); clear Hx
           end.
    cbn [negb]. split; reflexivity.
  - eexists _, _. split; [apply generate_image_submits; exact Hm |].
    split; reflexivity.
Qed.

Lemma generate_image_other_dimensions_witness :
  let w := Double.quiet_world (Double.after 0 Double.ready_answer) in
  ∃ url payload,
    submissions (generate_image Double.api "a red fox" "flux.1.1-pro" None (Some 512)
                   (Some "2:1") w).2 = [(url, payload)] ∧
    payload !! "width" = Some VNone ∧ payload !! "height" = Some (VInt 512).
Proof.
  intros w.
  destruct (generate_image_other_dimensions Double.api "a red fox" "flux.1.1-pro"
              None (Some 512) w) as [Hother _].
  - eexists. reflexivity.
  - apply (Hother "2:1"); [discriminate |].
    cbn [map fst aspect_table]. intros Hin.
    repeat (apply elem_of_cons in Hin as [Hin | Hin]; [discriminate |]).
    inversion Hin.
Defined.

(** ** The client object *)

(** X9. [FluxAPI()] takes the key passed when it is a non-empty string,
    and the environment variable [BFL_API_KEY] otherwise; it sends it as
    the [X-Key] header and fixes the base URL. With no non-empty key from
    either place it raises [ValueError]. It changes nothing around it. *)
Theorem FluxAPI_init_key w :
  (∀ k, k ≠ "" →
     FluxAPI_init (Some k) w
     = (Ok {| api_key := k; base_url := "https://api.bfl.ml";
              headers := {[ "X-Key" := k ]} |}, w)) ∧
  (∀ key k,
     key = None ∨ key = Some "" →
     environ w !! "BFL_API_KEY" = Some k → k ≠ "" →
     FluxAPI_init key w
     = (Ok {| api_key := k; base_url := "https://api.bfl.ml";
              headers := {[ "X-Key" := k ]} |}, w)) ∧
  (∀ key,
     key = None ∨ key = Some "" →
     environ w !! "BFL_API_KEY" = None ∨ environ w !! "BFL_API_KEY" = Some "" →
     FluxAPI_init key w = (Raise (ValueError missing_key), w)).
Proof.
  split; [| split].
  - intros k Hk. apply String.eqb_neq in Hk. unfold FluxAPI_init.
    rewrite Hk. cbn iota. rewrite Hk. reflexivity.
  - intros key k Hkey Henv Hk. apply String.eqb_neq in Hk. unfold FluxAPI_init.
    destruct Hkey as [-> | ->]; cbn [String.eqb]; rewrite Henv, Hk; reflexivity.
  - intros key Hkey Henv. unfold FluxAPI_init.
    destruct Hkey as [-> | ->], Henv as [Henv | Henv];
      cbn [String.eqb]; rewrite Henv; reflexivity.
Qed.

Lemma FluxAPI_init_key_witness :
  let w := Double.with_key (Double.quiet_world (λ _, ∅)) in
  (FluxAPI_init (Some "explicit") w).1
  = Ok {| api_key := "explicit"; base_url := "https://api.bfl.ml";
          headers := {[ "X-Key" := "explicit" ]} |} ∧
  (FluxAPI_init (Some "") w).1 = Ok Double.api ∧
  (FluxAPI_init None (Double.quiet_world (λ _, ∅))).1 = Raise (ValueError missing_key).
Proof.
  intros w.
  destruct (FluxAPI_init_key w) as (Hexplicit & Henv & _).
  destruct (FluxAPI_init_key (Double.quiet_world (λ _, ∅))) as (_ & _ & Hnone).
  split; [| split].
  - rewrite Hexplicit by discriminate. reflexivity.
  - rewrite (Henv (Some "") "k") by (auto || reflexivity || discriminate). reflexivity.
  - rewrite Hnone by (auto || (left; reflexivity)). reflexivity.
Defined.

(** ** More on the wait: files *)

Lemma await_sample_files self reply what w :
  files (await_sample self reply what w).2 = files w.
Proof.
  unfold await_sample. destruct (negb _); [reflexivity |].
  unfold mbind, Run_bind. rewrite get_task_result_unfold.
  destruct (poll_loop_only_queries self (default VNone (reply !! "id")) false 30 0
              (announced w)) as (k & _ & _ & Hfiles & _).
  destruct (poll_loop self _ false 30 0 (announced w)) as [[result | e] w'];
    cbn [fst snd] in Hfiles |- *.
  - rewrite sample_url_world. exact Hfiles.
  - exact Hfiles.
Qed.

(** ** More on masks and inpainting *)

Section Inpaint.
Context `{Pillow} `{PyLib}.

(** X10. [create_mask] looks at its two names only to tell ['ground'] from
    any other position and ['rectangle'] from any other shape: an unknown
    shape draws the circle, an unknown position is the centre, and on the
    ground the shape plays no part. *)
Theorem create_mask_two_tests size shape shape' position position' :
  (position = "ground" ↔ position' = "ground") →
  (position = "ground" ∨ (shape = "rectangle" ↔ shape' = "rectangle")) →
  create_mask size shape position = create_mask size shape' position'.
Proof.
  intros Hp Hs. unfold create_mask.
  destruct (String.eqb_spec position "ground") as [Hg | Hg],
           (String.eqb_spec position' "ground") as [Hg' | Hg'];
    try (exfalso; tauto); [reflexivity |].
  destruct Hs as [Hs | Hs]; [contradiction |].
  destruct (String.eqb_spec shape "rectangle") as [Hr | Hr],
           (String.eqb_spec shape' "rectangle") as [Hr' | Hr'];
    try (exfalso; tauto); reflexivity.
Qed.

(** X11. [inpaint] stops before it sends anything when the source image
    cannot be read or decoded, when the mask cannot be made, when
    [temp_mask.jpg] cannot be opened for writing, or when the mask cannot
    be encoded. In the first four cases it raises and leaves the world as
    it was; a file that cannot be opened is found before the encoder
    runs. In the last case Pillow has opened [temp_mask.jpg] by the time
    the encoder fails: the file holds what the failed save leaves of it,
    and nothing else has changed. *)
Theorem inpaint_preflight self image_path prompt mask_shape position w :
  (files w !! image_path = None →
   inpaint self image_path prompt mask_shape position w
   = (Raise (FileNotFoundError image_path), w)) ∧
  (∀ data what,
     files w !! image_path = Some data → Image_open data = inl what →
     inpaint self image_path prompt mask_shape position w
     = (Raise (ImageError what), w)) ∧
  (∀ data img e,
     files w !! image_path = Some data → Image_open data = inr img →
     create_mask (size img) mask_shape position = Raise e →
     inpaint self image_path prompt mask_shape position w = (Raise e, w)) ∧
  (∀ data img mask,
     files w !! image_path = Some data → Image_open data = inr img →
     create_mask (size img) mask_shape position = Ok mask →
     writable w "temp_mask.jpg" = false →
     inpaint self image_path prompt mask_shape position w
     = (Raise (PermissionError "temp_mask.jpg"), w)) ∧
  (∀ data img mask what,
     files w !! image_path = Some data → Image_open data = inr img →
     create_mask (size img) mask_shape position = Ok mask →
     writable w "temp_mask.jpg" = true →
     Image_save mask "JPEG" None = inl what →
     inpaint self image_path prompt mask_shape position w
     = (Raise (ImageError what),
        with_files
          (match Image_save_leaves mask "JPEG" (files w !! "temp_mask.jpg") with
           | Some rest => <[ "temp_mask.jpg" := rest ]> (files w)
           | None => delete "temp_mask.jpg" (files w)
           end) w)).
Proof.
  unfold inpaint, Image_open_path, Image_save_path, read_file, lift, pillow,
    mbind, Run_bind.
  repeat split.
  - intros Hfile. rewrite Hfile. reflexivity.
  - intros data what Hfile Hopen. rewrite Hfile, Hopen. reflexivity.
  - intros data img e Hfile Hopen Hmask. rewrite Hfile, Hopen, Hmask. reflexivity.
  - intros data img mask Hfile Hopen Hmask Hw.
    rewrite Hfile, Hopen, Hmask, Hw. reflexivity.
  - intros data img mask what Hfile Hopen Hmask Hw Hsave.
    rewrite Hfile, Hopen, Hmask, Hw, Hsave. reflexivity.
Qed.

(** X12. A run of [inpaint] that gets as far as the submission, for a
    source path that is [temp_mask.jpg] as written or names another file
    (another spelling of the mask file, such as [./temp_mask.jpg], is left
    out). The payload carries the source file as it is on disk,
    base64-encoded, the JPEG encoding of the mask made for the source's
    size, the prompt and the fixed parameters, and goes to the fill
    endpoint. Once the submission is answered the file [temp_mask.jpg] is
    removed and no other file has changed, whatever the answer. A source
    that is itself [temp_mask.jpg] is overwritten by the mask before it is
    encoded, and deleted. *)
Theorem inpaint_submission self image_path prompt mask_shape position w
    data img mask encoded :
  files w !! image_path = Some data →
  Image_open data = inr img →
  create_mask (size img) mask_shape position = Ok mask →
  Image_save mask "JPEG" None = inr encoded →
  writable w "temp_mask.jpg" = true →
  image_path = "temp_mask.jpg"
  ∨ os_path_abspath image_path ≠ os_path_abspath "temp_mask.jpg" →
  let run := inpaint self image_path prompt mask_shape position w in
  let sent := if String.eqb image_path "temp_mask.jpg" then encoded else data in
  submissions run.2
  = submissions w
    ++ [(base_url self +:+ "/v1/flux-pro-1.0-fill",
         <[ "image" := VStr (b64encode sent) ]>
         (<[ "mask" := VStr (b64encode encoded) ]>
         (<[ "prompt" := VStr prompt ]>
         (<[ "steps" := VInt 50 ]>
         (<[ "guidance" := VInt 60 ]>
         (<[ "output_format" := VStr "jpeg" ]>
         (<[ "safety_tolerance" := VInt 2 ]> ∅)))))))] ∧
  files run.2 = delete "temp_mask.jpg" (files w).
Proof.
  intros Hfile Hopen Hmask Hsave Hw _ run sent. subst run.
  unfold inpaint, Image_open_path.
  erewrite run_bind_ok
    by (erewrite run_bind_ok by (unfold read_file; rewrite Hfile; reflexivity);
        unfold lift, pillow; rewrite Hopen; reflexivity).
  erewrite run_bind_ok by (unfold lift; rewrite Hmask; reflexivity).
  erewrite run_bind_ok by (unfold Image_save_path; rewrite Hw, Hsave; reflexivity).
  set (w1 := with_files (<[ "temp_mask.jpg" := encoded ]> (files w)) w).
  assert (Hsent : files w1 !! image_path = Some sent).
  { subst w1 sent. cbn [files with_files].
    destruct (String.eqb_spec image_path "temp_mask.jpg") as [-> | Hne].
    - apply lookup_insert_eq.
    - rewrite lookup_insert_ne by congruence. exact Hfile. }
  erewrite run_bind_ok
    by (unfold encode_image; erewrite run_bind_ok
          by (unfold read_file; rewrite Hsent; reflexivity); reflexivity).
  erewrite run_bind_ok
    by (unfold encode_image; erewrite run_bind_ok
          by (unfold read_file; subst w1; cbn [files with_files];
              rewrite lookup_insert_eq; reflexivity); reflexivity).
  erewrite run_bind_ok by reflexivity.
  erewrite run_bind_ok
    by (unfold os_remove; subst w1; cbn [files with_files with_http_log];
        rewrite lookup_insert_eq; reflexivity).
  rewrite await_sample_submissions, await_sample_files.
  subst w1. cbn [files with_files with_http_log]. split.
  - unfold submissions. cbn [http_log with_files with_http_log].
    rewrite submissions_of_app. reflexivity.
  - apply delete_insert_eq.
Qed.

End Inpaint.

Lemma create_mask_two_tests_witness :
  @create_mask Double.pillow_double (800, 600) "triangle" "top"
  = @create_mask Double.pillow_double (800, 600) "circle" "center".
Proof.
  apply (@create_mask_two_tests Double.pillow_double (800, 600)
           "triangle" "circle" "top" "center").
  - split; discriminate.
  - right. split; discriminate.
Defined.

Lemma inpaint_preflight_witness :
  let w := Double.quiet_world (λ _, Double.ready_answer) in
  @inpaint Double.pillow_double Double.pylib_double Double.api "missing.png"
    "a red fox" "circle" "center" w
  = (Raise (FileNotFoundError "missing.png"), w) ∧
  @inpaint Double.pillow_double Double.pylib_double Double.api "bad.png"
    "a red fox" "circle" "center" (Double.with_file "bad.png" [Byte.x09] w)
  = (Raise (ImageError "cannot identify image file"), Double.with_file "bad.png" [Byte.x09] w).
Proof.
  intros w. split.
  - apply (@inpaint_preflight Double.pillow_double Double.pylib_double). reflexivity.
  - destruct (@inpaint_preflight Double.pillow_double Double.pylib_double Double.api
                "bad.png" "a red fox" "circle" "center"
                (Double.with_file "bad.png" [Byte.x09] w)) as (_ & Hdecode & _).
    apply (Hdecode [Byte.x09]); reflexivity.
Defined.

Lemma inpaint_submission_witness :
  let w := Double.with_file "room.png" Double.small_image
             (Double.quiet_world (λ _, Double.ready_answer)) in
  let run := @inpaint Double.pillow_double Double.pylib_double Double.api "room.png"
               "a red fox" "rectangle" "center" w in
  (∃ rest, submissions run.2
           = [("https://api.bfl.ml/v1/flux-pro-1.0-fill",
               <[ "image" := VStr "0202004080ff" ]> rest)]) ∧
  files run.2 !! "temp_mask.jpg" = None ∧
  files run.2 !! "room.png" = Some Double.small_image.
Proof.
  intros w run.
  destruct (@create_mask Double.pillow_double (2, 2) "rectangle" "center")
    as [mask | e] eqn:Hmask; [| discriminate Hmask].
  destruct (@Image_save Double.pillow_double mask "JPEG" None) as [what | encoded] eqn:Hsave.
  { exfalso. revert Hsave. injection Hmask as <-. discriminate. }
  destruct (@inpaint_submission Double.pillow_double Double.pylib_double Double.api
              "room.png" "a red fox" "rectangle" "center" w
              Double.small_image
              {| mode := "L"; size := (2, 2);
                 getpixel := λ x y, [Double.Z_of_byte
                   (nth (Z.to_nat (y * 2 + x)) [Byte.x00; Byte.x40; Byte.x80; Byte.xff]
                        Byte.x00)] |}
              mask encoded) as (Hsent & Hfiles).
  - reflexivity.
  - reflexivity.
  - exact Hmask.
  - exact Hsave.
  - reflexivity.
  - right. discriminate.
  - fold run in Hsent, Hfiles. split; [| split].
    + eexists. exact Hsent.
    + rewrite Hfiles. apply lookup_delete_eq.
    + rewrite Hfiles. rewrite lookup_delete_ne by discriminate. reflexivity.
Defined.

(** ** More on control and image-to-image requests *)

Section Requests.
Context `{Pillow} `{PyLib}.

(** X13. For a supported control type, a control image that cannot be
    read makes [control_generate] raise [FileNotFoundError] before
    anything is sent: the world is left as it was. *)
Theorem control_generate_missing_image self control_type control_image prompt kwargs w :
  is_Some (control_endpoints !! control_type) →
  files w !! control_image = None →
  control_generate self control_type control_image prompt kwargs w
  = (Raise (FileNotFoundError control_image), w).
Proof.
  intros [endpoint Hc] Hfile. unfold control_generate. rewrite Hc.
  unfold encode_image, read_file, mbind, Run_bind. rewrite Hfile. reflexivity.
Qed.

(** X14. The payload of a control request, for keyword arguments that do
    not clash with the named parameters. It goes to
    [<base_url>/v1/flux-pro-1.0-<control_type>]; it carries the prompt,
    the control image file base64-encoded, and [steps], [output_format]
    and [safety_tolerance] as passed or else 50, ['jpeg'] and 2; every
    keyword argument is forwarded as it is, and the keys are the six of
    the method and those of the keyword arguments. *)
Theorem control_generate_payload self control_type control_image prompt kwargs w data :
  is_Some (control_endpoints !! control_type) →
  files w !! control_image = Some data →
  kwargs !! "prompt" = None →
  kwargs !! "control_image" = None →
  ∃ payload : gmap string pyval,
    submissions (control_generate self control_type control_image prompt kwargs w).2
    = submissions w
      ++ [(base_url self +:+ "/v1/flux-pro-1.0-" +:+ control_type, payload)] ∧
    kwargs ⊆ payload ∧
    payload !! "prompt" = Some (VStr prompt) ∧
    payload !! "control_image" = Some (VStr (b64encode data)) ∧
    payload !! "steps" = Some (default (VInt 50) (kwargs !! "steps")) ∧
    payload !! "output_format" = Some (default (VStr "jpeg") (kwargs !! "output_format")) ∧
    payload !! "safety_tolerance"
    = Some (default (VInt 2) (kwargs !! "safety_tolerance")) ∧
    dom payload
    = {[ "prompt"; "control_image"; "steps"; "output_format"; "safety_tolerance";
         "guidance" ]} ∪ dom kwargs.
Proof.
  intros [endpoint Hc] Hfile Hprompt Himage.
  exists (control_payload control_type (b64encode data) prompt kwargs).
  assert (Hurl : endpoint = "/v1/flux-pro-1.0-" +:+ control_type).
  { pose proof (control_endpoints_inv _ _ Hc) as [-> | [-> | ->]];
      vm_compute in Hc; injection Hc as <-; reflexivity. }
  split.
  { rewrite <- Hurl. eapply control_generate_submits; eassumption. }
  unfold control_payload, dict_update.
  assert (Hkey : ∀ key v (rest : gmap string pyval),
            rest !! key = Some (default v (kwargs !! key)) →
            (kwargs ∪ rest) !! key = Some (default v (kwargs !! key))).
  { intros key v rest Hrest. destruct (kwargs !! key) as [x|] eqn:Hk.
    - apply lookup_union_Some_l. exact Hk.
    - rewrite lookup_union_r by exact Hk. exact Hrest. }
  apply control_endpoints_inv in Hc.
  split; [apply map_union_subseteq_l |].
  split; [rewrite lookup_union_r by exact Hprompt;
          destruct Hc as [-> | [-> | ->]]; reflexivity |].
  split; [rewrite lookup_union_r by exact Himage;
          destruct Hc as [-> | [-> | ->]]; reflexivity |].
  split; [apply Hkey; destruct Hc as [-> | [-> | ->]]; reflexivity |].
  split; [apply Hkey; destruct Hc as [-> | [-> | ->]]; reflexivity |].
  split; [apply Hkey; destruct Hc as [-> | [-> | ->]]; reflexivity |].
  assert (Hdefault : ∃ guidance,
            default ∅ (default_params !! control_type)
            = ({[ "guidance" := VInt guidance ]} : gmap string pyval)).
  { destruct Hc as [-> | [-> | ->]]; eexists; reflexivity. }
  destruct Hdefault as [guidance ->].
  rewrite !dom_union_L, !dom_insert_L, dom_empty_L, dom_singleton_L.
  apply set_eq. intros key. rewrite !elem_of_union, !elem_of_singleton.
  rewrite elem_of_empty. tauto.
Qed.

(** X15. [img2img] stops before sending anything when the source image
    cannot be read or decoded, when it is zero pixels wide, or when it
    cannot be encoded as JPEG: it raises and leaves the world as it
    was. *)
Theorem img2img_preflight self image_path prompt model strength width height w :
  is_Some (model_endpoints !! model) →
  (files w !! image_path = None →
   img2img self image_path prompt model strength width height w
   = (Raise (FileNotFoundError image_path), w)) ∧
  (∀ data what,
     files w !! image_path = Some data → Image_open data = inl what →
     img2img self image_path prompt model strength width height w
     = (Raise (ImageError what), w)) ∧
  (∀ data img,
     files w !! image_path = Some data → Image_open data = inr img →
     (size img).1 = 0 →
     img2img self image_path prompt model strength width height w
     = (Raise ZeroDivisionError, w)) ∧
  (∀ data img dimensions what,
     files w !! image_path = Some data → Image_open data = inr img →
     img2img_dimensions (size img) width height = Ok dimensions →
     Image_save img "JPEG" (Some 95) = inl what →
     img2img self image_path prompt model strength width height w
     = (Raise (ImageError what), w)).
Proof.
  intros [endpoint Hm]. unfold img2img. rewrite Hm.
  cbn [of_opt_str]. rewrite (model_endpoints_truthy _ _ Hm). cbn [negb].
  unfold Image_open_path, read_file, lift, pillow, mbind, Run_bind.
  repeat split.
  - intros Hfile. rewrite Hfile. reflexivity.
  - intros data what Hfile Hopen. rewrite Hfile, Hopen. reflexivity.
  - intros data img Hfile Hopen Hzero. rewrite Hfile, Hopen.
    unfold img2img_dimensions, int_truediv.
    destruct (size img) as [orig_width orig_height]. cbn [fst] in Hzero. subst orig_width.
    destruct width, height; reflexivity.
  - intros data img [width' height'] what Hfile Hopen Hdim Hsave.
    rewrite Hfile, Hopen, Hdim, Hsave. reflexivity.
Qed.

(** X16. An image-to-image request within the ceiling. With a readable
    source that is not zero pixels wide, the payload carries the requested
    width and height when both are given, and the source's own size
    otherwise (a width or a height given alone is ignored), provided their
    product is at most 1,048,576; the image sent is the JPEG re-encoding
    at quality 95, base64-encoded, not the file as it is on disk; the
    strength is forwarded, and the other four parameters are fixed. *)
Theorem img2img_payload self image_path prompt model strength width height w
    endpoint data img encoded :
  model_endpoints !! model = Some endpoint →
  files w !! image_path = Some data →
  Image_open data = inr img →
  (size img).1 ≠ 0 →
  let chosen := match width, height with
                | Some w', Some h' => (w', h')
                | _, _ => size img
                end in
  chosen.1 * chosen.2 ≤ 1048576 →
  Image_save img "JPEG" (Some 95) = inr encoded →
  submissions (img2img self image_path prompt model strength width height w).2
  = submissions w
    ++ [(base_url self +:+ endpoint,
         <[ "prompt" := VStr prompt ]>
         (<[ "image" := VStr (b64encode encoded) ]>
         (<[ "strength" := VFloat strength ]>
         (<[ "width" := VInt chosen.1 ]>
         (<[ "height" := VInt chosen.2 ]>
         (<[ "guidance_scale" := VFloat (float_lit 75 10) ]>
         (<[ "num_inference_steps" := VInt 50 ]>
         (<[ "scheduler" := VStr "euler_ancestral" ]>
         (<[ "preserve_init_image_color_profile" := VBool true ]> ∅)))))))))].
Proof.
  intros Hm Hfile Hopen Hwide chosen Harea Hsave.
  unfold img2img. rewrite Hm.
  cbn [of_opt_str]. rewrite (model_endpoints_truthy _ _ Hm). cbn [negb default].
  unfold Image_open_path.
  erewrite run_bind_ok
    by (erewrite run_bind_ok by (unfold read_file; rewrite Hfile; reflexivity);
        unfold lift, pillow; rewrite Hopen; reflexivity).
  assert (Hdim : img2img_dimensions (size img) width height = Ok chosen).
  { subst chosen. destruct (size img) as [orig_width orig_height] eqn:Hsize.
    cbn [fst] in Hwide.
    destruct width as [w'|], height as [h'|];
      (apply img2img_dimensions_within; [exact Hwide | exact Harea]). }
  erewrite run_bind_ok by (unfold lift; rewrite Hdim; reflexivity).
  destruct chosen as [width' height'].
  erewrite run_bind_ok by (unfold lift, pillow; rewrite Hsave; reflexivity).
  apply submit_and_await.
Qed.


(** What [img2img] sends once the two lengths are settled. *)
Lemma img2img_sends self image_path prompt model strength width height w
    endpoint data img encoded dims :
  model_endpoints !! model = Some endpoint →
  files w !! image_path = Some data →
  Image_open data = inr img →
  img2img_dimensions (size img) width height = Ok dims →
  Image_save img "JPEG" (Some 95) = inr encoded →
  ∃ payload : gmap string pyval,
    submissions (img2img self image_path prompt model strength width height w).2
    = submissions w ++ [(base_url self +:+ endpoint, payload)] ∧
    payload !! "width" = Some (VInt dims.1) ∧
    payload !! "height" = Some (VInt dims.2).
Proof.
  intros Hm Hfile Hopen Hdim Hsave.
  unfold img2img. rewrite Hm.
  cbn [of_opt_str]. rewrite (model_endpoints_truthy _ _ Hm). cbn [negb default].
  unfold Image_open_path.
  erewrite run_bind_ok
    by (erewrite run_bind_ok by (unfold read_file; rewrite Hfile; reflexivity);
        unfold lift, pillow; rewrite Hopen; reflexivity).
  erewrite run_bind_ok by (unfold lift; rewrite Hdim; reflexivity).
  destruct dims as [width' height'].
  erewrite run_bind_ok by (unfold lift, pillow; rewrite Hsave; reflexivity).
  eexists. split; [apply submit_and_await |]. split; reflexivity.
Qed.

(** C4. The dimensions that [img2img] sends, for a recognised model and
    a source that can be read, decoded and encoded. At or below the
    ceiling of 1,048,576 pixels they are the ones chosen: those asked
    for, or the source's. Above it they are computed in binary64:
    [new_width = int((1048576 / r) ** 0.5)] and
    [new_height = int(new_width * r)], where [r] is the double nearest to
    the source's height over its width. For a source of less than
    [2 ^ 31] pixels each way, and a [pow] accurate at that quotient, the
    product of the two is within the ceiling; [new_height] is the floor of
    [new_width * height / width] in exact arithmetic, or one less than it
    when that quotient is an integer; and [new_width] is the root of
    [1048576 * width / height], rounded down, to within a part in
    [2 ^ 49], so within one of the floor of that root. *)
Theorem img2img_rescaling self image_path prompt model strength width height w
    endpoint data img encoded :
  model_endpoints !! model = Some endpoint →
  files w !! image_path = Some data →
  Image_open data = inr img →
  Image_save img "JPEG" (Some 95) = inr encoded →
  let orig_width := (size img).1 in
  let orig_height := (size img).2 in
  let chosen := match width, height with
                | Some w', Some h' => (w', h')
                | _, _ => (orig_width, orig_height)
                end in
  let sent new_width new_height :=
    ∃ payload : gmap string pyval,
      submissions (img2img self image_path prompt model strength width height w).2
      = submissions w ++ [(base_url self +:+ endpoint, payload)] ∧
      payload !! "width" = Some (VInt new_width) ∧
      payload !! "height" = Some (VInt new_height) in
  (orig_width ≠ 0 → chosen.1 * chosen.2 ≤ 1048576 → sent chosen.1 chosen.2) ∧
  (1 ≤ orig_width < 2 ^ 31 → 1 ≤ orig_height < 2 ^ 31 →
   1048576 < chosen.1 * chosen.2 →
   let ratio := SFdiv 53 1024 (float_of_int orig_height) (float_of_int orig_width) in
   let quotient := SFdiv 53 1024 (float_of_int 1048576) ratio in
   let root := libm_pow quotient (float_lit 5 10) in
   sqrt_accurate quotient root →
   ∃ new_width new_height,
     sent new_width new_height ∧
     int_of_float root = Ok new_width ∧
     int_mul_float new_width ratio ≫= int_of_float = Ok new_height ∧
     new_width * new_height ≤ 1048576 ∧
     (new_height = new_width * orig_height / orig_width
      ∨ new_height = new_width * orig_height / orig_width - 1
        ∧ (new_width * orig_height) mod orig_width = 0) ∧
     2 ^ 49 * (new_width * new_width * orig_height)
     ≤ (2 ^ 49 + 1) * (1048576 * orig_width) ∧
     (2 ^ 49 - 1) * (1048576 * orig_width)
     ≤ 2 ^ 49 * ((new_width + 1) * (new_width + 1) * orig_height) ∧
     Z.sqrt (1048576 * orig_width / orig_height) - 1 ≤ new_width
     ≤ Z.sqrt (1048576 * orig_width / orig_height) + 1).
Proof.
  intros Hm Hfile Hopen Hsave orig_width orig_height chosen sent.
  assert (Hsize : size img = (orig_width, orig_height))
    by (subst orig_width orig_height; destruct (size img); reflexivity).
  split.
  - intros Hwide Harea.
    apply (img2img_sends self image_path prompt model strength width height w
             endpoint data img encoded chosen Hm Hfile Hopen); [| exact Hsave].
    rewrite Hsize. subst chosen.
    destruct width, height; (apply img2img_dimensions_within; assumption).
  - intros Hw Hh Harea ratio quotient root Hroot.
    destruct (img2img_dimensions_rescaled orig_width orig_height width height
                Hw Hh Harea Hroot)
      as (nw & nh & Hdim & Hint & Hmul & Hnw & Hnh & Hprod & [Hlow Hup] & Hwidth & Hwidth').
    exists nw, nh. split.
    { apply (img2img_sends self image_path prompt model strength width height w
               endpoint data img encoded (nw, nh) Hm Hfile Hopen); [| exact Hsave].
      rewrite Hsize. exact Hdim. }
    split; [exact Hint |]. split; [exact Hmul |]. split; [exact Hprod |].
    split; [| split; [assumption | split; [assumption |]];
              apply root_within_one; assumption].
    pose proof (Z.div_mod (nw * orig_height) orig_width ltac:(lia)) as Hdiv.
    pose proof (Z.mod_pos_bound (nw * orig_height) orig_width ltac:(lia)) as Hmod.
    set (q := nw * orig_height / orig_width) in *.
    set (r := (nw * orig_height) mod orig_width) in *.
    assert (Hq : nh = q ∨ nh = q - 1) by nia.
    destruct Hq as [-> | ->]; [left; reflexivity | right].
    split; [reflexivity | nia].
Qed.

End Requests.

Lemma control_generate_missing_image_witness :
  let w := Double.quiet_world (λ _, Double.ready_answer) in
  @control_generate Double.pylib_double Double.api "pose" "missing.png" "a red fox" ∅ w
  = (Raise (FileNotFoundError "missing.png"), w).
Proof.
  intros w.
  apply (@control_generate_missing_image Double.pylib_double); [eexists |]; reflexivity.
Defined.

Lemma control_generate_payload_witness :
  let w := Double.with_file "edges.png" Double.small_image
             (Double.quiet_world (λ _, Double.ready_answer)) in
  ∃ payload : gmap string pyval,
    submissions (@control_generate Double.pylib_double Double.api "canny" "edges.png"
                   "a red fox" {[ "seed" := VInt 7 ]} w).2
    = [("https://api.bfl.ml/v1/flux-pro-1.0-canny", payload)] ∧
    payload !! "seed" = Some (VInt 7) ∧
    payload !! "steps" = Some (VInt 50) ∧
    payload !! "control_image" = Some (VStr "0202004080ff").
Proof.
  intros w.
  destruct (@control_generate_payload Double.pylib_double Double.api "canny" "edges.png"
              "a red fox" {[ "seed" := VInt 7 ]} w Double.small_image)
    as (payload & Hsent & Hkwargs & _ & Himage & Hsteps & _).
  - eexists. reflexivity.
  - reflexivity.
  - reflexivity.
  - reflexivity.
  - exists payload. split; [exact Hsent |]. split; [| split].
    + apply (lookup_weaken _ _ _ _ (lookup_singleton_eq "seed" (VInt 7)) Hkwargs).
    + exact Hsteps.
    + exact Himage.
Defined.

Lemma img2img_preflight_witness :
  let w := Double.with_file "flat.png" [Byte.x00; Byte.x03]
             (Double.quiet_world (λ _, Double.ready_answer)) in
  @img2img Double.pillow_double Double.pylib_double Double.api "flat.png" "a red fox"
    "flux.1.1-pro" (float_lit 75 100) (Some 512) (Some 512) w
  = (Raise ZeroDivisionError, w).
Proof.
  intros w.
  destruct (@img2img_preflight Double.pillow_double Double.pylib_double Double.api
              "flat.png" "a red fox" "flux.1.1-pro" (float_lit 75 100)
              (Some 512) (Some 512) w) as (_ & _ & Hzero & _).
  - eexists. reflexivity.
  - eapply Hzero; reflexivity.
Defined.

Lemma img2img_payload_witness :
  let w := Double.with_file "room.png" Double.small_image
             (Double.quiet_world (λ _, Double.ready_answer)) in
  ∃ payload : gmap string pyval,
    submissions (@img2img Double.pillow_double Double.pylib_double Double.api "room.png"
                   "a red fox" "flux.1-pro" (float_lit 75 100) None (Some 100) w).2
    = [("https://api.bfl.ml/v1/flux-pro", payload)] ∧
    payload !! "width" = Some (VInt 2) ∧
    payload !! "height" = Some (VInt 2) ∧
    payload !! "image" = Some (VStr "0202004080ff").
Proof.
  intros w. eexists. split.
  - eapply (@img2img_payload Double.pillow_double Double.pylib_double Double.api
              "room.png" "a red fox" "flux.1-pro" (float_lit 75 100) None (Some 100) w
              "/v1/flux-pro" Double.small_image).
    + reflexivity.
    + reflexivity.
    + reflexivity.
    + discriminate.
    + cbn. lia.
    + reflexivity.
  - repeat split.
Defined.

Lemma img2img_rescaling_witness :
  let w := Double.with_file "tall.png" Double.tall_image
             (Double.quiet_world (λ _, Double.ready_answer)) in
  ∃ payload : gmap string pyval,
    submissions (@img2img Double.pillow_double Double.pylib_double Double.api "tall.png"
                   "a red fox" "flux.1.1-pro" (float_lit 75 100) (Some 2000) (Some 2000)
                   w).2
    = [("https://api.bfl.ml/v1/flux-pro-1.1", payload)] ∧
    payload !! "width" = Some (VInt 665) ∧
    payload !! "height" = Some (VInt 1574).
Proof.
  intros w.
  pose (blank := {| mode := ""; size := (0, 0); getpixel := λ _ _, [] |}).
  pose (img := match Double.decode Double.tall_image with
               | inr decoded => decoded
               | inl _ => blank
               end).
  pose (encoded := match Double.encode img "JPEG" (Some 95) with
                   | inr bytes => bytes
                   | inl _ => []
                   end).
  destruct (@img2img_rescaling Double.pillow_double Double.pylib_double Double.api
              "tall.png" "a red fox" "flux.1.1-pro" (float_lit 75 100)
              (Some 2000) (Some 2000) w "/v1/flux-pro-1.1" Double.tall_image img encoded)
    as [_ Habove].
  - reflexivity.
  - reflexivity.
  - vm_compute. reflexivity.
  - vm_compute. reflexivity.
  - destruct Habove as (nw & nh & (payload & Hsent & Hwidth & Hheight) & Hroot & Hmul & _).
    + vm_compute. split; [discriminate | reflexivity].
    + vm_compute. split; [discriminate | reflexivity].
    + vm_compute. reflexivity.
    + split; [eexists _, _; vm_compute; reflexivity |].
      split; vm_compute; discriminate.
    + vm_compute in Hroot. injection Hroot as <-.
      vm_compute in Hmul. injection Hmul as <-.
      exists payload. split; [exact Hsent |]. split; assumption.
Defined.

(** The formula in exact arithmetic fails on that run: the width is the
    floor of the root of [1048576 * 19 / 45], 665, but the height sent is
    1574, where the floor of [665 * 45 / 19] is 1575. *)
Lemma img2img_rescaling_counterexample :
  let w := Double.with_file "tall.png" Double.tall_image
             (Double.quiet_world (λ _, Double.ready_answer)) in
  1048576 < 2000 * 2000 ∧
  Z.sqrt (1048576 * 19 / 45) = 665 ∧
  665 * 45 / 19 = 1575 ∧
  ∃ payload : gmap string pyval,
    submissions (@img2img Double.pillow_double Double.pylib_double Double.api "tall.png"
                   "a red fox" "flux.1.1-pro" (float_lit 75 100) (Some 2000) (Some 2000)
                   w).2
    = [("https://api.bfl.ml/v1/flux-pro-1.1", payload)] ∧
    payload !! "width" = Some (VInt 665) ∧
    payload !! "height" = Some (VInt 1574).
Proof.
  intros w. split; [lia |]. split; [reflexivity |]. split; [reflexivity |].
  eexists. split; [vm_compute; reflexivity |]. split; reflexivity.
Qed.

(** ** More on the result pipeline *)

Lemma split_last_cons sep c rest :
  split_last sep (String c rest)
  = let '(seen, segment) := split_last sep rest in
    if seen then (true, segment)
    else if Ascii.eqb c sep then (true, segment)
    else (false, String c segment).
Proof. reflexivity. Qed.

Lemma split_last_none sep s :
  str_contains sep s = false → split_last sep s = (false, s).
Proof.
  induction s as [|c s IH]; [reflexivity |].
  cbn [str_contains]. intros Hs.
  apply orb_false_iff in Hs as [Hc Hs]. rewrite split_last_cons, (IH Hs).
  rewrite Ascii.eqb_sym, Hc. reflexivity.
Qed.

Lemma split_last_after sep sub :
  str_contains sep sub = false →
  ∀ s, split_last sep (s +:+ String sep sub) = (true, sub).
Proof.
  intros Hsub. induction s as [|c s IH].
  - change ("" +:+ String sep sub) with (String sep sub).
    rewrite split_last_cons, (split_last_none sep sub Hsub).
    rewrite Ascii.eqb_refl. reflexivity.
  - change (String c s +:+ String sep sub) with (String c (s +:+ String sep sub)).
    rewrite split_last_cons, IH. reflexivity.
Qed.

Section PipelineMore.
Context `{Pillow} `{PyLib}.

(** X17. The format is read from the text after the last ['/'] of the
    content type, whatever its case: ['png'] and ['gif'] are kept, in
    lower case, and anything else, as well as a missing content type, is
    ['jpeg']. *)
Theorem detect_save_format_subtype (body : list Byte.byte) :
  (∀ main sub,
     str_contains "/" sub = false →
     detect_save_format (HttpResponse (Some (main +:+ "/" +:+ sub)) body)
     = if String.eqb (str_lower sub) "png" || String.eqb (str_lower sub) "gif"
       then str_lower sub else "jpeg") ∧
  detect_save_format (HttpResponse None body) = "jpeg".
Proof.
  split; [| reflexivity].
  intros main sub Hsub. unfold detect_save_format.
  cbn [content_type default].
  change (main +:+ "/" +:+ sub) with (main +:+ String "/" sub).
  change (id (main +:+ String "/" sub)) with (main +:+ String "/" sub).
  rewrite (split_last_after "/" sub Hsub main). reflexivity.
Qed.

(** The conversion step always hands on a format and bytes. *)
Lemma final_image_returns image_bytes save_format output_path fetch_base64 to_webp w :
  ∃ final_format data w',
    final_image image_bytes save_format output_path fetch_base64 to_webp w
    = (Ok (final_format, data), w') ∧
    files w' = files w ∧ http_log w' = http_log w.
Proof.
  unfold final_image.
  destruct (to_webp && (truthy (of_opt_str output_path) || fetch_base64));
    [| eexists _, _, _; repeat split].
  unfold try_except, lift.
  destruct (convert_to_webp image_bytes save_format) as [[fmt data] | e] eqn:Hc.
  - eexists _, _, _; repeat split.
  - rewrite (convert_to_webp_raises _ _ _ Hc). eexists _, _, _; repeat split.
Qed.

(** The output ends with a value or with [SystemExit(1)]; a failure
    leaves the files as they were. *)
Lemma emit_outcome image_url output_path fetch_base64 final_format data w :
  let run := emit image_url output_path fetch_base64 final_format data w in
  (∃ s, run.1 = Ok s) ∨ (run.1 = Raise (SystemExit 1) ∧ files run.2 = files w).
Proof.
  unfold emit.
  destruct (truthy (of_opt_str output_path));
    [| destruct fetch_base64; left; eexists; reflexivity].
  unfold try_except, os_makedirs, write_file, mbind, Run_bind, mret, Run_ret.
  repeat match goal with
         | |- context [if writable w ?p then _ else _] =>
             destruct (writable w p); cbn
         end;
    ((left; eexists; reflexivity) || (right; split; reflexivity)).
Qed.

(** X18. [handle_image_url] never lets an exception out: for every URL,
    mode, provider and file system it returns its JSON text or ends the
    process with [sys.exit(1)]. *)
Theorem handle_image_url_outcome image_url output_path fetch_base64 to_webp w :
  let run := handle_image_url image_url output_path fetch_base64 to_webp w in
  (∃ s, run.1 = Ok s) ∨ run.1 = Raise (SystemExit 1).
Proof.
  intros run. subst run.
  destruct (downloads w image_url) as [response|] eqn:Hdl.
  - destruct (final_image_returns (content response) (detect_save_format response)
                output_path fetch_base64 to_webp
                (with_http_log (http_log w ++ [HttpDownload image_url]) w))
      as (final_format & data & w' & Hfinal & _).
    rewrite (handle_image_url_downloaded _ _ _ _ _ _ Hdl final_format data)
      by (rewrite Hfinal; reflexivity).
    destruct (emit_outcome image_url output_path fetch_base64 final_format data
                (final_image (content response) (detect_save_format response)
                   output_path fetch_base64 to_webp
                   (with_http_log (http_log w ++ [HttpDownload image_url]) w)).2)
      as [Hok | [Hexit _]]; [left; exact Hok | right; exact Hexit].
  - right. unfold handle_image_url, try_except.
    unfold mbind at 1. unfold Run_bind at 1. unfold requests_download. rewrite Hdl.
    reflexivity.
Qed.

(** X19. When the download fails, [handle_image_url] ends the process with
    [sys.exit(1)] after one download attempt and one line on stderr that
    names the URL; no file is written. *)
Theorem handle_image_url_download_fails image_url output_path fetch_base64 to_webp w :
  downloads w image_url = None →
  let run := handle_image_url image_url output_path fetch_base64 to_webp w in
  run.1 = Raise (SystemExit 1) ∧
  http_log run.2 = http_log w ++ [HttpDownload image_url] ∧
  stderr run.2
  = stderr w ++ [[Lit "Error fetching image from URL "; Interp (VStr image_url);
                  Lit ": "; InterpExn (RequestException image_url)]] ∧
  files run.2 = files w.
Proof.
  intros Hdl run.
  assert (Hrun : run
    = (Raise (SystemExit 1),
       let w1 := with_http_log (http_log w ++ [HttpDownload image_url]) w in
       with_stderr (stderr w1 ++ [[Lit "Error fetching image from URL ";
                                   Interp (VStr image_url); Lit ": ";
                                   InterpExn (RequestException image_url)]]) w1)).
  { subst run. unfold handle_image_url, try_except.
    unfold mbind at 1. unfold Run_bind at 1. unfold requests_download. rewrite Hdl.
    reflexivity. }
  rewrite Hrun. repeat split.
Qed.

(** X20. In URL mode (no output path, or an empty one, and no base64) the
    image is downloaded all the same; the JSON text returned carries the
    URL as it was given; no file is written and no conversion is
    attempted, so [to_webp] has no effect. *)
Theorem handle_image_url_passthrough image_url output_path to_webp w response :
  downloads w image_url = Some response →
  output_path = None ∨ output_path = Some "" →
  handle_image_url image_url output_path false to_webp w
  = (Ok (json_dumps (<[ "status" := VStr "success" ]>
                    (<[ "url" := VStr image_url ]> ∅))),
     with_http_log (http_log w ++ [HttpDownload image_url]) w).
Proof.
  intros Hdl Hpath.
  assert (Hfalsy : truthy (of_opt_str output_path) = false)
    by (destruct Hpath as [-> | ->]; reflexivity).
  rewrite (handle_image_url_downloaded _ _ _ _ _ _ Hdl
             (detect_save_format response) (content response)).
  - unfold final_image, emit. rewrite Hfalsy, andb_false_r. reflexivity.
  - unfold final_image. rewrite Hfalsy, andb_false_r. reflexivity.
Qed.

(** X21. When the conversion succeeds, what is emitted is the WebP: in
    base64 mode the format is ['webp'] and the data the converted bytes;
    in save mode the converted bytes are written under the path asked
    for with its extension replaced by [.webp], and that path is the one
    reported. An output path wins over the base64 flag. *)
Theorem handle_image_url_converted image_url output_path fetch_base64 w response
    final_format converted :
  downloads w image_url = Some response →
  truthy (of_opt_str output_path) || fetch_base64 = true →
  convert_to_webp (content response) (detect_save_format response)
  = Ok (final_format, converted) →
  let run := handle_image_url image_url output_path fetch_base64 true w in
  (truthy (of_opt_str output_path) = false →
   run.1 = Ok (json_dumps
                 (<[ "status" := VStr "success" ]>
                 (<[ "format" := VStr "webp" ]>
                 (<[ "data" := VStr (b64encode converted) ]> ∅))))) ∧
  (∀ path, output_path = Some path → path ≠ "" →
   let target := os_path_abspath ((os_path_splitext path).1 +:+ ".webp") in
   writable w (os_path_dirname target) = true →
   writable w target = true →
   run.1 = Ok (json_dumps
                 (<[ "status" := VStr "saved" ]>
                 (<[ "path" := VStr target ]> ∅))) ∧
   files run.2 = <[ target := converted ]> (files w)).
Proof.
  intros Hdl Hmode Hconv run.
  assert (Hformat : final_format = "webp").
  { revert Hconv. unfold convert_to_webp, pillow.
    destruct (Image_open (content response)) as [what | img];
      cbn [mbind outcome_bind mret outcome_ret]; [discriminate |].
    destruct (String.eqb (mode img) "P"
              || String.eqb (detect_save_format response) "png"
                 && str_contains "A" (mode img));
      match goal with
      | |- context [Image_convert ?i ?m] =>
          destruct (Image_convert i m) as [what | img'];
          cbn [mbind outcome_bind mret outcome_ret]; [discriminate |]
      end;
      (destruct (Image_save img' "WEBP" (Some 90)) as [what | bytes];
       cbn [mbind outcome_bind mret outcome_ret];
       [discriminate | intros [= <- _]; reflexivity]). }
  subst final_format.
  pose (w1 := with_http_log (http_log w ++ [HttpDownload image_url]) w).
  assert (Hrun : run = emit image_url output_path fetch_base64 "webp" converted w1).
  { subst run.
    rewrite (handle_image_url_downloaded _ _ _ _ _ _ Hdl "webp" converted);
      unfold final_image; rewrite Hmode; cbn [andb];
      unfold try_except, lift; rewrite Hconv; reflexivity. }
  split.
  - intros Hpath. rewrite Hpath in Hmode. cbn [orb] in Hmode. subst fetch_base64.
    rewrite Hrun. unfold emit. rewrite Hpath. reflexivity.
  - intros path -> Hne target Hdir Hfile.
    rewrite Hrun. unfold emit.
    assert (truthy (of_opt_str (Some path)) = true) as ->.
    { cbn. destruct (String.eqb_spec path ""); [contradiction | reflexivity]. }
    cbn [String.eqb Ascii.eqb Bool.eqb default]. change (id path) with path.
    fold target.
    unfold try_except, os_makedirs, write_file, mbind, Run_bind, mret, Run_ret.
    subst w1. cbn [writable with_http_log].
    rewrite Hdir. cbn [writable with_http_log]. rewrite Hfile.
    split; reflexivity.
Qed.

(** X22. In save mode without conversion, a destination whose directory
    or file cannot be written ends the process with [sys.exit(1)] after a
    line on stderr that names the path; no file is changed. *)
Theorem handle_image_url_unwritable image_url path fetch_base64 w response :
  downloads w image_url = Some response →
  path ≠ "" →
  writable w (os_path_dirname (os_path_abspath path)) = false
  ∨ writable w (os_path_abspath path) = false →
  let run := handle_image_url image_url (Some path) fetch_base64 false w in
  run.1 = Raise (SystemExit 1) ∧
  files run.2 = files w ∧
  ∃ e, last (stderr run.2)
       = Some [Lit "Error saving image to "; Interp (VStr path); Lit ": "; InterpExn e].
Proof.
  intros Hdl Hne Hw run. subst run.
  rewrite (handle_image_url_downloaded _ _ _ _ _ _ Hdl
             (detect_save_format response) (content response)) by reflexivity.
  unfold final_image. cbn [andb snd mret Run_ret]. unfold emit.
  assert (truthy (of_opt_str (Some path)) = true) as ->.
  { cbn. destruct (String.eqb_spec path ""); [contradiction | reflexivity]. }
  rewrite detect_save_format_not_webp. cbn [default]. change (id path) with path.
  unfold try_except, os_makedirs, write_file, mbind, Run_bind, mret, Run_ret.
  cbn [writable with_http_log].
  destruct (writable w (os_path_dirname (os_path_abspath path))) eqn:Hdir.
  - destruct Hw as [Hw | Hw]; [discriminate |].
    cbn [writable with_http_log]. rewrite Hw. cbn.
    repeat split. eexists. apply last_snoc.
  - cbn. repeat split. eexists. apply last_snoc.
Qed.

End PipelineMore.

Lemma detect_save_format_subtype_witness :
  @detect_save_format (HttpResponse (Some "image/PNG") []) = "png" ∧
  @detect_save_format (HttpResponse (Some "image/webp") []) = "jpeg".
Proof.
  destruct (detect_save_format_subtype []) as [Hsub _]. split.
  - apply (Hsub "image" "PNG"). reflexivity.
  - apply (Hsub "image" "webp"). reflexivity.
Defined.

Lemma handle_image_url_download_fails_witness :
  let w := Double.quiet_world (λ _, ∅) in
  let run := @handle_image_url Double.pillow_double Double.pylib_double
               "https://cdn/gone.png" (Some "out.png") false true w in
  run.1 = Raise (SystemExit 1) ∧
  http_log run.2 = [HttpDownload "https://cdn/gone.png"] ∧
  stderr run.2
  = [[Lit "Error fetching image from URL "; Interp (VStr "https://cdn/gone.png");
      Lit ": "; InterpExn (RequestException "https://cdn/gone.png")]] ∧
  files run.2 = ∅.
Proof.
  intros w run.
  apply (@handle_image_url_download_fails Double.pillow_double Double.pylib_double
           "https://cdn/gone.png" (Some "out.png") false true w).
  reflexivity.
Defined.

Lemma handle_image_url_passthrough_witness :
  let w := Double.serving "https://cdn/img.png"
             (HttpResponse (Some "image/png") [Byte.x09]) in
  @handle_image_url Double.pillow_double Double.pylib_double
    "https://cdn/img.png" None false true w
  = (Ok (Double.dumps (<[ "status" := VStr "success" ]>
                      (<[ "url" := VStr "https://cdn/img.png" ]> ∅))),
     with_http_log [HttpDownload "https://cdn/img.png"] w).
Proof.
  intros w.
  apply (@handle_image_url_passthrough Double.pillow_double Double.pylib_double
           "https://cdn/img.png" None true w
           (HttpResponse (Some "image/png") [Byte.x09])).
  - reflexivity.
  - left. reflexivity.
Defined.

Lemma handle_image_url_converted_witness :
  let w := Double.serving "https://cdn/img.png"
             (HttpResponse (Some "image/png") Double.small_image) in
  (@handle_image_url Double.pillow_double Double.pylib_double
     "https://cdn/img.png" None true true w).1
  = Ok (Double.dumps (<[ "status" := VStr "success" ]>
                     (<[ "format" := VStr "webp" ]>
                     (<[ "data" := VStr "0202004080ff" ]> ∅)))) ∧
  files (@handle_image_url Double.pillow_double Double.pylib_double
           "https://cdn/img.png" (Some "out/fox.png") false true w).2
  = {[ "/out/fox.webp" := Double.small_image ]}.
Proof.
  intros w. split.
  - destruct (@handle_image_url_converted Double.pillow_double Double.pylib_double
                "https://cdn/img.png" None true w
                (HttpResponse (Some "image/png") Double.small_image)
                "webp" Double.small_image) as (Hbase64 & _).
    + reflexivity.
    + reflexivity.
    + reflexivity.
    + apply Hbase64. reflexivity.
  - destruct (@handle_image_url_converted Double.pillow_double Double.pylib_double
                "https://cdn/img.png" (Some "out/fox.png") false w
                (HttpResponse (Some "image/png") Double.small_image)
                "webp" Double.small_image) as (_ & Hsave).
    + reflexivity.
    + reflexivity.
    + reflexivity.
    + destruct (Hsave "out/fox.png") as (_ & Hfiles);
        [reflexivity | discriminate | reflexivity | reflexivity |].
      exact Hfiles.
Defined.

Lemma handle_image_url_unwritable_witness :
  let w := with_files ∅
             (World (λ _ _, ∅) (λ _, ∅)
                (λ _, Some (HttpResponse (Some "image/png") Double.small_image))
                ∅ (λ _, false) ∅ [] [] 0) in
  let run := @handle_image_url Double.pillow_double Double.pylib_double
               "https://cdn/img.png" (Some "out.png") false false w in
  run.1 = Raise (SystemExit 1) ∧ files run.2 = ∅.
Proof.
  intros w run.
  destruct (@handle_image_url_unwritable Double.pillow_double Double.pylib_double
              "https://cdn/img.png" "out.png" false w
              (HttpResponse (Some "image/png") Double.small_image))
    as (Hexit & Hfiles & _).
  - reflexivity.
  - discriminate.
  - left. reflexivity.
  - split; [exact Hexit | exact Hfiles].
Defined.

(** ** save_image_from_url *)

Lemma proc_bind_returned {A B : Type} (m : Proc A) (f : A → Proc B) t a t' :
  m t = (Returned a, t') → (m ≫= f) t = f a t'.
Proof. intros Hm. unfold mbind, Proc_bind. rewrite Hm. reflexivity. Qed.

Lemma proc_bind_threw {A B : Type} (m : Proc A) (f : A → Proc B) t r t' :
  m t = (Threw r, t') → (m ≫= f) t = (Threw r, t').
Proof. intros Hm. unfold mbind, Proc_bind. rewrite Hm. reflexivity. Qed.

Lemma in_world_ok {A : Type} (c : Run A) t a w' :
  c (outside t) = (Ok a, w') → in_world c t = (Returned a, Console w' (stdout t)).
Proof. intros Hc. unfold in_world. rewrite Hc. reflexivity. Qed.

Lemma in_world_raise {A : Type} (c : Run A) t e w' :
  c (outside t) = (Raise e, w') →
  in_world c t = (Threw (Python e), Console w' (stdout t)).
Proof. intros Hc. unfold in_world. rewrite Hc. reflexivity. Qed.

Section SaveImage.
Context `{Pillow} `{PillowFiles}.

Ltac save_cases :=
  unfold save_image_from_url, try_except_Exception, in_world, requests_download,
    write_file, Image_open_path, read_file, lift, pillow, print, throw,
    mbind, mret, Proc_bind, Proc_ret, Run_bind, Run_ret;
  cbn;
  repeat match goal with
         | |- context [match ?x with _ => _ end] =>
             match x with
             | context [match _ with _ => _ end] => fail 1
             | _ => destruct x eqn:?; cbn
             end
         end.

(** X23. [save_image_from_url] never raises: whatever the download, the
    file system and Pillow do, it returns [True] after printing the
    "Saved as" line, or [False] after printing the "Failed to save image"
    line with the exception it met. *)
Theorem save_image_from_url_returns self url filename target_width target_height t :
  let run := save_image_from_url self url filename target_width target_height t in
  (run.1 = Returned true ∧
   last (stdout run.2) = Some [Lit "✨ Saved as "; Interp (VStr filename)])
  ∨ (run.1 = Returned false ∧
     ∃ e, last (stdout run.2) = Some [Lit "Failed to save image: "; shown e]).
Proof.
  save_cases;
    ((left; split; [reflexivity | apply last_snoc])
     || (right; split; [reflexivity | eexists (Python _); apply last_snoc])).
Qed.

(** X24. When the download fails, or the file cannot be written,
    [save_image_from_url] returns [False] and leaves every file as it
    was. *)
Theorem save_image_from_url_nothing_written self url filename target_width
    target_height t :
  downloads (outside t) url = None ∨ writable (outside t) filename = false →
  let run := save_image_from_url self url filename target_width target_height t in
  run.1 = Returned false ∧ files (outside run.2) = files (outside t).
Proof.
  intros Hfail.
  unfold save_image_from_url, try_except_Exception, in_world, requests_download,
    write_file, print, mbind, mret, Proc_bind, Proc_ret.
  cbn.
  destruct (downloads (outside t) url) as [response|]; cbn.
  - destruct Hfail as [Hfail | Hfail]; [discriminate |].
    rewrite Hfail. cbn. split; reflexivity.
  - split; reflexivity.
Qed.

(** X25. What [save_image_from_url] stores when all goes well. Unless a
    target width and a target height are both given and non-zero, the
    file holds exactly the bytes downloaded. With both, it holds what
    Pillow saves, at quality 95 and under that file name, of the
    downloaded image resized to the target size. In either case [True]
    is returned and one download is all that was sent. *)
Theorem save_image_from_url_stores self url filename target_width target_height t
    response :
  downloads (outside t) url = Some response →
  writable (outside t) filename = true →
  let run := save_image_from_url self url filename target_width target_height t in
  (truthy (of_opt_int target_width) && truthy (of_opt_int target_height) = false →
   run.1 = Returned true ∧
   files (outside run.2) = <[ filename := content response ]> (files (outside t)) ∧
   http_log (outside run.2) = http_log (outside t) ++ [HttpDownload url]) ∧
  (∀ tw th img resized data,
     target_width = Some tw → target_height = Some th → tw ≠ 0 → th ≠ 0 →
     Image_open (content response) = inr img →
     Image_resize img (tw, th) = inr resized →
     Image_save_file resized filename (Some 95) = inr data →
     run.1 = Returned true ∧
     files (outside run.2) = <[ filename := data ]> (files (outside t)) ∧
     http_log (outside run.2) = http_log (outside t) ++ [HttpDownload url]).
Proof.
  intros Hdl Hw run. subst run.
  unfold save_image_from_url, try_except_Exception, in_world, requests_download,
    write_file, Image_open_path, read_file, lift, pillow, print, throw,
    mbind, mret, Proc_bind, Proc_ret, Run_bind, Run_ret.
  cbn. rewrite Hdl. cbn. rewrite Hw. cbn. split.
  - intros Hplain. rewrite Hplain. cbn. repeat split.
  - intros tw th img resized data -> -> Htw Hth Hopen Hresize Hsave.
    cbn [of_opt_int truthy].
    rewrite (proj2 (Z.eqb_neq tw 0) Htw), (proj2 (Z.eqb_neq th 0) Hth). cbn.
    rewrite lookup_insert_eq. cbn. rewrite Hopen. cbn. rewrite Hresize. cbn.
    rewrite Hsave. cbn. rewrite Hw. cbn.
    split; [reflexivity |]. split; [apply insert_insert_eq | reflexivity].
Qed.

End SaveImage.

Lemma save_image_from_url_nothing_written_witness :
  let t := Double.terminal (Double.quiet_world (λ _, ∅)) in
  let run := @save_image_from_url Double.pillow_double Double.files_double Double.api
               "https://cdn/gone.png" "out.png" None None t in
  run.1 = Returned false ∧ files (outside run.2) = ∅.
Proof.
  intros t run.
  apply (@save_image_from_url_nothing_written Double.pillow_double Double.files_double
           Double.api "https://cdn/gone.png" "out.png" None None t).
  left. reflexivity.
Defined.

Lemma save_image_from_url_stores_witness :
  let t := Double.terminal
             (Double.serving "https://cdn/img.png"
                (HttpResponse (Some "image/png") Double.small_image)) in
  let run := @save_image_from_url Double.pillow_double Double.files_double Double.api
               "https://cdn/img.png" "out.png" (Some 640) None t in
  run.1 = Returned true ∧
  files (outside run.2) = {[ "out.png" := Double.small_image ]} ∧
  http_log (outside run.2) = [HttpDownload "https://cdn/img.png"].
Proof.
  intros t run.
  destruct (@save_image_from_url_stores Double.pillow_double Double.files_double
              Double.api "https://cdn/img.png" "out.png" (Some 640) None t
              (HttpResponse (Some "image/png") Double.small_image)) as [Hplain _].
  - reflexivity.
  - reflexivity.
  - apply Hplain. reflexivity.
Defined.

(** ** main *)

Lemma FluxAPI_init_env w k :
  environ w !! "BFL_API_KEY" = Some k → k ≠ "" →
  FluxAPI_init None w
  = (Ok {| api_key := k; base_url := "https://api.bfl.ml";
           headers := {[ "X-Key" := k ]} |}, w).
Proof.
  intros Henv Hk. apply String.eqb_neq in Hk. unfold FluxAPI_init.
  rewrite Henv, Hk. reflexivity.
Qed.

Lemma FluxAPI_init_no_env w :
  environ w !! "BFL_API_KEY" = None ∨ environ w !! "BFL_API_KEY" = Some "" →
  FluxAPI_init None w = (Raise (ValueError missing_key), w).
Proof. intros [Henv | Henv]; unfold FluxAPI_init; rewrite Henv; reflexivity. Qed.

Lemma FluxAPI_init_outcome key w :
  (∃ api, FluxAPI_init key w = (Ok api, w))
  ∨ FluxAPI_init key w = (Raise (ValueError missing_key), w).
Proof.
  unfold FluxAPI_init.
  repeat match goal with
         | |- context [match ?x with _ => _ end] => destruct x
         end;
    ((left; eexists; reflexivity) || (right; reflexivity)).
Qed.

Section Main.
Context `{Pillow} `{PyLib} `{PillowFiles}.

(** The keywords of [main]'s call of [generate_image] and of [inpaint]
    fit the parameters: the call is the method on the arguments. *)
Lemma call_generate_image api prompt model aspect_ratio width height t :
  call generate_image_signature
    [("prompt", VStr prompt); ("model", VStr model);
     ("aspect_ratio", of_opt_str aspect_ratio);
     ("width", of_opt_int width); ("height", of_opt_int height)]
    (enter_generate_image api) t
  = in_world (generate_image api prompt model width height aspect_ratio) t.
Proof. destruct aspect_ratio, width, height; reflexivity. Qed.

Lemma call_inpaint api image prompt mask_shape position t :
  call inpaint_signature
    [("image_path", VStr image); ("prompt", VStr prompt);
     ("mask_shape", VStr mask_shape); ("position", VStr position)]
    (enter_inpaint api) t
  = in_world (inpaint api image prompt mask_shape position) t.
Proof. reflexivity. Qed.

(** Those of its calls of [img2img] and [control_generate] do not. *)
Lemma call_img2img api image prompt name model strength width height :
  call img2img_signature
    [("image_path", VStr image); ("prompt", VStr prompt); ("name", VStr name);
     ("model", VStr model); ("strength", VFloat strength);
     ("width", of_opt_int width); ("height", of_opt_int height)]
    (enter_img2img api)
  = throw (TypeError "FluxAPI.img2img() got an unexpected keyword argument 'name'").
Proof. reflexivity. Qed.

Lemma call_control_generate api type image prompt steps guidance :
  call control_generate_signature
    [("type", VStr type); ("image_path", VStr image); ("prompt", VStr prompt);
     ("steps", VInt steps); ("guidance", of_opt_float guidance)]
    (enter_control_generate api)
  = throw (TypeError ("FluxAPI.control_generate() missing 2 required positional "
                      +:+ "arguments: 'control_type' and 'control_image'")).
Proof. reflexivity. Qed.


(** X26. Without an API key in [BFL_API_KEY] (unset, or empty), [main]
    stops before any command is looked at: one line on stderr with the
    message of the [ValueError], exit status 1, and nothing sent, written
    or printed on stdout. *)
Theorem main_no_api_key args t :
  environ (outside t) !! "BFL_API_KEY" = None
  ∨ environ (outside t) !! "BFL_API_KEY" = Some "" →
  main args t
  = (Threw (Python (SystemExit 1)),
     Console
       (with_stderr
          (stderr (outside t)
           ++ [[Lit "Error during API call or processing: ";
                InterpExn (ValueError missing_key)]])
          (outside t))
       (stdout t)).
Proof.
  intros Henv. unfold main, try_except_Exception.
  rewrite (proc_bind_threw _ _ t (Python (ValueError missing_key))
             (Console (outside t) (stdout t)))
    by (apply in_world_raise, FluxAPI_init_no_env, Henv).
  reflexivity.
Qed.

(** X27. The [img2img] and [control] commands cannot succeed: [main]
    passes [name=] to [FluxAPI.img2img], which has no such parameter, and
    [type=] and [image_path=] to [FluxAPI.control_generate], whose
    parameters are [control_type] and [control_image]. Whatever the
    arguments and the world, the run ends with exit status 1 and has
    sent nothing, written no file and printed nothing on stdout; with an
    API key set, the line on stderr carries the [TypeError] of the call. *)
Theorem main_keyword_mismatch args t :
  command_name (args_command args) = "img2img"
  ∨ command_name (args_command args) = "control" →
  let run := main args t in
  run.1 = Threw (Python (SystemExit 1)) ∧
  http_log (outside run.2) = http_log (outside t) ∧
  files (outside run.2) = files (outside t) ∧
  stdout run.2 = stdout t ∧
  (∀ k, environ (outside t) !! "BFL_API_KEY" = Some k → k ≠ "" →
     stderr (outside run.2)
     = stderr (outside t)
       ++ [[Lit "Error during API call or processing: ";
            Interp (VStr
              (if String.eqb (command_name (args_command args)) "img2img"
               then "FluxAPI.img2img() got an unexpected keyword argument 'name'"
               else "FluxAPI.control_generate() missing 2 required positional "
                    +:+ "arguments: 'control_type' and 'control_image'"))]]).
Proof.
  intros Hcommand run. subst run.
  destruct args as [cmd output fetch_base64 to_webp]. cbn [args_command] in *.
  destruct cmd; cbn [command_name] in Hcommand;
    try (destruct Hcommand; discriminate).
  all: unfold main, try_except_Exception; cbn [args_command].
  all: destruct (FluxAPI_init_outcome None (outside t)) as [[api Hinit] | Hinit].
  all: try (rewrite (proc_bind_threw _ _ t (Python (ValueError missing_key))
                       (Console (outside t) (stdout t)))
              by (apply in_world_raise, Hinit);
            cbn; repeat split; intros k Henv Hk;
            rewrite (FluxAPI_init_env _ k Henv Hk) in Hinit; discriminate Hinit).
  all: rewrite (proc_bind_returned _ _ t api (Console (outside t) (stdout t)))
         by (apply in_world_ok, Hinit).
  - rewrite call_img2img. cbn. repeat split.
  - rewrite call_control_generate. cbn. repeat split.
Qed.

End Main.

Lemma main_no_api_key_witness :
  let t := Double.terminal (Double.quiet_world (λ _, ∅)) in
  let run := @main Double.pillow_double Double.pylib_double
               {| args_command := Generate "a red fox" "flux.1.1-pro" None None None;
                  args_output := None; args_fetch_base64 := false;
                  args_to_webp := false |} t in
  run.1 = Threw (Python (SystemExit 1)) ∧ http_log (outside run.2) = [] ∧
  stdout run.2 = [].
Proof.
  intros t run. subst run.
  rewrite (@main_no_api_key Double.pillow_double Double.pylib_double _ t)
    by (left; reflexivity).
  repeat split.
Defined.

Lemma main_keyword_mismatch_witness :
  let t := Double.terminal (Double.studio 0) in
  let run := @main Double.pillow_double Double.pylib_double
               {| args_command := Control "canny" "edges.png" "a red fox" 50 None;
                  args_output := None; args_fetch_base64 := false;
                  args_to_webp := false |} t in
  run.1 = Threw (Python (SystemExit 1)) ∧ http_log (outside run.2) = [].
Proof.
  intros t run.
  destruct (@main_keyword_mismatch Double.pillow_double Double.pylib_double
              {| args_command := Control "canny" "edges.png" "a red fox" 50 None;
                 args_output := None; args_fetch_base64 := false;
                 args_to_webp := false |} t) as (Hexit & Hlog & _).
  - right. reflexivity.
  - split; [exact Hexit | exact Hlog].
Defined.

(** ** What the methods raise

    None of the statements of [generate_image] and [inpaint] ends the
    process: what they raise, [except Exception] catches. *)

Lemma ordinary_ret {A : Type} (a : A) : ordinary (mret a : Run A).
Proof. intros w e He. discriminate He. Qed.

Lemma ordinary_raise {A : Type} (e : exn) :
  is_Exception e = true → ordinary (raise e : Run A).
Proof. intros He w e' [= <-]. exact He. Qed.

Lemma ordinary_bind {A B : Type} (m : Run A) (f : A → Run B) :
  ordinary m → (∀ a, ordinary (f a)) → ordinary (m ≫= f).
Proof.
  intros Hm Hf w e. unfold mbind, Run_bind.
  destruct (m w) as [[a | e'] w'] eqn:Hrun.
  - apply Hf.
  - intros [= <-]. apply (Hm w). rewrite Hrun. reflexivity.
Qed.

Lemma ordinary_lift {A : Type} (o : outcome A) :
  (∀ e, o = Raise e → is_Exception e = true) → ordinary (lift o).
Proof. intros Ho w e He. apply Ho. exact He. Qed.

Lemma ordinary_pillow {A : Type} (r : string + A) : ordinary (lift (pillow r)).
Proof. apply ordinary_lift. destruct r; intros e [= <-]. reflexivity. Qed.

Lemma ordinary_print_stderr l : ordinary (print_stderr l).
Proof. intros w e He. discriminate He. Qed.

Lemma ordinary_time_sleep seconds : ordinary (time_sleep seconds).
Proof. intros w e He. discriminate He. Qed.

Lemma ordinary_requests_post url json headers : ordinary (requests_post url json headers).
Proof. intros w e He. discriminate He. Qed.

Lemma ordinary_requests_get url params : ordinary (requests_get url params).
Proof. intros w e He. discriminate He. Qed.

Lemma ordinary_getitem d key : ordinary (getitem d key).
Proof.
  unfold getitem. destruct (d !! key); [apply ordinary_ret | apply ordinary_raise].
  reflexivity.
Qed.

Lemma ordinary_read_file path : ordinary (read_file path).
Proof.
  intros w e. unfold read_file. destruct (files w !! path); intros [= <-]. reflexivity.
Qed.

Lemma ordinary_write_file path data : ordinary (write_file path data).
Proof.
  intros w e. unfold write_file. destruct (writable w path); intros [= <-]. reflexivity.
Qed.

Lemma ordinary_os_remove path : ordinary (os_remove path).
Proof.
  intros w e. unfold os_remove. destruct (files w !! path); intros [= <-]. reflexivity.
Qed.

Lemma ordinary_FluxAPI_init key : ordinary (FluxAPI_init key).
Proof.
  intros w e He.
  destruct (FluxAPI_init_outcome key w) as [[api Hinit] | Hinit];
    rewrite Hinit in He; [discriminate He | injection He as <-; reflexivity].
Qed.

Create HintDb ordinary.
#[local] Hint Resolve ordinary_ret ordinary_pillow ordinary_print_stderr ordinary_time_sleep
  ordinary_requests_post ordinary_requests_get ordinary_getitem ordinary_read_file
  ordinary_write_file ordinary_os_remove ordinary_FluxAPI_init : ordinary.

(** The statements of a sequence one after the other. *)
Ltac ordinary_steps :=
  repeat first [ solve [auto with ordinary]
               | apply ordinary_bind; [| intros ?] ].

Lemma ordinary_poll_loop self task_id silent remaining :
  ∀ attempt, ordinary (poll_loop self task_id silent remaining attempt).
Proof.
  induction remaining as [| remaining IH]; intros attempt; cbn [poll_loop].
  - ordinary_steps.
  - apply ordinary_bind; [destruct silent; ordinary_steps | intros _].
    apply ordinary_bind; [ordinary_steps | intros result].
    apply ordinary_bind; [ordinary_steps | intros status].
    destruct (py_eq_str status "Ready"); [ordinary_steps |].
    destruct (py_eq_str status "failed"); [ordinary_steps |].
    apply ordinary_bind; [ordinary_steps | intros _; apply IH].
Qed.

Lemma ordinary_get_task_result self task_id silent :
  ordinary (get_task_result self task_id silent).
Proof.
  unfold get_task_result. cbn zeta.
  apply ordinary_bind; [ordinary_steps | intros _; apply ordinary_poll_loop].
Qed.

Lemma ordinary_sample_url result : ordinary (sample_url result).
Proof.
  unfold sample_url.
  destruct result as [r|]; [| ordinary_steps].
  destruct (truthy (VDict r)); [| ordinary_steps].
  destruct (default (VDict ∅) (r !! "result"));
    try (apply ordinary_raise; reflexivity).
  match goal with |- context [truthy ?s] => destruct (truthy s) end; ordinary_steps.
Qed.

Lemma ordinary_await_sample self reply what : ordinary (await_sample self reply what).
Proof.
  unfold await_sample.
  match goal with |- context [negb ?b] => destruct b end; cbn [negb].
  - apply ordinary_bind; [apply ordinary_get_task_result | intros result].
    apply ordinary_sample_url.
  - ordinary_steps.
Qed.

Lemma ordinary_generate_image self prompt model width height aspect_ratio :
  ordinary (generate_image self prompt model width height aspect_ratio).
Proof.
  unfold generate_image.
  match goal with |- context [negb ?b] => destruct b end; cbn [negb].
  - apply ordinary_bind; [ordinary_steps | intros reply].
    apply ordinary_await_sample.
  - apply ordinary_raise. reflexivity.
Qed.

Section MethodsRaise.
Context `{Pillow} `{PyLib}.

Lemma int_mul_float_raises n x e :
  int_mul_float n x = Raise e → is_Exception e = true.
Proof.
  unfold int_mul_float. destruct (float_of_int n); intros [= <-]. reflexivity.
Qed.

Lemma Image_new_raises mode size color e :
  Image_new mode size color = Raise e → is_Exception e = true.
Proof.
  unfold Image_new.
  repeat match goal with
         | |- context [if ?b then _ else _] => destruct b
         end; intros [= <-]; reflexivity.
Qed.

Lemma create_mask_raises size shape position e :
  create_mask size shape position = Raise e → is_Exception e = true.
Proof.
  unfold create_mask.
  destruct (Image_new "L" size 0) as [mask | e'] eqn:Hnew; cbn [mbind outcome_bind].
  - destruct size as [width height].
    destruct (String.eqb position "ground");
      [| destruct (String.eqb shape "rectangle")];
      repeat match goal with
             | |- context [int_mul_float ?n ?x] =>
                 destruct (int_mul_float n x) eqn:?;
                 cbn [mbind outcome_bind mret outcome_ret]
             end;
      intros Heq; try discriminate Heq; injection Heq as <-;
      eapply int_mul_float_raises; eassumption.
  - intros [= <-]. exact (Image_new_raises _ _ _ _ Hnew).
Qed.

Lemma ordinary_Image_save_path im path format : ordinary (Image_save_path im path format).
Proof.
  intros w e. unfold Image_save_path.
  destruct (writable w path); [destruct (Image_save im format None) |];
    intros [= <-]; reflexivity.
Qed.

Lemma ordinary_encode_image image_path : ordinary (encode_image image_path).
Proof. unfold encode_image. ordinary_steps. Qed.

Lemma ordinary_Image_open_path path : ordinary (Image_open_path path).
Proof. unfold Image_open_path. ordinary_steps. Qed.

Lemma ordinary_inpaint self image_path prompt mask_shape position :
  ordinary (inpaint self image_path prompt mask_shape position).
Proof.
  unfold inpaint.
  apply ordinary_bind; [apply ordinary_Image_open_path | intros base_image].
  apply ordinary_bind;
    [apply ordinary_lift; intros e; apply create_mask_raises | intros mask].
  cbn zeta.
  apply ordinary_bind; [apply ordinary_Image_save_path | intros _].
  apply ordinary_bind; [apply ordinary_encode_image | intros image64].
  apply ordinary_bind; [apply ordinary_encode_image | intros mask64].
  apply ordinary_bind; [ordinary_steps | intros reply].
  apply ordinary_bind; [ordinary_steps | intros _].
  apply ordinary_await_sample.
Qed.

(** [handle_image_url] on what a method returned ends like
    [handle_image_url]: with the JSON text, or by [sys.exit(1)]. *)
Lemma handle_result_url_outcome image_url output_path fetch_base64 to_webp w :
  let run := handle_result_url image_url output_path fetch_base64 to_webp w in
  (∃ s, run.1 = Ok s) ∨ run.1 = Raise (SystemExit 1).
Proof.
  intros run. subst run.
  destruct image_url as [| b | n | f | url | l | d]; try (right; reflexivity).
  cbn [handle_result_url].
  destruct (downloads w url) as [response|] eqn:Hdl.
  - destruct (final_image_returns (content response) (detect_save_format response)
                output_path fetch_base64 to_webp
                (with_http_log (http_log w ++ [HttpDownload url]) w))
      as (final_format & data & w' & Hfinal & _).
    rewrite (handle_image_url_downloaded _ _ _ _ _ _ Hdl final_format data)
      by (rewrite Hfinal; reflexivity).
    destruct (emit_outcome url output_path fetch_base64 final_format data
                (final_image (content response) (detect_save_format response)
                   output_path fetch_base64 to_webp
                   (with_http_log (http_log w ++ [HttpDownload url]) w)).2)
      as [Hok | [Hexit _]]; [left; exact Hok | right; exact Hexit].
  - right. unfold handle_image_url, try_except.
    unfold mbind at 1. unfold Run_bind at 1. unfold requests_download. rewrite Hdl.
    reflexivity.
Qed.

End MethodsRaise.

(** ** How main ends *)

Lemma contained_bind {A B : Type} (m : Proc A) (f : A → Proc B) :
  contained m → (∀ a, contained (f a)) → contained (m ≫= f).
Proof.
  intros Hm Hf t r. unfold mbind, Proc_bind.
  destruct (m t) as [[a | r'] t'] eqn:Hrun.
  - apply Hf.
  - intros [= <-]. apply (Hm t). rewrite Hrun. reflexivity.
Qed.

Lemma contained_ext {A : Type} (p q : Proc A) :
  (∀ t, p t = q t) → contained q → contained p.
Proof. intros Heq Hq t r. rewrite Heq. apply Hq. Qed.

Lemma contained_in_world {A : Type} (c : Run A) :
  (∀ w e, (c w).1 = Raise e → is_Exception e = true ∨ e = SystemExit 1) →
  contained (in_world c).
Proof.
  intros Hc t r. unfold in_world.
  destruct (c (outside t)) as [[a | e] w'] eqn:Hrun; [discriminate |].
  intros [= <-].
  destruct (Hc (outside t) e) as [He | ->]; [rewrite Hrun; reflexivity | |].
  - left. exact He.
  - right. reflexivity.
Qed.

Lemma contained_ordinary {A : Type} (c : Run A) : ordinary c → contained (in_world c).
Proof. intros Hc. apply contained_in_world. intros w e He. left. exact (Hc w e He). Qed.

Lemma contained_throw {A : Type} (r : raised) :
  caught r = true ∨ r = Python (SystemExit 1) → contained (throw r : Proc A).
Proof. intros Hr t r' [= <-]. exact Hr. Qed.

Lemma contained_print l : contained (print l).
Proof. intros t r Hr. discriminate Hr. Qed.

Section MainEnds.
Context `{Pillow} `{PyLib}.

(** X28. The exit contract of [main]: whatever the arguments, the
    provider, the downloads and the file system, the run either returns
    (exit status 0) or ends by [sys.exit(1)]. No other exception leaves
    it, and no other exit status. *)
Theorem main_exit_status args t :
  (main args t).1 = Returned tt ∨ (main args t).1 = Threw (Python (SystemExit 1)).
Proof.
  unfold main, try_except_Exception.
  match goal with |- context [match ?body t with _ => _ end] => set (run := body) end.
  assert (Hrun : contained run).
  { subst run.
    apply contained_bind; [apply contained_ordinary, ordinary_FluxAPI_init | intros api].
    apply contained_bind.
    - destruct (args_command args).
      + eapply contained_ext; [intros t'; apply call_generate_image |].
        apply contained_ordinary, ordinary_generate_image.
      + rewrite call_img2img. apply contained_throw. left. reflexivity.
      + eapply contained_ext; [intros t'; apply call_inpaint |].
        apply contained_ordinary, ordinary_inpaint.
      + rewrite call_control_generate. apply contained_throw. left. reflexivity.
    - intros image_url. destruct (truthy image_url).
      + apply contained_bind; [| intros result_json; apply contained_print].
        apply contained_in_world. intros w e He.
        destruct (handle_result_url_outcome image_url (args_output args)
                    (args_fetch_base64 args) (args_to_webp args) w) as [[s Hs] | Hexit].
        * rewrite Hs in He. discriminate He.
        * rewrite Hexit in He. injection He as <-. right. reflexivity.
      + apply contained_bind;
          [apply contained_ordinary, ordinary_print_stderr | intros _].
        apply contained_throw. right. reflexivity. }
  destruct (run t) as [[[] | r] t'] eqn:Hend; [left; reflexivity | right].
  destruct (caught r) eqn:Hcaught; [reflexivity |].
  destruct (Hrun t r) as [Hr | ->]; [rewrite Hend; reflexivity | congruence | reflexivity].
Qed.

(** X29. When the method of the [generate] or [inpaint] command returns
    a URL, [main] hands it to [handle_image_url] with the three output
    options, prints the JSON text that comes back as the one line on
    stdout, and returns: the effects on the world are those of the
    method followed by those of [handle_image_url], and nothing more. *)
Theorem main_prints_result t k output fetch_base64 to_webp url json w' w'' :
  environ (outside t) !! "BFL_API_KEY" = Some k → k ≠ "" →
  url ≠ "" →
  handle_image_url url output fetch_base64 to_webp w' = (Ok json, w'') →
  let api := {| api_key := k; base_url := "https://api.bfl.ml";
                headers := {[ "X-Key" := k ]} |} in
  (∀ prompt model aspect_ratio width height,
     generate_image api prompt model width height aspect_ratio (outside t)
     = (Ok (VStr url), w') →
     main {| args_command := Generate prompt model aspect_ratio width height;
             args_output := output; args_fetch_base64 := fetch_base64;
             args_to_webp := to_webp |} t
     = (Returned tt, Console w'' (stdout t ++ [[Interp (VStr json)]]))) ∧
  (∀ image prompt mask_shape position,
     inpaint api image prompt mask_shape position (outside t) = (Ok (VStr url), w') →
     main {| args_command := Inpaint image prompt mask_shape position;
             args_output := output; args_fetch_base64 := fetch_base64;
             args_to_webp := to_webp |} t
     = (Returned tt, Console w'' (stdout t ++ [[Interp (VStr json)]]))).
Proof.
  intros Henv Hk Hurl Hhandle api.
  destruct t as [w out]. cbn [outside stdout] in *.
  assert (Htruthy : truthy (VStr url) = true).
  { cbn. destruct url; [contradiction Hurl; reflexivity | reflexivity]. }
  split; intros; unfold main, try_except_Exception; cbn [args_command args_output
    args_fetch_base64 args_to_webp].
  all: rewrite (proc_bind_returned _ _ (Console w out) api (Console w out))
         by (apply in_world_ok, FluxAPI_init_env; assumption).
  - rewrite (proc_bind_returned _ _ _ (VStr url) (Console w' out))
      by (rewrite call_generate_image; apply in_world_ok; assumption).
    rewrite Htruthy.
    rewrite (proc_bind_returned _ _ _ json (Console w'' out))
      by (apply in_world_ok; exact Hhandle).
    reflexivity.
  - rewrite (proc_bind_returned _ _ _ (VStr url) (Console w' out))
      by (rewrite call_inpaint; apply in_world_ok; assumption).
    rewrite Htruthy.
    rewrite (proc_bind_returned _ _ _ json (Console w'' out))
      by (apply in_world_ok; exact Hhandle).
    reflexivity.
Qed.

(** X30. When the method of the [generate] or [inpaint] command fails,
    [main] reports it on stderr and ends with exit status 1, without a
    download and with nothing on stdout. After a return value that is
    falsy ([None], for a submission refused, a job failed or timed out,
    or an answer without sample) the line names the command; after an
    exception it carries the exception's text. *)
Theorem main_reports_failure t k output fetch_base64 to_webp w' :
  environ (outside t) !! "BFL_API_KEY" = Some k → k ≠ "" →
  let api := {| api_key := k; base_url := "https://api.bfl.ml";
                headers := {[ "X-Key" := k ]} |} in
  let exits line :=
    (Threw (Python (SystemExit 1)) : completion unit,
     Console (with_stderr (stderr w' ++ [line]) w') (stdout t)) in
  let no_url name :=
    exits [Lit "Error: Command '"; Interp (VStr name);
           Lit "' did not produce an image URL."] in
  let failed e := exits [Lit "Error during API call or processing: "; InterpExn e] in
  (∀ prompt model aspect_ratio width height,
     let args := {| args_command := Generate prompt model aspect_ratio width height;
                    args_output := output; args_fetch_base64 := fetch_base64;
                    args_to_webp := to_webp |} in
     let run := generate_image api prompt model width height aspect_ratio (outside t) in
     (∀ v, run = (Ok v, w') → truthy v = false → main args t = no_url "generate") ∧
     (∀ e, run = (Raise e, w') → main args t = failed e)) ∧
  (∀ image prompt mask_shape position,
     let args := {| args_command := Inpaint image prompt mask_shape position;
                    args_output := output; args_fetch_base64 := fetch_base64;
                    args_to_webp := to_webp |} in
     let run := inpaint api image prompt mask_shape position (outside t) in
     (∀ v, run = (Ok v, w') → truthy v = false → main args t = no_url "inpaint") ∧
     (∀ e, run = (Raise e, w') → main args t = failed e)).
Proof.
  intros Henv Hk api exits no_url failed.
  destruct t as [w out]. cbn [outside stdout] in *.
  split; intros; split.
  all: intros x Hrun; try intros Hfalsy.
  all: unfold main, try_except_Exception;
    cbn [args_command args_output args_fetch_base64 args_to_webp].
  all: rewrite (proc_bind_returned _ _ (Console w out) api (Console w out))
         by (apply in_world_ok, FluxAPI_init_env; assumption).
  - rewrite (proc_bind_returned _ _ _ x (Console w' out))
      by (rewrite call_generate_image; apply in_world_ok; exact Hrun).
    rewrite Hfalsy. reflexivity.
  - rewrite (proc_bind_threw _ _ _ (Python x) (Console w' out))
      by (rewrite call_generate_image; apply in_world_raise; exact Hrun).
    assert (He : is_Exception x = true)
      by (apply (ordinary_generate_image api prompt model width height aspect_ratio
                   w); rewrite Hrun; reflexivity).
    cbn [caught]. rewrite He. reflexivity.
  - rewrite (proc_bind_returned _ _ _ x (Console w' out))
      by (rewrite call_inpaint; apply in_world_ok; exact Hrun).
    rewrite Hfalsy. reflexivity.
  - rewrite (proc_bind_threw _ _ _ (Python x) (Console w' out))
      by (rewrite call_inpaint; apply in_world_raise; exact Hrun).
    assert (He : is_Exception x = true)
      by (apply (ordinary_inpaint api image prompt mask_shape position w);
          rewrite Hrun; reflexivity).
    cbn [caught]. rewrite He. reflexivity.
Qed.

End MainEnds.

Lemma main_prints_result_witness :
  let t := Double.terminal (Double.studio 2) in
  let run := @main Double.pillow_double Double.pylib_double
               {| args_command := Generate "a red fox" "flux.1.1-pro" None None None;
                  args_output := None; args_fetch_base64 := true;
                  args_to_webp := false |} t in
  run.1 = Returned tt ∧
  stdout run.2
  = [[Interp (VStr (Double.dumps
        (<[ "status" := VStr "success" ]>
         (<[ "format" := VStr "png" ]>
          (<[ "data" := VStr (@b64encode Double.pylib_double Double.small_image) ]>
           ∅)))))]] ∧
  http_log (outside run.2)
  = [HttpPost "https://api.bfl.ml/v1/flux-pro-1.1"
       (generate_payload "a red fox" None None None) {[ "X-Key" := "k" ]}]
    ++ replicate 3 (HttpGet "https://api.bfl.ml/v1/get_result" {[ "id" := VStr "job-1" ]})
    ++ [HttpDownload "https://cdn/img.jpg"].
Proof.
  intros t run. subst run.
  pose (w' := (generate_image Double.api "a red fox" "flux.1.1-pro" None None None
                 (Double.studio 2)).2).
  pose (w'' := (@handle_image_url Double.pillow_double Double.pylib_double
                  "https://cdn/img.jpg" None true false w').2).
  destruct (@main_prints_result Double.pillow_double Double.pylib_double t "k" None
              true false "https://cdn/img.jpg"
              (Double.dumps
                 (<[ "status" := VStr "success" ]>
                  (<[ "format" := VStr "png" ]>
                   (<[ "data" := VStr (@b64encode Double.pylib_double Double.small_image) ]>
                    ∅))))
              w' w'') as [Hgenerate _].
  - reflexivity.
  - discriminate.
  - discriminate.
  - vm_compute. reflexivity.
  - rewrite Hgenerate by (vm_compute; reflexivity).
    split; [reflexivity |]. split; [reflexivity |]. vm_compute. reflexivity.
Defined.

Lemma main_reports_failure_witness :
  let t := Double.terminal (Double.with_key Double.rejecting_world) in
  let run := @main Double.pillow_double Double.pylib_double
               {| args_command := Generate "a red fox" "flux.1-dev" None None None;
                  args_output := None; args_fetch_base64 := false;
                  args_to_webp := false |} t in
  run.1 = Threw (Python (SystemExit 1)) ∧
  stderr (outside run.2)
  = [[Lit "Failed to start generation task"];
     [Lit "Error: Command '"; Interp (VStr "generate");
      Lit "' did not produce an image URL."]] ∧
  stdout run.2 = [].
Proof.
  intros t run. subst run.
  pose (w' := (generate_image Double.api "a red fox" "flux.1-dev" None None None
                 (Double.with_key Double.rejecting_world)).2).
  destruct (@main_reports_failure Double.pillow_double Double.pylib_double t "k" None
              false false w') as [Hgenerate _].
  - reflexivity.
  - discriminate.
  - destruct (Hgenerate "a red fox" "flux.1-dev" None None None) as [Hfalsy _].
    rewrite (Hfalsy VNone) by (vm_compute; reflexivity).
    split; [reflexivity |]. split; [| reflexivity]. vm_compute. reflexivity.
Defined.
